(** * eclipse_plugin_builders: classpath resolution and manifest patching

    A shallow embedding of [src/eclipse_plugin_builders/__main__.py].

    Python [str] values are sequences of Unicode code points, modelled as
    [list N].  [pathlib] paths are modelled by their normalised string
    form ([str(path)]), on which [PurePosixPath] equality is based.  The
    file system and the working directory of the process form a [World]
    that is threaded through the code; what the code takes from outside
    (the iteration order of sets, [lxml], the temporary file name, the
    child process) is gathered in an [Env].  Lines printed on the
    terminal are not part of the state; the message echoed before
    [sys.exit] travels with the exception. *)

From Stdlib Require Import List NArith ZArith Bool Ascii.
From Stdlib Require String.
Import String.StringSyntax.
Delimit Scope string_scope with string.
From Stdlib Require Import Permutation Sorted Lia.
Import ListNotations.

(** ** Python strings *)

Module PyStr.

Definition char := N.
Definition str := list char.

(** An ASCII literal as a Python string. *)
Definition lit (s : String.string) : str :=
  map N_of_ascii (String.list_ascii_of_string s).
Arguments lit s%_string.

Fixpoint str_eqb (a b : str) : bool :=
  match a, b with
  | [], [] => true
  | x :: a', y :: b' => N.eqb x y && str_eqb a' b'
  | _, _ => false
  end.

(** [a < b] on [str]: lexicographic on code points. *)
Fixpoint str_ltb (a b : str) : bool :=
  match a, b with
  | _, [] => false
  | [], _ :: _ => true
  | x :: a', y :: b' => N.ltb x y || (N.eqb x y && str_ltb a' b')
  end.

(** [s.startswith(p)] *)
Fixpoint startswith (p s : str) : bool :=
  match p, s with
  | [], _ => true
  | _ :: _, [] => false
  | x :: p', y :: s' => N.eqb x y && startswith p' s'
  end.

(** [s.endswith(p)] *)
Definition endswith (p s : str) : bool := startswith (rev p) (rev s).

(** [p in s] *)
Fixpoint contains (p s : str) : bool :=
  startswith p s ||
  match s with
  | [] => false
  | _ :: s' => contains p s'
  end.

(** [s.replace(old, new)] for a non-empty [old]: leftmost non-overlapping
    occurrences.  [skip] counts the characters of a matched occurrence that
    are still to be consumed. *)
Fixpoint replace_from (old new : str) (skip : nat) (s : str) : str :=
  match s with
  | [] => []
  | c :: s' =>
      match skip with
      | S k => replace_from old new k s'
      | O =>
          if startswith old s
          then new ++ replace_from old new (length old - 1) s'
          else c :: replace_from old new 0 s'
      end
  end.

Definition replace (old new s : str) : str := replace_from old new 0 s.

(** [sep.join(l)] *)
Fixpoint join (sep : str) (l : list str) : str :=
  match l with
  | [] => []
  | [x] => x
  | x :: l' => x ++ sep ++ join sep l'
  end.

(** The line boundaries of [str.splitlines]. *)
Definition is_linebreak (c : char) : bool :=
  existsb (N.eqb c) [10; 11; 12; 13; 28; 29; 30; 133; 8232; 8233]%N.

(** [s.splitlines()]: [cur] is the line being read; a carriage return
    directly followed by a line feed is one boundary. *)
Fixpoint splitlines_from (cur : str) (s : str) : list str :=
  match s with
  | [] => match cur with [] => [] | _ => [cur] end
  | c :: s' =>
      if N.eqb c 13 then
        match s' with
        | d :: s'' =>
            if N.eqb d 10 then cur :: splitlines_from [] s''
            else cur :: splitlines_from [] s'
        | [] => [cur]
        end
      else if is_linebreak c then cur :: splitlines_from [] s'
      else splitlines_from (cur ++ [c]) s'
  end.

Definition splitlines (s : str) : list str := splitlines_from [] s.

(** [c.isspace()] *)
Definition isspace (c : char) : bool :=
  ((9 <=? c) && (c <=? 13) || (28 <=? c) && (c <=? 32)
   || (8192 <=? c) && (c <=? 8202)
   || existsb (N.eqb c) [133; 160; 5760; 8232; 8233; 8239; 8287; 12288])%N.

Fixpoint lstrip (s : str) : str :=
  match s with
  | [] => []
  | c :: s' => if isspace c then lstrip s' else s
  end.

(** [s.rstrip()] *)
Definition rstrip (s : str) : str := rev (lstrip (rev s)).

(** [sorted(l)] and [l.sort(key=...)]: a stable sort by the order [ltb];
    [x] is placed in front of the first element that is not smaller. *)
Section Sorting.
Context {A : Type} (ltb : A -> A -> bool).

Fixpoint insert_sorted (x : A) (l : list A) : list A :=
  match l with
  | [] => [x]
  | y :: l' => if ltb y x then y :: insert_sorted x l' else x :: l
  end.

Fixpoint sorted_with (l : list A) : list A :=
  match l with
  | [] => []
  | x :: l' => insert_sorted x (sorted_with l')
  end.
End Sorting.

Definition sorted (l : list str) : list str := sorted_with str_ltb l.

End PyStr.
Import PyStr.

(** ** The Pattern Filter *)

Definition PATH_BLACKLIST : list str :=
  [ lit ".pde.";
    lit "/jre/";
    lit "/org.eclipse.equinox.p2.repository/";
    lit "ant";
    lit "artifacts.jar";
    lit "content.jar";
    lit "ease";
    lit "egit";
    lit "jdt.debug";
    lit "jgit";
    lit "pydev" ].

(** The inner loop of [_collect_target_platform_plugins]:
    [skip = False; for pattern in patterns: skip = pattern in s; if skip: break]. *)
Fixpoint blacklist_loop (patterns : list str) (s : str) : bool :=
  match patterns with
  | [] => false
  | pattern :: rest =>
      let skip := contains pattern s in
      if skip then skip else blacklist_loop rest s
  end.

Definition is_excluded (s : str) : bool := blacklist_loop PATH_BLACKLIST s.

(** ** Paths

    A [pathlib.PurePosixPath] is represented by its string form.  [Path]
    is the constructor's normalisation; [name], [parent], [parents] and
    [joinpath] act on normalised strings. *)

Module PurePath.

Definition slash : char := 47%N.
Definition dot : str := lit ".".

Definition not_slash (c : char) : bool := negb (N.eqb c slash).

Fixpoint take_while (f : char -> bool) (s : str) : str :=
  match s with
  | [] => []
  | c :: s' => if f c then c :: take_while f s' else []
  end.

Fixpoint drop_while (f : char -> bool) (s : str) : str :=
  match s with
  | [] => []
  | c :: s' => if f c then drop_while f s' else s
  end.

(** [s.split("/")] *)
Fixpoint split_from (cur : str) (s : str) : list str :=
  match s with
  | [] => [cur]
  | c :: s' =>
      if N.eqb c slash then cur :: split_from [] s'
      else split_from (cur ++ [c]) s'
  end.

Definition split_slash (s : str) : list str := split_from [] s.

(** The root of a POSIX path: exactly two leading slashes are kept, any
    other number of leading slashes is one. *)
Definition root_of (s : str) : str :=
  match s with
  | 47%N :: 47%N :: 47%N :: _ => [slash]
  | 47%N :: 47%N :: _ => [slash; slash]
  | 47%N :: _ => [slash]
  | _ => []
  end.

(** [str(pathlib.Path(s))]: empty and [.] components are dropped. *)
Definition Path (s : str) : str :=
  let parts :=
    filter (fun c => negb (str_eqb c [] || str_eqb c dot)) (split_slash s) in
  match root_of s ++ join [slash] parts with
  | [] => dot
  | p => p
  end.

(** The text after the last slash. *)
Definition basename (p : str) : str := rev (take_while not_slash (rev p)).

(** The text up to and including the last slash. *)
Definition dirpart (p : str) : str := rev (drop_while not_slash (rev p)).

(** [p.name] *)
Definition name (p : str) : str :=
  if str_eqb p dot then [] else basename p.

(** [str(p.parent)] *)
Definition parent (p : str) : str :=
  let d := dirpart p in
  match d with
  | [] => dot
  | _ => if forallb (N.eqb slash) d then d else removelast d
  end.

(** [str(p / n)] for a relative, normalised [n] other than [.]. *)
Definition joinpath (p n : str) : str :=
  if str_eqb p dot then n
  else if endswith [slash] p then p ++ n
  else p ++ [slash] ++ n.

(** [p.parents], nearest first. *)
Fixpoint parents_fuel (fuel : nat) (p : str) : list str :=
  match fuel with
  | O => []
  | S k =>
      let q := parent p in
      if str_eqb q p then [] else q :: parents_fuel k q
  end.

Definition parents (p : str) : list str := parents_fuel (S (length p)) p.

(** [fnmatch] of one path component against a pattern whose only
    wildcard is the star. *)
Fixpoint fnmatch (pat s : str) : bool :=
  match pat with
  | [] => match s with [] => true | _ => false end
  | c :: pat' =>
      if N.eqb c 42 then
        (fix star (s : str) : bool :=
           fnmatch pat' s ||
           match s with
           | [] => false
           | _ :: s' => star s'
           end) s
      else
        match s with
        | d :: s' => N.eqb c d && fnmatch pat' s'
        | [] => false
        end
  end.

(** A glob pattern, split at its slashes, against the components of a
    relative path; a double star stands for any number of directories. *)
Fixpoint glob_match (pat : list str) (comps : list str) : bool :=
  match pat with
  | [] => match comps with [] => true | _ => false end
  | p :: pat' =>
      if str_eqb p (lit "**") then
        (fix any (cs : list str) : bool :=
           glob_match pat' cs ||
           match cs with
           | [] => false
           | _ :: cs' => any cs'
           end) comps
      else
        match comps with
        | c :: cs => fnmatch p c && glob_match pat' cs
        | [] => false
        end
  end.

End PurePath.
Import PurePath.

(** ** The world: file system, working directory, external collaborators *)

Inductive node : Type :=
| Dir
| File (text : str).

(** Absolute path to node; the first binding of a path is the live one.
    In a file system every node above another one is a directory. *)
Definition FS := list (str * node).

Record World := { cwd : str; fs : FS }.

Fixpoint fs_lookup (p : str) (f : FS) : option node :=
  match f with
  | [] => None
  | (q, n) :: f' => if str_eqb q p then Some n else fs_lookup p f'
  end.

(** A whole-file write: any earlier binding of [p] is replaced. *)
Definition fs_write (p text : str) (f : FS) : FS :=
  (p, File text) :: filter (fun kv => negb (str_eqb (fst kv) p)) f.

(** *** Path resolution by the operating system

    A path is walked component by component, from the root when it is
    absolute and from the working directory otherwise; [..] leads to the
    directory above, and the root is above itself. *)
Definition dotdot : str := lit "..".

Definition has_dotdot (p : str) : bool :=
  existsb (str_eqb dotdot) (split_slash p).

Definition walk_step (cur c : str) : str :=
  if str_eqb c [] || str_eqb c dot then cur
  else if str_eqb c dotdot then parent cur
  else joinpath cur c.

Definition walk_start (cwd p : str) : str :=
  if startswith [slash] p then root_of p else cwd.

(** Where [p] leads for a process in [cwd].  A path without [..] is
    taken as it stands. *)
Definition abspath (cwd p : str) : str :=
  if has_dotdot p then fold_left walk_step (split_slash p) (walk_start cwd p)
  else if startswith [slash] p then p
  else if str_eqb p dot then cwd
  else joinpath cwd p.

Definition dir_at (f : FS) (d : str) : bool :=
  forallb (N.eqb slash) d
  || match fs_lookup d f with
     | Some Dir => true
     | _ => false
     end.

(** A [..] can only be taken out of a directory that exists. *)
Fixpoint traverse (f : FS) (cur : str) (comps : list str) : bool :=
  match comps with
  | [] => true
  | c :: cs =>
      (negb (str_eqb c dotdot) || dir_at f cur)
      && traverse f (walk_step cur c) cs
  end.

Definition traversable (w : World) (p : str) : bool :=
  negb (has_dotdot p)
  || traverse (fs w) (walk_start (cwd w) p) (split_slash p).

(** [os.stat(p)]: the node [p] leads to, if the walk gets there. *)
Definition stat (w : World) (p : str) : option node :=
  if traversable w p then fs_lookup (abspath (cwd w) p) (fs w) else None.

Definition is_file (w : World) (p : str) : bool :=
  match stat w p with
  | Some (File _) => true
  | _ => false
  end.

Definition is_dir (w : World) (p : str) : bool :=
  match stat w p with
  | Some Dir => true
  | _ => false
  end.

Fixpoint strip_prefix (p s : str) : option str :=
  match p, s with
  | [], _ => Some s
  | _ :: _, [] => None
  | x :: p', y :: s' => if N.eqb x y then strip_prefix p' s' else None
  end.

(** [target.glob(pattern)]: the nodes whose absolute path lies below
    [target] and whose path relative to it matches, each as
    [target / relative]. *)
Definition glob_prefix (w : World) (target : str) : str :=
  let base := abspath (cwd w) target in
  if endswith [slash] base then base else base ++ [slash].

Definition glob (w : World) (target pattern : str) : list str :=
  if traversable w target then
    flat_map
      (fun kv =>
         match strip_prefix (glob_prefix w target) (fst kv) with
         | Some rel =>
             if glob_match (split_slash pattern) (split_slash rel)
             then [joinpath target rel] else []
         | None => []
         end)
      (fs w)
  else [].

(** [E.classpathentry(kind=..., path=..., sourcepath=..., including=...)] *)
Record classpathentry := {
  kind : str;
  path : str;
  sourcepath : option str;
  including : option str
}.

(** A parsed XML document, seen through the queries the program makes:
    the [classpathentry] children of the root, and the texts of the
    elements selected by [//m:groupId], [//m:artifactId], [//m:version]
    in document order ([None] for an element without text). *)
Record xml_doc := {
  classpathentries : list classpathentry;
  groupId : list (option str);
  artifactId : list (option str);
  version : list (option str)
}.

(** [subprocess.CompletedProcess] *)
Record CompletedProcess := {
  returncode : Z;
  stdout : str;
  stderr : str
}.

(** What the code takes from outside: the iteration order of a Python
    set, the interpreter's [PurePosixPath.__lt__] (which differs between
    Python versions), [lxml], the name picked by
    [tempfile.NamedTemporaryFile], and the child process (arguments,
    [cwd] keyword, world at the call) with its effect on the file
    system, [None] when the command cannot be executed. *)
Record Env := {
  set_order : list str -> list str;
  path_lt : str -> str -> bool;
  xml_parse : str -> option xml_doc;
  xml_tostring : list classpathentry -> str;
  tmp_name : World -> str;
  subprocess_run :
    list str -> str -> World -> option (CompletedProcess * FS)
}.

(** ** Exceptions and the state monad

    [Exit message code] is [click.echo(message); sys.exit(code)]. *)

Inductive exn : Type :=
| Exit (message : str) (code : Z)
| RuntimeError (detail : str)
| OSError (filename : str)
| XMLSyntaxError (filename : str)
| ValueError.

Inductive result (A : Type) : Type :=
| Ok (a : A)
| Raise (e : exn).
Arguments Ok {A} a.
Arguments Raise {A} e.

Definition rbind {A B} (r : result A) (k : A -> result B) : result B :=
  match r with
  | Ok a => k a
  | Raise e => Raise e
  end.

(** A computation that may change the world and may raise; the world at
    the point of the raise is kept. *)
Definition M (A : Type) : Type := World -> result A * World.

Definition ret {A} (a : A) : M A := fun w => (Ok a, w).
Definition raise {A} (e : exn) : M A := fun w => (Raise e, w).
Definition bind {A B} (m : M A) (k : A -> M B) : M B :=
  fun w =>
    match m w with
    | (Ok a, w') => k a w'
    | (Raise e, w') => (Raise e, w')
    end.
Definition get : M World := fun w => (Ok w, w).
Definition put (w : World) : M unit := fun _ => (Ok tt, w).
(** A computation that only reads the world. *)
Definition read {A} (f : World -> result A) : M A := fun w => (f w, w).

Declare Scope py_scope.
Delimit Scope py_scope with py.
Notation "x <- c ;; k" := (bind c (fun x => k))
  (at level 61, c at next level, right associativity) : py_scope.
Notation "c ;;; k" := (bind c (fun _ => k))
  (at level 61, right associativity) : py_scope.
Notation "x <~ c ;; k" := (rbind c (fun x => k))
  (at level 61, c at next level, right associativity) : py_scope.

Local Open Scope py_scope.

(** ** Python sets and lists of paths *)

Definition mem (x : str) (l : list str) : bool := existsb (str_eqb x) l.

(** [set(l)]: the elements of [l], each once. *)
Fixpoint set_of (l : list str) : list str :=
  match l with
  | [] => []
  | x :: l' => if mem x l' then set_of l' else x :: set_of l'
  end.

(** [a - b] on sets. *)
Definition set_difference (a b : list str) : list str :=
  filter (fun x => negb (mem x b)) a.

(** [l.remove(x)]: drops the first occurrence; [None] is [ValueError]. *)
Fixpoint list_remove (x : str) (l : list str) : option (list str) :=
  match l with
  | [] => None
  | y :: l' =>
      if str_eqb y x then Some l'
      else match list_remove x l' with
           | Some r => Some (y :: r)
           | None => None
           end
  end.

(** ** Reading the descriptors *)

Definition _read_xml_file (env : Env) (w : World) (path : str)
  : result xml_doc :=
  match stat w path with
  | None => Raise (Exit (lit "`File " ++ path ++ lit "` not found.") 1)
  | Some Dir => Raise (OSError path)
  | Some (File text) =>
      match xml_parse env text with
      | Some tree => Ok tree
      | None => Raise (XMLSyntaxError path)
      end
  end.

(** The text of the first selected element, as the f-string renders it. *)
Definition first_text (found : list (option str)) : str :=
  match found with
  | Some text :: _ => text
  | None :: _ => lit "None"
  | [] => lit "unknown"
  end.

Definition compute_jar_name (env : Env) (w : World) : result str :=
  pom <~ _read_xml_file env w (lit "pom.xml") ;;
  let group_id := first_text (groupId pom) in
  let artifact_id := first_text (artifactId pom) in
  let version := first_text (version pom) in
  Ok (group_id ++ lit "." ++ artifact_id ++ lit "_" ++ version ++ lit ".jar").

(** [PurePosixPath.__lt__] as of Python 3.12: the slash-separated parts
    of the string form, compared as lists. *)
Fixpoint parts_ltb (a b : list str) : bool :=
  match a, b with
  | _, [] => false
  | [], _ :: _ => true
  | x :: a', y :: b' => str_ltb x y || (str_eqb x y && parts_ltb a' b')
  end.

Definition path_ltb (p q : str) : bool :=
  parts_ltb (split_slash p) (split_slash q).

Definition _third_party_lib_paths (env : Env) (w : World)
  : result (list str) :=
  classpath_root <~ _read_xml_file env w (lit ".classpath") ;;
  let third_party_lib_paths :=
    map path
      (filter
         (fun e =>
            str_eqb (kind e) (lit "lib")
            && negb (startswith (lit "/opt/capella_6.0.0") (path e)))
         (classpathentries classpath_root)) in
  Ok (sorted_with (path_lt env) (map Path third_party_lib_paths)).

(** ** Artifact Scanner and Source/Binary Reconciler *)

(** [[lst for lst in libs if not lst.name == compute_jar_name()]] *)
Fixpoint drop_own_jar (env : Env) (w : World) (libs : list str)
  : result (list str) :=
  match libs with
  | [] => Ok []
  | lst :: rest =>
      jar_name <~ compute_jar_name env w ;;
      kept <~ drop_own_jar env w rest ;;
      Ok (if negb (str_eqb (name lst) jar_name) then lst :: kept else kept)
  end.

(** What [lxml] accepts as an attribute value: no control character
    other than tab, line feed and carriage return, no surrogate, and
    neither U+FFFE nor U+FFFF. *)
Definition xml_char (c : char) : bool :=
  ((c =? 9) || (c =? 10) || (c =? 13) || (32 <=? c))%N
  && negb ((55296 <=? c) && (c <=? 57343))%N
  && negb ((c =? 65534) || (c =? 65535))%N.

Definition xml_compatible (s : str) : bool := forallb xml_char s.

Definition xml_compatible_opt (o : option str) : bool :=
  match o with
  | Some s => xml_compatible s
  | None => true
  end.

(** [E.classpathentry(kind=..., path=..., ...)]: [ValueError] when an
    attribute value is refused. *)
Definition E_classpathentry (kind path : str)
  (sourcepath including : option str) : result classpathentry :=
  if xml_compatible kind && xml_compatible path
     && xml_compatible_opt sourcepath && xml_compatible_opt including
  then Ok {| kind := kind; path := path; sourcepath := sourcepath;
             including := including |}
  else Raise ValueError.

(** The binary sibling derived from a source archive. *)
Definition sibling (src : str) : str :=
  let parent := parent src in
  let base := name src in
  joinpath parent (replace (lit ".source_") (lit "_") base).

(** One round of [for src in srcs]; once an exception is raised the
    remaining rounds do not run. *)
Definition reconcile_src (w : World)
  (acc : result (list str * list classpathentry)) (src : str)
  : result (list str * list classpathentry) :=
  st <~ acc ;;
  let (libs, target_classpaths) := st in
  if blacklist_loop PATH_BLACKLIST src then Ok st
  else
    let lib := sibling src in
    let libs :=
      match list_remove lib libs with
      | Some libs' => libs'
      | None => libs
      end in
    if is_file w lib && is_file w src
    then
      entry <~ E_classpathentry (lit "lib") lib (Some src) None ;;
      Ok (libs, target_classpaths ++ [entry])
    else Ok (libs, target_classpaths).

(** One round of [for lib in libs]. *)
Definition collect_lib (w : World)
  (acc : result (list classpathentry)) (lib : str)
  : result (list classpathentry) :=
  target_classpaths <~ acc ;;
  if blacklist_loop PATH_BLACKLIST lib then Ok target_classpaths
  else if is_file w lib then
    entry <~ E_classpathentry (lit "lib") lib None None ;;
    Ok (target_classpaths ++ [entry])
  else Ok target_classpaths.

Definition path_key_ltb (x y : classpathentry) : bool :=
  str_ltb (path x) (path y).

(** The scan: [sources] and the [libs] list before self-exclusion. *)
Definition scan_sources (w : World) (target_path : str) : list str :=
  set_of (glob w target_path (lit "**/*.source_*.jar")).

Definition scan_jars (w : World) (target_path : str) : list str :=
  let dropins_jars := glob w target_path (lit "dropins/**/*.jar") in
  let features_jars := glob w target_path (lit "features/**/*.jar") in
  let jre_jars := glob w target_path (lit "jre/**/*.jar") in
  let plugins_jars := glob w target_path (lit "plugins/**/*.jar") in
  dropins_jars ++ features_jars ++ jre_jars ++ plugins_jars.

Definition scan_libs (env : Env) (w : World) (target_path : str)
  : result (list str) :=
  let sources := scan_sources w target_path in
  let libs :=
    set_order env (set_difference (set_of (scan_jars w target_path)) sources) in
  drop_own_jar env w libs.

(** The two loops and the final sort. *)
Definition reconcile (w : World) (srcs libs : list str)
  : result (list classpathentry) :=
  st <~ fold_left (reconcile_src w) srcs (Ok (libs, [])) ;;
  let (libs, target_classpaths) := st in
  target_classpaths <~
    fold_left (collect_lib w) libs (Ok target_classpaths) ;;
  Ok (sorted_with path_key_ltb target_classpaths).

Definition _collect_target_platform_plugins (env : Env) (w : World)
  (target_path : str) : result (list classpathentry) :=
  let sources := scan_sources w target_path in
  libs <~ scan_libs env w target_path ;;
  let srcs := set_order env sources in
  reconcile w srcs libs.

(** ** Classpath Assembler: [build_classpath] *)

Definition fixed_classpaths : list classpathentry :=
  [ {| kind := lit "src"; path := lit "src"; sourcepath := None;
       including := Some (lit "**/*.java") |};
    {| kind := lit "output"; path := lit "target/classes";
       sourcepath := None; including := None |};
    {| kind := lit "con";
       path :=
         lit "org.eclipse.jdt.launching.JRE_CONTAINER/"
         ++ lit "org.eclipse.jdt.internal.debug.ui.launcher.StandardVMType/"
         ++ lit "JavaSE-17";
       sourcepath := None; including := None |} ].

(** [tempfile.NamedTemporaryFile(mode="w", delete=False)]: an empty file
    under the picked name. *)
Definition NamedTemporaryFile (env : Env) : M str :=
  fun w =>
    let n := tmp_name env w in
    (Ok n, {| cwd := cwd w; fs := fs_write n [] (fs w) |}).

Definition find_eclipse_jdtls_project_directory (w : World)
  (filename : str) : option str :=
  find
    (fun parent =>
       is_file w (joinpath parent (lit ".project"))
       && is_file w (joinpath parent (lit "pom.xml")))
    (parents (Path filename)).

(** [os.chdir(d)] *)
Definition chdir (d : str) : M unit :=
  fun w =>
    if is_dir w d then (Ok tt, {| cwd := abspath (cwd w) d; fs := fs w |})
    else (Raise (OSError d), w).

(** [subprocess.run(cmd, capture_output=True, text=True, cwd=d)]: the
    child changes to [d], resolved against the working directory of the
    caller at that moment, before the command starts;
    [FileNotFoundError], an [OSError], when that is not a directory or
    when the command is not found. *)
Definition run (env : Env) (cmd : list str) (d : str) : M CompletedProcess :=
  fun w =>
    if is_dir w d then
      match subprocess_run env cmd d w with
      | Some (result, fs') => (Ok result, {| cwd := cwd w; fs := fs' |})
      | None => (Raise (OSError (hd [] cmd)), w)
      end
    else (Raise (OSError d), w).

(** Text mode with universal newlines: a carriage return, alone or
    followed by a line feed, is read as one line feed. *)
Fixpoint universal_newlines_from (after_cr : bool) (s : str) : str :=
  match s with
  | [] => []
  | c :: s' =>
      if N.eqb c 13 then 10%N :: universal_newlines_from true s'
      else if N.eqb c 10 then
        if after_cr then universal_newlines_from false s'
        else 10%N :: universal_newlines_from false s'
      else c :: universal_newlines_from false s'
  end.

Definition universal_newlines (s : str) : str :=
  universal_newlines_from false s.

(** [open(p, "r").read()] and [Path(p).read_text()] *)
Definition read_text (p : str) : M str :=
  fun w =>
    match stat w p with
    | Some (File text) => (Ok (universal_newlines text), w)
    | _ => (Raise (OSError p), w)
    end.

(** [Path(p).write_bytes(data)] and [Path(p).write_text(data)] *)
Definition write_text (p data : str) : M unit :=
  fun w =>
    if traversable w p then
      (Ok tt,
       {| cwd := cwd w; fs := fs_write (abspath (cwd w) p) data (fs w) |})
    else (Raise (OSError p), w).

Definition mvn_cmd (w_name : str) : list str :=
  [ lit "mvn"; lit "-q"; lit "dependency:build-classpath";
    lit "-Dmdep.outputFile=" ++ w_name ].

Definition build_classpath (env : Env) (filename target_platform_path : str)
  : M unit :=
  let target_path := Path target_platform_path in
  w0 <- get ;;
  if negb (is_dir w0 target_path) then
    raise (Exit (lit "Target platform installation dir `" ++ target_path
                 ++ lit "` not found.") 1)
  else
    let classpaths := fixed_classpaths in
    w_name <- NamedTemporaryFile env ;;
    w1 <- get ;;
    match find_eclipse_jdtls_project_directory w1 filename with
    | None =>
        raise (RuntimeError
                 (lit "Could not find a valid Eclipse JDTLS project directory."
                  ++ lit " containing a `.project` and a `pom.xml` file."))
    | Some project_dir =>
        chdir project_dir ;;;
        result <- run env (mvn_cmd w_name) project_dir ;;
        if negb (returncode result =? 0)%Z then
          raise (RuntimeError (stdout result))
        else
          tmp <- read_text w_name ;;
          let classpath_3rdparty :=
            sorted (splitlines (replace (lit ":") [10%N] tmp)) in
          classpaths <-
            read (fun _ =>
                    fold_left
                      (fun acc path =>
                         classpaths <~ acc ;;
                         entry <~ E_classpathentry (lit "lib") path None None ;;
                         Ok (classpaths ++ [entry]))
                      classpath_3rdparty (Ok classpaths)) ;;
          target_classpaths <-
            read (fun w => _collect_target_platform_plugins env w target_path) ;;
          write_text (lit ".classpath")
            (xml_tostring env (classpaths ++ target_classpaths))
    end.

(** ** Manifest Classpath Patcher *)

Definition MANIFEST_PATH : str := lit "META-INF/MANIFEST.MF".

Definition _get_bundle_classpath (env : Env) (w : World)
  (third_party_lib_paths : list str) : result str :=
  libs <~ _third_party_lib_paths env w ;;
  let lib_paths := sorted (map name libs) in
  let value :=
    match third_party_lib_paths with
    | [] => lit "."
    | _ :: _ =>
        [46%N; 44%N; 10%N]
        ++ join [44%N; 10%N] (map (fun p => lit " lib/" ++ p) lib_paths)
    end in
  Ok (lit "Bundle-ClassPath: " ++ value).

(** The state of the line loop of [_update_bundle_classpath]. *)
Record patcher := {
  manifest : str;
  found_bundle_classpath : bool;
  inside_bundle_classpath : bool
}.

Definition patch_line (bundle_classpath : str) (st : patcher) (line : str)
  : patcher :=
  if startswith (lit "Bundle-ClassPath:") line then
    {| manifest := manifest st ++ bundle_classpath ++ [10%N];
       found_bundle_classpath := true;
       inside_bundle_classpath := true |}
  else if inside_bundle_classpath st && startswith (lit " ") line then st
  else
    {| manifest := manifest st ++ rstrip line ++ [10%N];
       found_bundle_classpath := found_bundle_classpath st;
       inside_bundle_classpath := false |}.

(** The text written back, from the text read and the new field. *)
Definition patch_manifest (bundle_classpath text : str) : str :=
  let lines := splitlines text in
  let st :=
    fold_left (patch_line bundle_classpath) lines
      {| manifest := []; found_bundle_classpath := false;
         inside_bundle_classpath := false |} in
  let manifest := manifest st in
  match bundle_classpath with
  | _ :: _ =>
      if negb (found_bundle_classpath st) then
        let manifest :=
          if negb (endswith [10%N] manifest) then manifest ++ [10%N]
          else manifest in
        manifest ++ bundle_classpath ++ [10%N]
      else manifest
  | [] => manifest
  end.

Definition _update_bundle_classpath (env : Env)
  (third_party_lib_paths : list str) : M unit :=
  manifest <- read_text MANIFEST_PATH ;;
  bundle_classpath <-
    read (fun w => _get_bundle_classpath env w third_party_lib_paths) ;;
  write_text MANIFEST_PATH (patch_manifest bundle_classpath manifest).

(** ** Vocabulary of the statements *)

(** [x] was found below the first-level directory [subtree] of the
    installation at [target]: some node of the file system lies at
    [target/subtree/dirs.../file] with a [file] name ending in [.jar]. *)
Definition found_under (w : World) (target subtree x : str) : Prop :=
  traversable w target = true /\
  exists key n rel dirs file,
    In (key, n) (fs w) /\
    strip_prefix (glob_prefix w target) key = Some rel /\
    split_slash rel = subtree :: dirs ++ [file] /\
    (exists stem, file = stem ++ lit ".jar") /\
    x = joinpath target rel.

(** [x] was found anywhere below [target] under a source-archive name:
    the marker [.source_] followed, at any distance, by a final [.jar]. *)
Definition found_source (w : World) (target x : str) : Prop :=
  traversable w target = true /\
  exists key n rel dirs file,
    In (key, n) (fs w) /\
    strip_prefix (glob_prefix w target) key = Some rel /\
    split_slash rel = dirs ++ [file] /\
    (exists a b, file = a ++ lit ".source_" ++ b ++ lit ".jar") /\
    x = joinpath target rel.

(** *** The scan in terms of the strings alone *)

(** The components, written with slashes between them. *)
Fixpoint slashed (comps : list str) : str :=
  match comps with
  | [] => []
  | [c] => c
  | c :: cs => c ++ slash :: slashed cs
  end.

Definition slash_free (c : str) : Prop := forallb not_slash c = true.

(** [d] with the slash that separates it from what follows. *)
Definition dir_slash (d : str) : str :=
  if endswith [slash] d then d else d ++ [slash].

(** The string form of [target / rel]. *)
Definition target_slash (target rel : str) : str :=
  if str_eqb target (lit ".") then rel else dir_slash target ++ rel.

(** Some node of the file system, of whatever type, lies at
    [target/dirs.../file], and [x] is that path as written from
    [target]. *)
Definition lies_at (w : World) (target : str) (dirs : list str)
  (file x : str) : Prop :=
  traversable w target = true /\
  Forall slash_free dirs /\ slash_free file /\
  (exists n,
      In (dir_slash (abspath (cwd w) target) ++ slashed (dirs ++ [file]), n)
        (fs w)) /\
  x = target_slash target (slashed (dirs ++ [file])).

(** [t] is what the f-string shows for the first element selected. *)
Definition shown_first (found : list (option str)) (t : str) : Prop :=
  match found with
  | [] => t = lit "unknown"
  | None :: _ => t = lit "None"
  | Some text :: _ => t = text
  end.

(** The order [a <= b] on strings used by the sorts. *)
Definition str_le (a b : str) : Prop := str_ltb b a = false.

(** The entries of a list that name [src] as their source archive. *)
Definition has_source (src : str) (e : classpathentry) : bool :=
  match sourcepath e with
  | Some s => str_eqb s src
  | None => false
  end.

(** [a] occurs in the text [detail]. *)
Definition carries (detail a : str) : Prop := contains a detail = true.

(** The [lib] entry for a binary and, possibly, its source archive. *)
Definition lib_entry (lib : str) (src : option str) : classpathentry :=
  {| kind := lit "lib"; path := lib; sourcepath := src; including := None |}.

(** Every attribute value of the entry is one [lxml] accepts. *)
Definition entry_ok (e : classpathentry) : bool :=
  xml_compatible (kind e) && xml_compatible (path e)
  && xml_compatible_opt (sourcepath e) && xml_compatible_opt (including e).

(** ** The two loops when no attribute is refused

    [planned_src] and [planned_lib] are the rounds of the two loops with
    the entry built unconditionally; [planned] is the list the
    reconciler returns if it returns. *)
Definition planned_src (w : World)
  (st : list str * list classpathentry) (src : str)
  : list str * list classpathentry :=
  let (libs, target_classpaths) := st in
  if blacklist_loop PATH_BLACKLIST src then st
  else
    let lib := sibling src in
    let libs :=
      match list_remove lib libs with
      | Some libs' => libs'
      | None => libs
      end in
    if is_file w lib && is_file w src
    then (libs, target_classpaths ++ [lib_entry lib (Some src)])
    else (libs, target_classpaths).

Definition planned_lib (w : World)
  (target_classpaths : list classpathentry) (lib : str)
  : list classpathentry :=
  if blacklist_loop PATH_BLACKLIST lib then target_classpaths
  else if is_file w lib then target_classpaths ++ [lib_entry lib None]
  else target_classpaths.

Definition planned (w : World) (srcs libs : list str)
  : list classpathentry :=
  let (libs, target_classpaths) :=
    fold_left (planned_src w) srcs (libs, []) in
  let target_classpaths := fold_left (planned_lib w) libs target_classpaths in
  sorted_with path_key_ltb target_classpaths.

(** ** The reconciler's output, declaratively *)

(** The source archives that reach the pairing step. *)
Definition passing (srcs : list str) : list str :=
  filter (fun s => negb (is_excluded s)) srcs.

(** The entries with a source archive, in processing order. *)
Definition paired_entries (w : World) (srcs : list str)
  : list classpathentry :=
  map (fun s => lib_entry (sibling s) (Some s))
    (filter (fun s => is_file w (sibling s) && is_file w s) (passing srcs)).

(** The entries without a source archive, from the binaries left over. *)
Definition unpaired_entries (w : World) (libs : list str)
  : list classpathentry :=
  map (fun l => lib_entry l None)
    (filter (fun l => negb (is_excluded l) && is_file w l) libs).

(** The entries the two loops set out to build: one for every source
    archive that passes the filter and is a regular file together with
    its sibling, and one for every binary that passes the filter, is a
    regular file and is not the sibling of a passing source archive. *)
Definition emitted (w : World) (srcs libs : list str) (e : classpathentry)
  : Prop :=
  (exists s,
      In s srcs /\ is_excluded s = false /\
      is_file w (sibling s) = true /\ is_file w s = true /\
      e = {| kind := lit "lib"; path := sibling s;
             sourcepath := Some s; including := None |}) \/
  (exists l,
      In l libs /\ is_excluded l = false /\ is_file w l = true /\
      (forall s, In s srcs -> is_excluded s = false -> sibling s <> l) /\
      e = {| kind := lit "lib"; path := l;
             sourcepath := None; including := None |}).

(** The iteration order of a set holds exactly the set's elements. *)
Definition faithful_order (env : Env) : Prop :=
  forall l : list str, Permutation (set_order env l) l.

(** The name [compute_jar_name] builds from a readable build descriptor. *)
Definition jar_name_of (pom : xml_doc) : str :=
  first_text (groupId pom) ++ lit "." ++ first_text (artifactId pom)
  ++ lit "_" ++ first_text (version pom) ++ lit ".jar".

(** ** Stages of a [build_classpath] run *)

(** The world once the temporary file exists. *)
Definition world_with_tmp (env : Env) (w : World) : World :=
  {| cwd := cwd w; fs := fs_write (tmp_name env w) [] (fs w) |}.

(** The world in which the tool is started. *)
Definition world_at_tool (env : Env) (w : World) (project_dir : str) : World :=
  {| cwd := abspath (cwd w) project_dir; fs := fs (world_with_tmp env w) |}.

(** The world the tool leaves behind. *)
Definition world_after_tool (w : World) (project_dir : str) (fs' : FS)
  : World :=
  {| cwd := abspath (cwd w) project_dir; fs := fs' |}.

Definition project_not_found : str :=
  lit "Could not find a valid Eclipse JDTLS project directory."
  ++ lit " containing a `.project` and a `pom.xml` file.".

(** ** The Manifest Classpath Patcher in the specification's words *)

Definition nl : str := [10%N].

(** The field value built from the given file names, in the given order. *)
Definition spec_bundle_classpath_value (libraryFileNames : list str) : str :=
  match libraryFileNames with
  | [] => lit "."
  | _ :: _ =>
      lit ".," ++ nl
      ++ join (lit "," ++ nl) (map (fun n => lit " lib/" ++ n) libraryFileNames)
  end.

(** The line loop in which only the first field line is rewritten and a
    later one is an ordinary line. *)
Definition spec_patch_line (bundle_classpath : str) (st : patcher)
  (line : str) : patcher :=
  if startswith (lit "Bundle-ClassPath:") line
     && negb (found_bundle_classpath st) then
    {| manifest := manifest st ++ bundle_classpath ++ nl;
       found_bundle_classpath := true;
       inside_bundle_classpath := true |}
  else if inside_bundle_classpath st && startswith (lit " ") line then st
  else
    {| manifest := manifest st ++ rstrip line ++ nl;
       found_bundle_classpath := found_bundle_classpath st;
       inside_bundle_classpath := false |}.

Definition spec_patch_manifest (bundle_classpath text : str) : str :=
  let st :=
    fold_left (spec_patch_line bundle_classpath) (splitlines text)
      {| manifest := []; found_bundle_classpath := false;
         inside_bundle_classpath := false |} in
  if found_bundle_classpath st then manifest st
  else
    (if endswith nl (manifest st) then manifest st else manifest st ++ nl)
    ++ bundle_classpath ++ nl.

(** The text the line loop of the code produces for [lines], started
    outside ([inside = false]) or inside a field. *)
Definition patched (bundle_classpath : str) (inside : bool)
  (lines : list str) : str :=
  manifest
    (fold_left (patch_line bundle_classpath) lines
       {| manifest := []; found_bundle_classpath := false;
          inside_bundle_classpath := inside |}).

(** The third-party [lib] entries of a descriptor. *)
Definition third_party (classpath_root : xml_doc) : list classpathentry :=
  filter
    (fun e =>
       str_eqb (kind e) (lit "lib")
       && negb (startswith (lit "/opt/capella_6.0.0") (path e)))
    (classpathentries classpath_root).

(** ** Sample installations *)

Module Fixtures.

Definition pom_doc : xml_doc :=
  {| classpathentries := [];
     groupId := [Some (lit "org.example")];
     artifactId := [Some (lit "demo")];
     version := [Some (lit "1.0")] |}.

Definition old_classpath_doc : xml_doc :=
  {| classpathentries :=
       [ lib_entry (lit "/y/b.jar") None;
         lib_entry (lit "/z/a.jar") None;
         lib_entry (lit "/opt/capella_6.0.0/plugins/p.jar") None ];
     groupId := []; artifactId := []; version := [] |}.

Definition render (e : classpathentry) : str :=
  kind e ++ lit " " ++ path e
  ++ match sourcepath e with Some s => lit " " ++ s | None => [] end
  ++ [10%N].

Definition tmp : str := lit "/tmp/tmpk3x9".

(** A tool that succeeds and lists two jars. *)
Definition mvn_ok (cmd : list str) (d : str) (w : World)
  : option (CompletedProcess * FS) :=
  Some ({| returncode := 0; stdout := []; stderr := [] |},
        fs_write tmp (lit "/m2/b.jar:/m2/a.jar") (fs w)).

(** A tool that fails and reports on its standard error only. *)
Definition mvn_fail (cmd : list str) (d : str) (w : World)
  : option (CompletedProcess * FS) :=
  Some ({| returncode := 1; stdout := []; stderr := lit "BUILD FAILURE" |},
        fs w).

Definition make_env
  (tool : list str -> str -> World -> option (CompletedProcess * FS))
  : Env :=
  {| set_order := fun l => l;
     path_lt := path_ltb;
     xml_parse := fun text =>
       if str_eqb text (lit "<project/>") then Some pom_doc
       else if str_eqb text (lit "<classpath/>") then Some old_classpath_doc
       else None;
     xml_tostring := fun entries => flat_map render entries;
     tmp_name := fun _ => tmp;
     subprocess_run := tool |}.

Definition E_ok : Env := make_env mvn_ok.
Definition E_fail : Env := make_env mvn_fail.

Definition project : FS :=
  [ (lit "/work", Dir);
    (lit "/work/proj", Dir);
    (lit "/work/proj/.project", File (lit "<projectDescription/>"));
    (lit "/work/proj/pom.xml", File (lit "<project/>"));
    (lit "/work/proj/.classpath", File (lit "<classpath/>"));
    (lit "/work/proj/src", Dir);
    (lit "/work/proj/src/Main.java", File (lit "class Main {}"));
    (lit "/work/proj/META-INF/MANIFEST.MF", File (lit "Bundle-Name: demo")) ].

(** An installation with a source/binary pair, an unpaired binary, an
    earlier build of the project itself, a bundled JRE, and a pair that
    lies outside the four scanned subtrees. *)
Definition eclipse : FS :=
  [ (lit "/eclipse", Dir);
    (lit "/eclipse/plugins", Dir);
    (lit "/eclipse/plugins/org.foo_1.0.jar", File []);
    (lit "/eclipse/plugins/org.foo.source_1.0.jar", File []);
    (lit "/eclipse/plugins/org.bar_2.0.jar", File []);
    (lit "/eclipse/dropins", Dir);
    (lit "/eclipse/dropins/org.example.demo_1.0.jar", File []);
    (lit "/eclipse/jre", Dir);
    (lit "/eclipse/jre/lib", Dir);
    (lit "/eclipse/jre/lib/rt.jar", File []);
    (lit "/eclipse/configuration", Dir);
    (lit "/eclipse/configuration/org.baz_3.0.jar", File []);
    (lit "/eclipse/configuration/org.baz.source_3.0.jar", File []) ].

Definition baz_source : str :=
  lit "/eclipse/configuration/org.baz.source_3.0.jar".
Definition baz_binary : str := lit "/eclipse/configuration/org.baz_3.0.jar".
Definition foo_source : str := lit "/eclipse/plugins/org.foo.source_1.0.jar".
Definition foo_binary : str := lit "/eclipse/plugins/org.foo_1.0.jar".

Definition w_start : World := {| cwd := lit "/work"; fs := project ++ eclipse |}.
Definition w_proj : World :=
  {| cwd := lit "/work/proj"; fs := project ++ eclipse |}.

(** Two source archives whose names derive the same binary name. *)
Definition twins : FS :=
  [ (lit "/twins", Dir);
    (lit "/twins/plugins", Dir);
    (lit "/twins/plugins/a_b_1.jar", File []);
    (lit "/twins/plugins/a_b.source_1.jar", File []);
    (lit "/twins/plugins/a.source_b_1.jar", File []) ].

Definition w_twins : World :=
  {| cwd := lit "/work/proj"; fs := project ++ twins |}.

(** An installation below a directory whose name happens to contain a
    denylist entry. *)
Definition elephant : FS :=
  [ (lit "/opt/elephant", Dir);
    (lit "/opt/elephant/plugins", Dir);
    (lit "/opt/elephant/plugins/org.foo_1.0.jar", File []);
    (lit "/opt/elephant/plugins/org.foo.source_1.0.jar", File []) ].

Definition w_elephant : World :=
  {| cwd := lit "/work/proj"; fs := project ++ elephant |}.

(** An installation in which a directory carries an archive name. *)
Definition unpacked : FS :=
  [ (lit "/unpacked", Dir);
    (lit "/unpacked/plugins", Dir);
    (lit "/unpacked/plugins/org.dir_1.0.jar", Dir);
    (lit "/unpacked/plugins/org.dir_1.0.jar/plugin.xml", File []) ].

Definition w_unpacked : World :=
  {| cwd := lit "/work/proj"; fs := project ++ unpacked |}.

End Fixtures.

Module Manifests.

(** A manifest in which the field stands twice. *)
Definition doubled : str :=
  lit "Bundle-ClassPath: a" ++ nl
  ++ lit "Bundle-Name: demo" ++ nl
  ++ lit "Bundle-ClassPath: b" ++ nl.

Definition field : str := lit "Bundle-ClassPath: .".

End Manifests.

(** ** Further vocabulary *)

(** A text without any of the line boundaries of [str.splitlines]. *)
Definition one_line (l : str) : bool :=
  forallb (fun c => negb (is_linebreak c)) l.

(** The text made of the given lines, each closed by a line feed. *)
Definition unlines (lines : list str) : str :=
  concat (map (fun l => l ++ nl) lines).

Definition is_field_line (l : str) : bool :=
  startswith (lit "Bundle-ClassPath:") l.

(** A field block as the manifest format wants it: a first line that
    begins with the field name, continuation lines that begin with a
    space, no line boundary inside any of them. *)
Definition field_block (block : list str) : Prop :=
  match block with
  | [] => False
  | header :: continuation =>
      is_field_line header = true /\
      Forall (fun l => startswith (lit " ") l = true) continuation /\
      Forall (fun l => one_line l = true) block
  end.

(** The line loop of [_update_bundle_classpath] on lists of lines. *)
Fixpoint patch_lines (block : list str) (inside : bool) (lines : list str)
  : list str :=
  match lines with
  | [] => []
  | l :: rest =>
      if is_field_line l then block ++ patch_lines block true rest
      else if inside && startswith (lit " ") l
           then patch_lines block inside rest
           else rstrip l :: patch_lines block false rest
  end.

(** The continuation lines of the field for the given file names: one
    line per name, all but the last closed by a comma. *)
Fixpoint lib_lines (names : list str) : list str :=
  match names with
  | [] => []
  | [n] => [lit " lib/" ++ n]
  | n :: rest => (lit " lib/" ++ n ++ lit ",") :: lib_lines rest
  end.

(** The lines of the field for the given file names. *)
Definition field_lines (names : list str) : list str :=
  match names with
  | [] => [lit "Bundle-ClassPath: ."]
  | _ :: _ => lit "Bundle-ClassPath: .," :: lib_lines names
  end.

(** Ascending order of entries by their [path] attribute. *)
Definition path_le (a b : classpathentry) : Prop :=
  str_le (path a) (path b).

(** A directory as [pathlib] writes it: not empty, and ending in a slash
    only when it is a root. *)
Definition plain_dir (d : str) : Prop :=
  d <> [] /\ (endswith [slash] d = true -> forallb (N.eqb slash) d = true).

(** A file name: no slash in it, and not the single dot. *)
Definition plain_name (n : str) : Prop :=
  forallb not_slash n = true /\ n <> dot.

(** [Fixtures.E_ok] with sets walked in the opposite order. *)
Definition E_rev : Env :=
  {| set_order := @rev str;
     path_lt := path_lt Fixtures.E_ok;
     xml_parse := xml_parse Fixtures.E_ok;
     xml_tostring := xml_tostring Fixtures.E_ok;
     tmp_name := tmp_name Fixtures.E_ok;
     subprocess_run := subprocess_run Fixtures.E_ok |}.

(** An absolute path written from its components. *)
Definition dir_of (comps : list str) : str := slash :: slashed comps.

(** A component of a normalised path: not empty, without a slash, and
    neither [.] nor [..]. *)
Definition component (c : str) : Prop :=
  c <> [] /\ slash_free c /\ c <> lit "." /\ c <> lit "..".

(** A regular file lies at the absolute path [p]. *)
Definition file_at (w : World) (p : str) : Prop :=
  exists text, fs_lookup p (fs w) = Some (File text).

(** The directory with the components [dir] holds both project files. *)
Definition project_at (w : World) (dir : list str) : Prop :=
  file_at w (dir_of (dir ++ [lit ".project"])) /\
  file_at w (dir_of (dir ++ [lit "pom.xml"])).

(** A working directory below the sample project. *)
Definition w_src : World :=
  {| cwd := lit "/work/proj/src"; fs := Fixtures.project |}.

(** A path of the tool's list as it can be read back: on one line and
    free of the separator. *)
Definition listable (p : str) : bool :=
  one_line p && negb (contains (lit ":") p).

Definition no_colon (c : char) : bool := negb (N.eqb 58 c).

(** The list [build_classpath] takes from the text of the tool's file. *)
Definition classpath_3rdparty (tmp : str) : list str :=
  sorted (splitlines (replace (lit ":") [10%N] tmp)).

(** Ascending order of paths as [PurePosixPath] compares them. *)
Definition path_order (p q : str) : Prop := path_ltb q p = false.



(** * Properties *)

(** ** Strings *)

Lemma str_eqb_eq (a b : str) : str_eqb a b = true <-> a = b.
Proof.
  revert b; induction a as [|x a IH]; intros [|y b]; simpl;
    try (split; intro; congruence).
  rewrite andb_true_iff, N.eqb_eq, IH. split.
  - intros [-> ->]; reflexivity.
  - intros H; inversion H; auto.
Qed.

Lemma str_eqb_refl (a : str) : str_eqb a a = true.
Proof. apply str_eqb_eq; reflexivity. Qed.

Lemma str_eqb_neq (a b : str) : str_eqb a b = false <-> a <> b.
Proof.
  rewrite <- str_eqb_eq. destruct (str_eqb a b); split; congruence.
Qed.

Lemma startswith_iff (p s : str) :
  startswith p s = true <-> exists t, s = p ++ t.
Proof.
  revert s; induction p as [|x p IH]; intros s; simpl.
  - split; eauto.
  - destruct s as [|y s].
    + split; [discriminate | intros [t H]; discriminate].
    + rewrite andb_true_iff, N.eqb_eq, IH. split.
      * intros [-> [t ->]]. exists t; reflexivity.
      * intros [t H]. inversion H; subst. eauto.
Qed.

Lemma contains_iff (p s : str) :
  contains p s = true <-> exists a b, s = a ++ p ++ b.
Proof.
  induction s as [|c s IH].
  - simpl. rewrite orb_false_r, startswith_iff. split.
    + intros [t H]. exists [], t. exact H.
    + intros [a [b H]]. destruct a; simpl in H.
      * eauto.
      * discriminate.
  - cbn [contains]. rewrite orb_true_iff, startswith_iff, IH. split.
    + intros [[t H] | [a [b H]]].
      * exists [], t. exact H.
      * exists (c :: a), b. rewrite H; reflexivity.
    + intros [[|x a] [b H]]; simpl in H.
      * left; eauto.
      * right. inversion H; subst. eauto.
Qed.

Lemma contains_app_r (p s t : str) :
  contains p s = true -> contains p (s ++ t) = true.
Proof.
  rewrite !contains_iff. intros [a [b ->]].
  exists a, (b ++ t). now rewrite <- !app_assoc.
Qed.


(** ** Pattern Filter *)

Lemma blacklist_loop_iff (patterns : list str) (s : str) :
  blacklist_loop patterns s = true <->
  exists pattern, In pattern patterns /\ contains pattern s = true.
Proof.
  induction patterns as [|p rest IH]; simpl.
  - split; [discriminate | intros [? [[] _]]].
  - destruct (contains p s) eqn:Hp.
    + split; auto. intros _. exists p; auto.
    + rewrite IH. split.
      * intros [q [Hin Hq]]. exists q; auto.
      * intros [q [[<- | Hin] Hq]]; [congruence | eauto].
Qed.


Lemma is_excluded_app_r (p t : str) :
  is_excluded p = true -> is_excluded (p ++ t) = true.
Proof.
  unfold is_excluded. rewrite !blacklist_loop_iff.
  intros [q [Hin Hq]]. exists q; split; auto using contains_app_r.
Qed.


(** C5.  The filter excludes a path exactly when one of the denylist
    entries occurs in its string form, compared code point by code point
    (so upper-case spellings do not match); any text appended to an
    excluded path leaves it excluded, and a path in which no entry occurs
    is not excluded. *)
Theorem C5_is_excluded_iff_substring :
  forall p : str,
    (is_excluded p = true <->
     exists pattern a b, In pattern PATH_BLACKLIST /\ p = a ++ pattern ++ b)
    /\ (forall suffix, is_excluded p = true ->
                       is_excluded (p ++ suffix) = true)
    /\ ((forall pattern a b,
            In pattern PATH_BLACKLIST -> p <> a ++ pattern ++ b) ->
        is_excluded p = false)
    /\ is_excluded (lit "/opt/ANT/Egit.jar") = false.
Proof.
  intros p.
  assert (Hiff : is_excluded p = true <->
     exists pattern a b, In pattern PATH_BLACKLIST /\ p = a ++ pattern ++ b).
  { unfold is_excluded. rewrite blacklist_loop_iff. split.
    - intros [q [Hin Hq]]. apply contains_iff in Hq.
      destruct Hq as [a [b ->]]. exists q, a, b; auto.
    - intros [q [a [b [Hin ->]]]]. exists q; split; auto.
      apply contains_iff; eauto. }
  split; [exact Hiff|]. split; [|split].
  - intros suffix. apply is_excluded_app_r.
  - intros Hno. apply not_true_is_false. intros He.
    apply Hiff in He. destruct He as [q [a [b [Hin Heq]]]].
    exact (Hno q a b Hin Heq).
  - reflexivity.
Qed.

(** ** Name patterns and globs *)

Lemma fnmatch_nil (s : str) : fnmatch [] s = true <-> s = [].
Proof. destruct s; simpl; split; congruence. Qed.

Lemma fnmatch_star (pat s : str) :
  fnmatch (42%N :: pat) s = true <->
  exists a b, s = a ++ b /\ fnmatch pat b = true.
Proof.
  change (fnmatch (42%N :: pat) s) with
    ((fix star (s : str) : bool :=
        fnmatch pat s ||
        match s with
        | [] => false
        | _ :: s' => star s'
        end) s).
  induction s as [|c s IH].
  - rewrite orb_false_r. split.
    + intros H. exists [], []. auto.
    + intros [a [b [Hab H]]]. symmetry in Hab.
      apply app_eq_nil in Hab. destruct Hab; subst. exact H.
  - rewrite orb_true_iff, IH. split.
    + intros [H | [a [b [-> H]]]].
      * exists [], (c :: s). auto.
      * exists (c :: a), b. auto.
    + intros [[|x a] [b [Hab H]]]; simpl in Hab.
      * left. now subst.
      * right. inversion Hab; subst. eauto.
Qed.

Lemma fnmatch_char (c : char) (pat s : str) :
  N.eqb c 42 = false ->
  fnmatch (c :: pat) s = true <->
  exists s', s = c :: s' /\ fnmatch pat s' = true.
Proof.
  intros Hc. cbn [fnmatch]. rewrite Hc. destruct s as [|d s].
  - split; [discriminate | intros [s' [H _]]; discriminate].
  - rewrite andb_true_iff, N.eqb_eq. split.
    + intros [-> H]. eauto.
    + intros [s' [H1 H2]]. inversion H1; subst. auto.
Qed.

Lemma fnmatch_literal (l pat s : str) :
  forallb (fun c => negb (N.eqb c 42)) l = true ->
  fnmatch (l ++ pat) s = true <->
  exists s', s = l ++ s' /\ fnmatch pat s' = true.
Proof.
  revert s. induction l as [|c l IH]; intros s Hl.
  - simpl. split; eauto. intros [s' [-> H]]. exact H.
  - cbn [forallb] in Hl. apply andb_true_iff in Hl. destruct Hl as [Hc Hl].
    apply negb_true_iff in Hc. cbn [app].
    rewrite (fnmatch_char c (l ++ pat) s Hc). split.
    + intros [s1 [-> H]]. apply IH in H; auto.
      destruct H as [s' [-> H]]. exists s'. auto.
    + intros [s' [-> H]]. exists (l ++ s'). split; auto.
      apply IH; eauto.
Qed.

Lemma fnmatch_jar (s : str) :
  fnmatch (lit "*.jar") s = true <-> exists stem, s = stem ++ lit ".jar".
Proof.
  change (lit "*.jar") with (42%N :: lit ".jar" ++ []).
  rewrite fnmatch_star. split.
  - intros [a [b [-> H]]]. apply fnmatch_literal in H; [|reflexivity].
    destruct H as [s' [-> H]]. apply fnmatch_nil in H. subst.
    rewrite app_nil_r. eauto.
  - intros [stem ->]. exists stem, (lit ".jar"). split; auto.
Qed.

Lemma fnmatch_source_jar (s : str) :
  fnmatch (lit "*.source_*.jar") s = true <->
  exists a b, s = a ++ lit ".source_" ++ b ++ lit ".jar".
Proof.
  change (lit "*.source_*.jar") with (42%N :: lit ".source_" ++ lit "*.jar").
  rewrite fnmatch_star. split.
  - intros [a [t [-> H]]]. apply fnmatch_literal in H; [|reflexivity].
    destruct H as [s' [-> H]]. apply fnmatch_jar in H.
    destruct H as [b ->]. eauto.
  - intros [a [b ->]]. exists a, (lit ".source_" ++ b ++ lit ".jar").
    split; auto. apply fnmatch_literal; [reflexivity|].
    exists (b ++ lit ".jar"). split; auto. apply fnmatch_jar. eauto.
Qed.

Lemma glob_match_dstar (pat comps : list str) :
  glob_match (lit "**" :: pat) comps = true <->
  exists pre rest, comps = pre ++ rest /\ glob_match pat rest = true.
Proof.
  change (glob_match (lit "**" :: pat) comps) with
    ((fix any (cs : list str) : bool :=
        glob_match pat cs ||
        match cs with
        | [] => false
        | _ :: cs' => any cs'
        end) comps).
  induction comps as [|c cs IH].
  - rewrite orb_false_r. split.
    + intros H. exists [], []. auto.
    + intros [a [b [Hab H]]]. symmetry in Hab.
      apply app_eq_nil in Hab. destruct Hab; subst. exact H.
  - rewrite orb_true_iff, IH. split.
    + intros [H | [a [b [-> H]]]].
      * exists [], (c :: cs). auto.
      * exists (c :: a), b. auto.
    + intros [[|x a] [b [Hab H]]]; simpl in Hab.
      * left. now subst.
      * right. inversion Hab; subst. eauto.
Qed.

Lemma glob_match_name (p : str) (pat comps : list str) :
  str_eqb p (lit "**") = false ->
  glob_match (p :: pat) comps = true <->
  exists c cs, comps = c :: cs /\ fnmatch p c = true /\
               glob_match pat cs = true.
Proof.
  intros Hp. cbn [glob_match]. rewrite Hp. destruct comps as [|c cs].
  - split; [discriminate | intros [c [cs [H _]]]; discriminate].
  - rewrite andb_true_iff. split.
    + intros [H1 H2]. eauto.
    + intros [c' [cs' [H [H1 H2]]]]. inversion H; subst. auto.
Qed.

Lemma glob_match_nil (comps : list str) :
  glob_match [] comps = true <-> comps = [].
Proof. destruct comps; simpl; split; congruence. Qed.

Lemma glob_In (w : World) (target pattern x : str) :
  In x (glob w target pattern) <->
  traversable w target = true /\
  exists key n rel,
    In (key, n) (fs w) /\
    strip_prefix (glob_prefix w target) key = Some rel /\
    glob_match (split_slash pattern) (split_slash rel) = true /\
    x = joinpath target rel.
Proof.
  unfold glob. destruct (traversable w target).
  2: { split; [intros [] | intros [Ht _]; discriminate Ht]. }
  rewrite in_flat_map. split.
  - intros [[key n] [Hin Hx]]. cbn [fst] in Hx. split; [reflexivity|].
    destruct (strip_prefix _ key) as [rel|] eqn:Hrel; [|contradiction].
    destruct (glob_match _ _) eqn:Hm; [|contradiction].
    destruct Hx as [<- | []]. exists key, n, rel. auto.
  - intros [_ [key [n [rel [Hin [Hrel [Hm ->]]]]]]].
    exists (key, n). split; auto. cbn [fst]. rewrite Hrel, Hm. now left.
Qed.

(** What one of the four subtree globs finds. *)
Lemma glob_subtree_jars (w : World) (target subtree pattern x : str) :
  split_slash pattern = [subtree; lit "**"; lit "*.jar"] ->
  str_eqb subtree (lit "**") = false ->
  forallb (fun c => negb (N.eqb c 42)) subtree = true ->
  In x (glob w target pattern) <-> found_under w target subtree x.
Proof.
  intros Hpat Hds Hlit. rewrite glob_In, Hpat. unfold found_under.
  assert (Hm : forall comps,
             glob_match [subtree; lit "**"; lit "*.jar"] comps = true <->
             exists dirs file,
               comps = subtree :: dirs ++ [file] /\
               exists stem, file = stem ++ lit ".jar").
  { intros comps. rewrite (glob_match_name subtree _ comps Hds). split.
    - intros [c [cs [-> [Hc Hrest]]]].
      rewrite <- (app_nil_r subtree) in Hc.
      apply fnmatch_literal in Hc; [|assumption].
      destruct Hc as [s' [-> Hs']]. apply fnmatch_nil in Hs'. subst s'.
      rewrite app_nil_r. apply glob_match_dstar in Hrest.
      destruct Hrest as [pre [rest [-> Hrest]]].
      apply glob_match_name in Hrest; [|reflexivity].
      destruct Hrest as [file [cs' [-> [Hfile Hnil]]]].
      apply glob_match_nil in Hnil. subst cs'.
      apply fnmatch_jar in Hfile. eauto.
    - intros [dirs [file [-> Hfile]]].
      exists subtree, (dirs ++ [file]). split; auto. split.
      + rewrite <- (app_nil_r subtree) at 1.
        apply fnmatch_literal; [assumption|]. exists []. split; auto.
        now rewrite app_nil_r.
      + apply glob_match_dstar. exists dirs, [file]. split; auto.
        apply glob_match_name; [reflexivity|].
        exists file, []. split; auto. split; auto.
        now apply fnmatch_jar. }
  split.
  - intros [Ht [key [n [rel [Hin [Hrel [Hg ->]]]]]]].
    apply Hm in Hg. destruct Hg as [dirs [file [Hs Hf]]].
    split; [exact Ht|]. exists key, n, rel, dirs, file. auto.
  - intros [Ht [key [n [rel [dirs [file [Hin [Hrel [Hs [Hf ->]]]]]]]]]].
    split; [exact Ht|]. exists key, n, rel. repeat split; auto.
    apply Hm. eauto.
Qed.

(** What the source-archive glob finds. *)
Lemma glob_source_jars (w : World) (target x : str) :
  In x (glob w target (lit "**/*.source_*.jar")) <-> found_source w target x.
Proof.
  rewrite glob_In. unfold found_source.
  change (split_slash (lit "**/*.source_*.jar"))
    with [lit "**"; lit "*.source_*.jar"].
  assert (Hm : forall comps,
             glob_match [lit "**"; lit "*.source_*.jar"] comps = true <->
             exists dirs file,
               comps = dirs ++ [file] /\
               exists a b, file = a ++ lit ".source_" ++ b ++ lit ".jar").
  { intros comps. rewrite glob_match_dstar. split.
    - intros [pre [rest [-> Hrest]]].
      apply glob_match_name in Hrest; [|reflexivity].
      destruct Hrest as [file [cs' [-> [Hfile Hnil]]]].
      apply glob_match_nil in Hnil. subst cs'.
      apply fnmatch_source_jar in Hfile. eauto.
    - intros [dirs [file [-> Hfile]]]. exists dirs, [file]. split; auto.
      apply glob_match_name; [reflexivity|].
      exists file, []. split; auto. split; auto.
      now apply fnmatch_source_jar. }
  split.
  - intros [Ht [key [n [rel [Hin [Hrel [Hg ->]]]]]]].
    apply Hm in Hg. destruct Hg as [dirs [file [Hs Hf]]].
    split; [exact Ht|]. exists key, n, rel, dirs, file. auto.
  - intros [Ht [key [n [rel [dirs [file [Hin [Hrel [Hs [Hf ->]]]]]]]]]].
    split; [exact Ht|]. exists key, n, rel. repeat split; auto.
    apply Hm. eauto.
Qed.

(** ** Sets and lists *)

Lemma mem_In (x : str) (l : list str) : mem x l = true <-> In x l.
Proof.
  unfold mem. rewrite existsb_exists. split.
  - intros [y [Hin Heq]]. apply str_eqb_eq in Heq. now subst.
  - intros Hin. exists x. split; auto using str_eqb_refl.
Qed.

Lemma mem_false (x : str) (l : list str) : mem x l = false <-> ~ In x l.
Proof.
  rewrite <- mem_In. destruct (mem x l); split; congruence.
Qed.

Lemma set_of_In (x : str) (l : list str) : In x (set_of l) <-> In x l.
Proof.
  induction l as [|y l IH]; simpl; [tauto|].
  destruct (mem y l) eqn:Hm.
  - rewrite IH. apply mem_In in Hm. split; [auto|].
    intros [<- | H]; auto.
  - simpl. rewrite IH. tauto.
Qed.

Lemma set_of_NoDup (l : list str) : NoDup (set_of l).
Proof.
  induction l as [|y l IH]; simpl; [constructor|].
  destruct (mem y l) eqn:Hm; auto.
  constructor; auto. rewrite set_of_In. now apply mem_false.
Qed.

Lemma set_difference_In (x : str) (a b : list str) :
  In x (set_difference a b) <-> In x a /\ ~ In x b.
Proof.
  unfold set_difference. rewrite filter_In, negb_true_iff, mem_false.
  tauto.
Qed.

Lemma list_remove_None (x : str) (l : list str) :
  list_remove x l = None <-> ~ In x l.
Proof.
  induction l as [|y l IH]; simpl; [tauto|].
  destruct (str_eqb y x) eqn:Heq.
  - apply str_eqb_eq in Heq. split; [discriminate | intros H; exfalso; auto].
  - apply str_eqb_neq in Heq. destruct (list_remove x l).
    + split; [discriminate|]. intros H. exfalso. apply H. right.
      destruct (in_dec (list_eq_dec N.eq_dec) x l) as [Hin|Hn]; auto.
      apply IH in Hn. discriminate.
    + split; auto. intros _ [H | H]; [auto|]. now apply IH.
Qed.

Lemma list_remove_Some_In (x : str) (l r : list str) :
  list_remove x l = Some r -> forall y, In y r -> In y l.
Proof.
  revert r; induction l as [|z l IH]; simpl; intros r H y Hy; [discriminate|].
  destruct (str_eqb z x).
  - inversion H; subst; auto.
  - destruct (list_remove x l) as [r'|]; [|discriminate].
    inversion H; subst. destruct Hy as [<- | Hy]; eauto.
Qed.

Lemma list_remove_Some_NoDup (x : str) (l r : list str) :
  NoDup l -> list_remove x l = Some r ->
  NoDup r /\ forall y, In y r <-> In y l /\ y <> x.
Proof.
  revert r; induction l as [|z l IH]; simpl; intros r Hnd H; [discriminate|].
  inversion Hnd as [|? ? Hz Hl]; subst.
  destruct (str_eqb z x) eqn:Heq.
  - apply str_eqb_eq in Heq. inversion H; subst. split; auto.
    intros y. split.
    + intros Hy. split; auto. intros ->. auto.
    + intros [[-> | Hy] Hne]; [congruence | auto].
  - apply str_eqb_neq in Heq.
    destruct (list_remove x l) as [r'|] eqn:Hr; [|discriminate].
    inversion H; subst. destruct (IH r' Hl eq_refl) as [Hnd' Hin'].
    split.
    + constructor; auto. rewrite Hin'. tauto.
    + intros y. simpl. rewrite Hin'. split.
      * intros [<- | [Hy Hne]]; auto.
      * intros [[<- | Hy] Hne]; auto.
Qed.

(** ** Sorting *)

Section SortingFacts.
Context {A : Type} (ltb : A -> A -> bool).

Lemma insert_sorted_perm (x : A) (l : list A) :
  Permutation (insert_sorted ltb x l) (x :: l).
Proof.
  induction l as [|y l IH]; simpl; auto.
  destruct (ltb y x); auto.
  rewrite IH. apply perm_swap.
Qed.

Lemma sorted_with_perm (l : list A) : Permutation (sorted_with ltb l) l.
Proof.
  induction l as [|x l IH]; simpl; auto.
  rewrite insert_sorted_perm. auto.
Qed.


Hypothesis ltb_asym : forall a b, ltb a b = true -> ltb b a = false.

Lemma insert_sorted_Sorted (x : A) (l : list A) :
  Sorted (fun a b => ltb b a = false) l ->
  Sorted (fun a b => ltb b a = false) (insert_sorted ltb x l).
Proof.
  induction l as [|y l IH]; simpl; intros Hs.
  - repeat constructor.
  - destruct (ltb y x) eqn:Hyx.
    + inversion Hs as [|? ? Hl Hhd]; subst. constructor; auto.
      destruct l as [|z l]; simpl.
      * constructor. auto.
      * destruct (ltb z x); constructor; auto.
        inversion Hhd; auto.
    + constructor; auto.
Qed.

Lemma sorted_with_Sorted (l : list A) :
  Sorted (fun a b => ltb b a = false) (sorted_with ltb l).
Proof.
  induction l as [|x l IH]; simpl.
  - constructor.
  - now apply insert_sorted_Sorted.
Qed.
End SortingFacts.

Lemma str_ltb_irrefl (a : str) : str_ltb a a = false.
Proof.
  induction a as [|x a IH]; simpl; auto.
  rewrite N.ltb_irrefl, N.eqb_refl, IH. reflexivity.
Qed.

Lemma str_ltb_asym (a b : str) : str_ltb a b = true -> str_ltb b a = false.
Proof.
  revert b; induction a as [|x a IH]; intros [|y b]; simpl; auto;
    try discriminate.
  rewrite orb_true_iff, andb_true_iff, N.ltb_lt, N.eqb_eq.
  intros [Hlt | [-> Hlt]].
  - apply orb_false_iff. split.
    + apply N.ltb_ge. lia.
    + replace (y =? x)%N with false; auto.
      symmetry. apply N.eqb_neq. lia.
  - rewrite N.ltb_irrefl, N.eqb_refl. simpl. auto.
Qed.

Lemma str_ltb_trans (a b c : str) :
  str_ltb a b = true -> str_ltb b c = true -> str_ltb a c = true.
Proof.
  revert b c; induction a as [|x a IH]; intros [|y b] [|z c]; simpl;
    try discriminate; auto.
  rewrite !orb_true_iff, !andb_true_iff, !N.ltb_lt, !N.eqb_eq.
  intros [H1 | [-> H1]] [H2 | [-> H2]]; try (left; lia).
  right. split; eauto.
Qed.

(** [str_ltb] is a strict total order: two strings that are not ordered
    either way are equal. *)
Lemma str_ltb_total (a b : str) :
  str_ltb a b = false -> str_ltb b a = false -> a = b.
Proof.
  revert b; induction a as [|x a IH]; intros [|y b]; simpl; auto;
    try discriminate.
  rewrite !orb_false_iff, !andb_false_iff, !N.ltb_ge, !N.eqb_neq.
  intros [H1 H1'] [H2 H2'].
  assert (x = y) by lia. subst.
  f_equal. apply IH; [destruct H1' | destruct H2']; congruence.
Qed.

Lemma str_le_iff (a b : str) : str_le a b <-> str_ltb a b = true \/ a = b.
Proof.
  unfold str_le. split.
  - intros H. destruct (str_ltb a b) eqn:Hab; auto.
    right. now apply str_ltb_total.
  - intros [H | ->]; [now apply str_ltb_asym | apply str_ltb_irrefl].
Qed.

Lemma str_le_trans (a b c : str) : str_le a b -> str_le b c -> str_le a c.
Proof.
  rewrite !str_le_iff. intros [H1 | ->] [H2 | ->]; auto.
  left. eapply str_ltb_trans; eauto.
Qed.

Lemma sorted_Sorted (l : list str) : StronglySorted str_le (sorted l).
Proof.
  apply Sorted_StronglySorted.
  - intros a b c. apply str_le_trans.
  - apply (sorted_with_Sorted str_ltb str_ltb_asym).
Qed.

Lemma sorted_perm (l : list str) : Permutation (sorted l) l.
Proof. apply sorted_with_perm. Qed.

(** ** The loops with and without refused attributes *)

Lemma E_classpathentry_lib (lib : str) (src : option str) :
  E_classpathentry (lit "lib") lib src None =
  if entry_ok (lib_entry lib src) then Ok (lib_entry lib src)
  else Raise ValueError.
Proof. reflexivity. Qed.

Lemma entry_ok_lib (lib : str) (src : option str) :
  entry_ok (lib_entry lib src) =
  xml_compatible lib && xml_compatible_opt src.
Proof.
  unfold entry_ok, lib_entry. cbn [kind path sourcepath including].
  change (xml_compatible (lit "lib")) with true.
  cbn [andb xml_compatible_opt]. now rewrite andb_true_r.
Qed.

Lemma forallb_perm {A : Type} (f : A -> bool) (l l' : list A) :
  Permutation l l' -> forallb f l = forallb f l'.
Proof.
  intros Hp. destruct (forallb f l) eqn:Hl; symmetry.
  - rewrite forallb_forall in *. intros x Hx. apply Hl.
    now apply (Permutation_in _ (Permutation_sym Hp)).
  - destruct (forallb f l') eqn:Hl'; auto. rewrite <- Hl. symmetry.
    rewrite forallb_forall in *. intros x Hx. apply Hl'.
    now apply (Permutation_in _ Hp).
Qed.

Lemma fold_reconcile_src_raise (w : World) (srcs : list str) (e : exn) :
  fold_left (reconcile_src w) srcs (Raise e) = Raise e.
Proof. induction srcs; simpl; auto. Qed.

Lemma fold_collect_lib_raise (w : World) (libs : list str) (e : exn) :
  fold_left (collect_lib w) libs (Raise e) = Raise e.
Proof. induction libs; simpl; auto. Qed.

Lemma planned_src_keeps (w : World) (srcs : list str)
  (st : list str * list classpathentry) :
  exists more, snd (fold_left (planned_src w) srcs st) = snd st ++ more.
Proof.
  revert st. induction srcs as [|s srcs IH]; intros [libs tcs].
  - exists []. cbn. now rewrite app_nil_r.
  - cbn [fold_left]. destruct (IH (planned_src w (libs, tcs) s)) as [more ->].
    unfold planned_src. destruct (blacklist_loop PATH_BLACKLIST s).
    + now exists more.
    + destruct (is_file w (sibling s) && is_file w s).
      * cbn [snd]. rewrite <- app_assoc. eauto.
      * now exists more.
Qed.

Lemma planned_lib_keeps (w : World) (libs : list str)
  (tcs : list classpathentry) :
  exists more, fold_left (planned_lib w) libs tcs = tcs ++ more.
Proof.
  revert tcs. induction libs as [|l libs IH]; intros tcs.
  - exists []. cbn. now rewrite app_nil_r.
  - cbn [fold_left]. destruct (IH (planned_lib w tcs l)) as [more ->].
    unfold planned_lib. destruct (blacklist_loop PATH_BLACKLIST l).
    + now exists more.
    + destruct (is_file w l).
      * rewrite <- app_assoc. eauto.
      * now exists more.
Qed.

(** The first loop raises exactly when one of the entries it would build
    is refused. *)
Lemma fold_reconcile_src (w : World) (srcs : list str)
  (st : list str * list classpathentry) :
  forallb entry_ok (snd st) = true ->
  fold_left (reconcile_src w) srcs (Ok st) =
  if forallb entry_ok (snd (fold_left (planned_src w) srcs st))
  then Ok (fold_left (planned_src w) srcs st)
  else Raise ValueError.
Proof.
  revert st. induction srcs as [|s srcs IH]; intros [libs tcs] Hok.
  - cbn [fold_left]. now rewrite Hok.
  - cbn [fold_left]. cbn [snd] in Hok.
    unfold reconcile_src at 2, planned_src at 2 4.
    cbn [rbind]. destruct (blacklist_loop PATH_BLACKLIST s).
    + now apply IH.
    + destruct (is_file w (sibling s) && is_file w s).
      * rewrite E_classpathentry_lib.
        destruct (entry_ok (lib_entry (sibling s) (Some s))) eqn:He.
        -- cbn [rbind]. apply IH. cbn [snd].
           rewrite forallb_app, Hok. cbn. now rewrite He.
        -- cbn [rbind]. rewrite fold_reconcile_src_raise.
           match goal with
           | |- context [fold_left (planned_src w) srcs ?st0] =>
               destruct (planned_src_keeps w srcs st0) as [more Hm]
           end.
           rewrite Hm. cbn [snd]. rewrite !forallb_app. cbn [forallb].
           rewrite He. cbn [andb]. now rewrite andb_false_r.
      * now apply IH.
Qed.

Lemma fold_collect_lib_bridge (w : World) (libs : list str)
  (tcs : list classpathentry) :
  forallb entry_ok tcs = true ->
  fold_left (collect_lib w) libs (Ok tcs) =
  if forallb entry_ok (fold_left (planned_lib w) libs tcs)
  then Ok (fold_left (planned_lib w) libs tcs)
  else Raise ValueError.
Proof.
  revert tcs. induction libs as [|l libs IH]; intros tcs Hok.
  - cbn [fold_left]. now rewrite Hok.
  - cbn [fold_left]. unfold collect_lib at 2, planned_lib at 2 4.
    cbn [rbind]. destruct (blacklist_loop PATH_BLACKLIST l).
    + now apply IH.
    + destruct (is_file w l).
      * rewrite E_classpathentry_lib.
        destruct (entry_ok (lib_entry l None)) eqn:He.
        -- cbn [rbind]. apply IH. rewrite forallb_app, Hok. cbn.
           now rewrite He.
        -- cbn [rbind]. rewrite fold_collect_lib_raise.
           match goal with
           | |- context [fold_left (planned_lib w) libs ?t0] =>
               destruct (planned_lib_keeps w libs t0) as [more Hm]
           end.
           rewrite Hm, !forallb_app. cbn [forallb]. rewrite He.
           cbn [andb]. now rewrite andb_false_r.
      * now apply IH.
Qed.

(** [reconcile] returns the planned list when every entry of it is
    accepted, and raises [ValueError] otherwise. *)
Lemma reconcile_planned (w : World) (srcs libs : list str) :
  reconcile w srcs libs =
  if forallb entry_ok (planned w srcs libs) then Ok (planned w srcs libs)
  else Raise ValueError.
Proof.
  unfold reconcile, planned.
  rewrite (fold_reconcile_src w srcs (libs, [])) by reflexivity.
  destruct (fold_left (planned_src w) srcs (libs, [])) as [libs' tcs] eqn:Hf.
  cbn [snd].
  rewrite (forallb_perm entry_ok _ _ (sorted_with_perm path_key_ltb _)).
  destruct (forallb entry_ok tcs) eqn:Ht.
  - cbn [rbind]. rewrite (fold_collect_lib_bridge w libs' tcs Ht).
    destruct (forallb entry_ok (fold_left (planned_lib w) libs' tcs));
      reflexivity.
  - cbn [rbind]. destruct (planned_lib_keeps w libs' tcs) as [more ->].
    now rewrite forallb_app, Ht.
Qed.

Lemma collect_planned (env : Env) (w : World) (target_path : str) :
  _collect_target_platform_plugins env w target_path =
  (libs <~ scan_libs env w target_path ;;
   let es :=
     planned w (set_order env (scan_sources w target_path)) libs in
   if forallb entry_ok es then Ok es else Raise ValueError)%py.
Proof.
  unfold _collect_target_platform_plugins.
  destruct (scan_libs env w target_path) as [libs|e]; [|reflexivity].
  cbn [rbind]. apply reconcile_planned.
Qed.

(** ** Source/Binary Reconciler *)

Lemma reconcile_src_excluded (w : World) st (src : str) :
  is_excluded src = true -> planned_src w st src = st.
Proof.
  unfold planned_src, is_excluded. destruct st as [libs acc].
  intros ->. reflexivity.
Qed.

Lemma reconcile_src_passing (w : World) libs acc (src : str) :
  is_excluded src = false ->
  planned_src w (libs, acc) src =
  (match list_remove (sibling src) libs with
   | Some libs' => libs'
   | None => libs
   end,
   if is_file w (sibling src) && is_file w src
   then acc ++ [lib_entry (sibling src) (Some src)] else acc).
Proof.
  unfold planned_src, is_excluded. intros ->.
  destruct (is_file w (sibling src) && is_file w src); reflexivity.
Qed.

Lemma fold_reconcile_src_acc (w : World) (srcs libs : list str) acc :
  snd (fold_left (planned_src w) srcs (libs, acc)) =
  acc ++ paired_entries w srcs.
Proof.
  revert libs acc. induction srcs as [|s srcs IH]; intros libs acc.
  - simpl. now rewrite app_nil_r.
  - cbn [fold_left]. unfold paired_entries, passing. cbn [filter].
    destruct (is_excluded s) eqn:Hs.
    + rewrite reconcile_src_excluded by assumption. apply IH.
    + rewrite reconcile_src_passing by assumption. cbn [negb]. cbn [filter].
      destruct (is_file w (sibling s) && is_file w s).
      * rewrite IH. simpl. now rewrite <- app_assoc.
      * apply IH.
Qed.

Lemma fold_reconcile_src_libs (w : World) (srcs libs : list str) acc :
  let libs' := fst (fold_left (planned_src w) srcs (libs, acc)) in
  (forall x, In x libs' -> In x libs) /\
  (NoDup libs ->
   NoDup libs' /\
   forall x, In x libs' <-> In x libs /\ ~ In x (map sibling (passing srcs))).
Proof.
  revert libs acc. induction srcs as [|s srcs IH]; intros libs acc.
  - simpl. split; auto. intros Hnd. split; auto. intros x. tauto.
  - cbn [fold_left]. unfold passing. cbn [filter].
    destruct (is_excluded s) eqn:Hs.
    + rewrite reconcile_src_excluded by assumption. apply IH.
    + rewrite reconcile_src_passing by assumption. cbn [negb]. cbv iota.
      set (acc' := if is_file w (sibling s) && is_file w s
                   then acc ++ [lib_entry (sibling s) (Some s)] else acc).
      destruct (list_remove (sibling s) libs) as [r|] eqn:Hr.
      * destruct (IH r acc') as [Hsub Hnd]. split.
        -- intros x Hx. eapply list_remove_Some_In; eauto.
        -- intros Hl. destruct (list_remove_Some_NoDup _ _ _ Hl Hr) as [Hr1 Hr2].
           destruct (Hnd Hr1) as [Hn1 Hn2]. split; auto.
           intros x. rewrite Hn2, Hr2. simpl. fold (passing srcs).
           split; [intros [[? ?] ?] | intros [? ?]]; intuition congruence.
      * destruct (IH libs acc') as [Hsub Hnd]. split; auto.
        intros Hl. destruct (Hnd Hl) as [Hn1 Hn2]. split; auto.
        intros x. rewrite Hn2. simpl. fold (passing srcs).
        apply list_remove_None in Hr.
        split; [intros [? ?] | intros [? ?]]; intuition congruence.
Qed.

Lemma fold_collect_lib (w : World) (libs : list str) acc :
  fold_left (planned_lib w) libs acc = acc ++ unpaired_entries w libs.
Proof.
  revert acc. induction libs as [|l libs IH]; intros acc.
  - simpl. now rewrite app_nil_r.
  - cbn [fold_left]. rewrite IH. unfold unpaired_entries, planned_lib.
    cbn [filter]. fold (is_excluded l).
    destruct (is_excluded l); simpl; auto.
    destruct (is_file w l); simpl; auto.
    now rewrite <- app_assoc.
Qed.

(** The binaries left over once every source archive has had its turn. *)
Lemma reconcile_perm (w : World) (srcs libs : list str) :
  Permutation (planned w srcs libs)
    (paired_entries w srcs
     ++ unpaired_entries w
          (fst (fold_left (planned_src w) srcs (libs, [])))).
Proof.
  unfold planned.
  pose proof (fold_reconcile_src_acc w srcs libs []) as Hacc.
  destruct (fold_left (planned_src w) srcs (libs, [])) as [libs' acc].
  simpl in *. subst acc. rewrite sorted_with_perm, fold_collect_lib.
  reflexivity.
Qed.

(** ** Artifact Scanner *)

Lemma compute_jar_name_readable (env : Env) (w : World) (pom : xml_doc) :
  _read_xml_file env w (lit "pom.xml") = Ok pom ->
  compute_jar_name env w = Ok (jar_name_of pom).
Proof. unfold compute_jar_name. intros ->. reflexivity. Qed.

Lemma drop_own_jar_Ok (env : Env) (w : World) (jar_name : str) (libs : list str) :
  compute_jar_name env w = Ok jar_name ->
  drop_own_jar env w libs =
  Ok (filter (fun lst => negb (str_eqb (name lst) jar_name)) libs).
Proof.
  intros Hj. induction libs as [|lst rest IH]; simpl; auto.
  rewrite Hj, IH. simpl. reflexivity.
Qed.

Lemma drop_own_jar_inv (env : Env) (w : World) (libs kept : list str) :
  drop_own_jar env w libs = Ok kept ->
  (forall x, In x kept -> In x libs) /\ (NoDup libs -> NoDup kept).
Proof.
  destruct libs as [|lst rest].
  - simpl. intros H; inversion H; subst. auto.
  - destruct (compute_jar_name env w) as [jar_name|e] eqn:Hj.
    + rewrite (drop_own_jar_Ok env w jar_name) by assumption.
      intros [= <-]. split.
      * intros x Hx.
        apply (filter_In (fun l => negb (str_eqb (name l) jar_name)) x
                 (lst :: rest)) in Hx. tauto.
      * intros Hnd.
        exact (NoDup_filter (fun l => negb (str_eqb (name l) jar_name)) Hnd).
    + simpl. rewrite Hj. simpl. discriminate.
Qed.

Lemma scan_sources_NoDup (w : World) (target_path : str) :
  NoDup (scan_sources w target_path).
Proof. apply set_of_NoDup. Qed.

Lemma set_order_In (env : Env) (l : list str) (x : str) :
  faithful_order env -> (In x (set_order env l) <-> In x l).
Proof.
  intros HE. split; apply Permutation_in; [apply HE | symmetry; apply HE].
Qed.

Lemma set_order_NoDup (env : Env) (l : list str) :
  faithful_order env -> NoDup l -> NoDup (set_order env l).
Proof.
  intros HE Hl. eapply Permutation_NoDup; [symmetry; apply HE | exact Hl].
Qed.

Lemma scan_libs_inv (env : Env) (w : World) (target_path : str)
  (libs : list str) :
  faithful_order env ->
  scan_libs env w target_path = Ok libs ->
  NoDup libs /\
  forall x, In x libs ->
            In x (scan_jars w target_path) /\
            ~ In x (scan_sources w target_path).
Proof.
  intros HE H. unfold scan_libs in H.
  apply drop_own_jar_inv in H. destruct H as [Hsub Hnd]. split.
  - apply Hnd. apply set_order_NoDup; auto.
    apply NoDup_filter, set_of_NoDup.
  - intros x Hx. apply Hsub in Hx.
    rewrite set_order_In, set_difference_In, set_of_In in Hx by assumption.
    exact Hx.
Qed.

Lemma scan_libs_total (env : Env) (w : World) (target_path : str)
  (pom : xml_doc) :
  _read_xml_file env w (lit "pom.xml") = Ok pom ->
  exists libs, scan_libs env w target_path = Ok libs.
Proof.
  intros Hpom. unfold scan_libs.
  rewrite (drop_own_jar_Ok env w _ _ (compute_jar_name_readable env w pom Hpom)).
  eauto.
Qed.

(** The binaries list, member by member, in terms of the globs. *)
Lemma scan_libs_found :
  forall (env : Env) (w : World) (target_path : str) (pom : xml_doc),
    faithful_order env ->
    _read_xml_file env w (lit "pom.xml") = Ok pom ->
    exists libs,
      scan_libs env w target_path = Ok libs /\
      NoDup libs /\
      (forall x,
          In x libs <->
          (found_under w target_path (lit "dropins") x \/
           found_under w target_path (lit "features") x \/
           found_under w target_path (lit "jre") x \/
           found_under w target_path (lit "plugins") x) /\
          ~ found_source w target_path x /\
          name x <>
          first_text (groupId pom) ++ lit "." ++ first_text (artifactId pom)
          ++ lit "_" ++ first_text (version pom) ++ lit ".jar") /\
      (forall x, In x libs -> name x <> jar_name_of pom).
Proof.
  intros env w target_path pom HE Hpom.
  pose proof (compute_jar_name_readable env w pom Hpom) as Hj.
  unfold scan_libs. rewrite (drop_own_jar_Ok env w _ _ Hj).
  eexists. split; [reflexivity|].
  assert (Hin : forall x,
    In x (filter (fun lst => negb (str_eqb (name lst) (jar_name_of pom)))
            (set_order env
               (set_difference (set_of (scan_jars w target_path))
                  (scan_sources w target_path)))) <->
    In x (scan_jars w target_path) /\
    ~ In x (glob w target_path (lit "**/*.source_*.jar")) /\
    name x <> jar_name_of pom).
  { intros x. rewrite filter_In, set_order_In, set_difference_In by assumption.
    unfold scan_sources. rewrite !set_of_In, negb_true_iff, str_eqb_neq.
    tauto. }
  split; [|split].
  - apply NoDup_filter, set_order_NoDup; auto.
    apply NoDup_filter, set_of_NoDup.
  - intros x. rewrite Hin. unfold scan_jars. rewrite !in_app_iff.
    rewrite (glob_subtree_jars w target_path (lit "dropins"))
      by reflexivity.
    rewrite (glob_subtree_jars w target_path (lit "features"))
      by reflexivity.
    rewrite (glob_subtree_jars w target_path (lit "jre")) by reflexivity.
    rewrite (glob_subtree_jars w target_path (lit "plugins"))
      by reflexivity.
    rewrite glob_source_jars. unfold jar_name_of. tauto.
  - intros x Hx. apply Hin in Hx. tauto.
Qed.
Lemma collect_reconcile (env : Env) (w : World) (target_path : str)
  (libs : list str) :
  scan_libs env w target_path = Ok libs ->
  _collect_target_platform_plugins env w target_path =
  let es := planned w (set_order env (scan_sources w target_path)) libs in
  if forallb entry_ok es then Ok es else Raise ValueError.
Proof. rewrite collect_planned. intros ->. reflexivity. Qed.

Lemma collect_accepted (env : Env) (w : World) (target_path : str)
  (libs : list str) :
  scan_libs env w target_path = Ok libs ->
  forallb entry_ok
    (planned w (set_order env (scan_sources w target_path)) libs) = true ->
  _collect_target_platform_plugins env w target_path =
  Ok (planned w (set_order env (scan_sources w target_path)) libs).
Proof.
  intros Hs Hok. rewrite (collect_reconcile env w _ libs Hs). cbv zeta.
  now rewrite Hok.
Qed.

Lemma collect_Ok_inv (env : Env) (w : World) (target_path : str)
  (es : list classpathentry) :
  _collect_target_platform_plugins env w target_path = Ok es ->
  exists libs,
    scan_libs env w target_path = Ok libs /\
    es = planned w (set_order env (scan_sources w target_path)) libs /\
    forallb entry_ok es = true.
Proof.
  rewrite collect_planned.
  destruct (scan_libs env w target_path) as [libs|e]; [|discriminate].
  cbn [rbind]. cbv zeta.
  destruct (forallb entry_ok _) eqn:Hok; [|discriminate].
  intros [= <-]. eauto.
Qed.

(** ** An excluded installation root *)

Lemma glob_In_joinpath (w : World) (target pattern x : str) :
  In x (glob w target pattern) -> exists rel, x = joinpath target rel.
Proof.
  unfold glob. destruct (traversable w target); [|intros []].
  rewrite in_flat_map. intros [[key n] [_ Hx]].
  destruct (strip_prefix _ _) as [rel|]; [|contradiction].
  destruct (glob_match _ _); [|contradiction].
  destruct Hx as [<- | []]. eauto.
Qed.

Lemma joinpath_excluded (target rel : str) :
  is_excluded target = true -> is_excluded (joinpath target rel) = true.
Proof.
  intros Ht. unfold joinpath.
  destruct (str_eqb target dot) eqn:Hdot.
  - apply str_eqb_eq in Hdot. subst. discriminate.
  - destruct (endswith [slash] target); now apply is_excluded_app_r.
Qed.

Lemma paired_entries_all_excluded (w : World) (srcs : list str) :
  (forall s, In s srcs -> is_excluded s = true) ->
  paired_entries w srcs = [].
Proof.
  intros H. unfold paired_entries, passing.
  induction srcs as [|s srcs IH]; simpl; auto.
  rewrite (H s) by (left; reflexivity). simpl.
  apply IH. intros; apply H; right; assumption.
Qed.

Lemma unpaired_entries_all_excluded (w : World) (libs : list str) :
  (forall l, In l libs -> is_excluded l = true) ->
  unpaired_entries w libs = [].
Proof.
  intros H. unfold unpaired_entries.
  induction libs as [|l libs IH]; simpl; auto.
  rewrite (H l) by (left; reflexivity). simpl.
  apply IH. intros; apply H; right; assumption.
Qed.

Lemma reconcile_all_excluded (w : World) (srcs libs : list str) :
  (forall s, In s srcs -> is_excluded s = true) ->
  (forall l, In l libs -> is_excluded l = true) ->
  planned w srcs libs = [].
Proof.
  intros Hs Hl. apply Permutation_nil. symmetry.
  rewrite reconcile_perm, paired_entries_all_excluded by assumption.
  rewrite unpaired_entries_all_excluded; auto.
  intros l Hin. apply Hl.
  now apply (proj1 (fold_reconcile_src_libs w srcs libs [])).
Qed.

(** C10.  The filter sees the whole path string, installation root
    included: when the root's own path contains a denylist entry, every
    path the scan finds is excluded, so the reconciler returns the empty
    list whenever it returns, and it does return when the build
    descriptor is readable. *)
Theorem C10_excluded_root :
  forall (env : Env) (w : World) (target_path : str),
    faithful_order env ->
    is_excluded target_path = true ->
    (forall x,
        In x (scan_sources w target_path) \/ In x (scan_jars w target_path) ->
        is_excluded x = true) /\
    (forall es,
        _collect_target_platform_plugins env w target_path = Ok es -> es = []) /\
    (forall pom,
        _read_xml_file env w (lit "pom.xml") = Ok pom ->
        _collect_target_platform_plugins env w target_path = Ok []).
Proof.
  intros env w target_path HE Ht.
  assert (Hglob : forall pattern x,
             In x (glob w target_path pattern) -> is_excluded x = true).
  { intros pattern x Hx. apply glob_In_joinpath in Hx.
    destruct Hx as [rel ->]. now apply joinpath_excluded. }
  assert (Hall : forall x,
             In x (scan_sources w target_path) \/
             In x (scan_jars w target_path) -> is_excluded x = true).
  { intros x [Hx | Hx].
    - unfold scan_sources in Hx. rewrite set_of_In in Hx. eauto.
    - unfold scan_jars in Hx. rewrite !in_app_iff in Hx.
      destruct Hx as [Hx | [Hx | [Hx | Hx]]]; eauto. }
  assert (Hrec : forall libs,
             scan_libs env w target_path = Ok libs ->
             _collect_target_platform_plugins env w target_path = Ok []).
  { intros libs Hlibs. rewrite (collect_reconcile env w _ libs Hlibs).
    cbv zeta. rewrite reconcile_all_excluded; [reflexivity| |].
    - intros s Hs. rewrite set_order_In in Hs by assumption. auto.
    - intros l Hl. apply (scan_libs_inv env w _ libs HE Hlibs) in Hl.
      apply Hall. tauto. }
  split; [exact Hall|]. split.
  - intros es Hes.
    destruct (scan_libs env w target_path) as [libs|e] eqn:Hlibs.
    + rewrite (Hrec libs eq_refl) in Hes. congruence.
    + unfold _collect_target_platform_plugins in Hes.
      rewrite Hlibs in Hes. discriminate.
  - intros pom Hpom.
    destruct (scan_libs_total env w target_path pom Hpom) as [libs Hlibs].
    eauto.
Qed.

Lemma C10_excluded_root_witness :
  is_excluded (lit "/opt/elephant") = true /\
  _collect_target_platform_plugins Fixtures.E_ok Fixtures.w_elephant
    (lit "/opt/elephant") = Ok [].
Proof.
  split; [reflexivity|].
  refine (proj2 (proj2 (C10_excluded_root Fixtures.E_ok Fixtures.w_elephant
                          (lit "/opt/elephant") _ _)) Fixtures.pom_doc _).
  - intros l. apply Permutation_refl.
  - reflexivity.
  - reflexivity.
Defined.

(** ** Pairing *)

Lemma Permutation_filter {A : Type} (f : A -> bool) (l l' : list A) :
  Permutation l l' -> Permutation (filter f l) (filter f l').
Proof.
  induction 1 as [|x l l' _ IH|x y l|l l' l'' _ IH1 _ IH2]; simpl.
  - constructor.
  - destruct (f x); auto.
  - destruct (f x), (f y); auto using perm_swap.
  - etransitivity; eauto.
Qed.

Lemma filter_eqb_NoDup (s : str) (l : list str) :
  NoDup l -> In s l -> filter (fun x => str_eqb x s) l = [s].
Proof.
  induction l as [|y l IH]; simpl; intros Hnd Hin; [contradiction|].
  inversion Hnd as [|? ? Hy Hl]; subst.
  destruct (str_eqb y s) eqn:Heq.
  - apply str_eqb_eq in Heq. subst. f_equal.
    clear IH Hin Hnd Hl. induction l as [|z l IH]; simpl; auto.
    destruct (str_eqb z s) eqn:Hz.
    + apply str_eqb_eq in Hz. subst. exfalso. apply Hy. now left.
    + apply IH. intros H. apply Hy. now right.
  - apply str_eqb_neq in Heq. destruct Hin as [-> | Hin]; [congruence|].
    auto.
Qed.

Lemma filter_eqb_absent (s : str) (l : list str) :
  ~ In s l -> filter (fun x => str_eqb x s) l = [].
Proof.
  induction l as [|y l IH]; simpl; intros Hn; auto.
  destruct (str_eqb y s) eqn:Heq.
  - apply str_eqb_eq in Heq. subst. exfalso. apply Hn. now left.
  - apply IH. intros H. apply Hn. now right.
Qed.

Lemma has_source_paired (w : World) (s : str) (srcs : list str) :
  filter (has_source s) (paired_entries w srcs) =
  map (fun x => lib_entry (sibling x) (Some x))
    (filter (fun x => str_eqb x s)
       (filter (fun x => is_file w (sibling x) && is_file w x)
          (passing srcs))).
Proof.
  unfold paired_entries.
  induction (filter _ (passing srcs)) as [|x l IH]; simpl; auto.
  unfold has_source at 1. simpl.
  destruct (str_eqb x s); simpl; now rewrite IH.
Qed.

Lemma has_source_unpaired (w : World) (s : str) (libs : list str) :
  filter (has_source s) (unpaired_entries w libs) = [].
Proof.
  unfold unpaired_entries.
  induction (filter _ libs) as [|x l IH]; simpl; auto.
Qed.

(** The entries that name [s] as their source, in the whole output. *)
Lemma has_source_reconcile (w : World) (s : str) (srcs libs : list str) :
  NoDup srcs -> In s srcs -> is_excluded s = false ->
  filter (has_source s) (planned w srcs libs) =
  if is_file w (sibling s) && is_file w s
  then [lib_entry (sibling s) (Some s)] else [].
Proof.
  intros Hnd Hin Hs.
  assert (Hp : Permutation (filter (has_source s) (planned w srcs libs))
                 (if is_file w (sibling s) && is_file w s
                  then [lib_entry (sibling s) (Some s)] else [])).
  { rewrite (Permutation_filter _ _ _ (reconcile_perm w srcs libs)).
    rewrite filter_app, has_source_paired, has_source_unpaired, app_nil_r.
    destruct (is_file w (sibling s) && is_file w s) eqn:Hf.
    - rewrite filter_eqb_NoDup; [reflexivity | |].
      + unfold passing. now repeat apply NoDup_filter.
      + unfold passing. rewrite !filter_In, Hs, Hf. auto.
    - rewrite filter_eqb_absent; [reflexivity|].
      rewrite filter_In, Hf. intros [_ H]. discriminate. }
  destruct (is_file w (sibling s) && is_file w s).
  - symmetry in Hp. now apply Permutation_length_1_inv in Hp.
  - symmetry in Hp. now apply Permutation_nil in Hp.
Qed.

(** ** Entries of the two loops *)

Lemma In_paired_entries (w : World) (srcs : list str) (e : classpathentry) :
  In e (paired_entries w srcs) <->
  exists s, In s srcs /\ is_excluded s = false /\
            is_file w (sibling s) && is_file w s = true /\
            e = lib_entry (sibling s) (Some s).
Proof.
  unfold paired_entries, passing. rewrite in_map_iff. split.
  - intros [s [<- Hs]]. rewrite !filter_In, negb_true_iff in Hs.
    exists s. tauto.
  - intros [s [Hin [Hex [Hf ->]]]]. exists s. split; auto.
    rewrite !filter_In, negb_true_iff. tauto.
Qed.

Lemma In_unpaired_entries (w : World) (libs : list str) (e : classpathentry) :
  In e (unpaired_entries w libs) <->
  exists l, In l libs /\ is_excluded l = false /\ is_file w l = true /\
            e = lib_entry l None.
Proof.
  unfold unpaired_entries. rewrite in_map_iff. split.
  - intros [l [<- Hl]].
    rewrite filter_In, andb_true_iff, negb_true_iff in Hl.
    exists l. tauto.
  - intros [l [Hin [Hex [Hf ->]]]]. exists l. split; auto.
    rewrite filter_In, andb_true_iff, negb_true_iff. tauto.
Qed.

Lemma paired_entries_NoDup (w : World) (srcs : list str) :
  NoDup srcs -> NoDup (paired_entries w srcs).
Proof.
  intros Hnd. unfold paired_entries, passing.
  apply Finite.Injective_map_NoDup_in.
  - intros x y _ _ H. now inversion H.
  - now repeat apply NoDup_filter.
Qed.

Lemma unpaired_entries_NoDup (w : World) (libs : list str) :
  NoDup libs -> NoDup (unpaired_entries w libs).
Proof.
  intros Hnd. unfold unpaired_entries.
  apply Finite.Injective_map_NoDup_in.
  - intros x y _ _ H. now inversion H.
  - now apply NoDup_filter.
Qed.

(** What the output of the reconciler consists of. *)
Lemma reconcile_entries (w : World) (srcs libs : list str) :
  NoDup srcs -> NoDup libs ->
  NoDup (planned w srcs libs) /\
  forall e,
    In e (planned w srcs libs) ->
    (exists s, In s srcs /\ is_excluded s = false /\
               e = lib_entry (sibling s) (Some s)) \/
    (exists l, In l libs /\ ~ In l (map sibling (passing srcs)) /\
               e = lib_entry l None).
Proof.
  intros Hs Hl.
  pose proof (reconcile_perm w srcs libs) as Hp.
  destruct (fold_reconcile_src_libs w srcs libs []) as [_ Hrem].
  destruct (Hrem Hl) as [Hnd Hin]. clear Hrem.
  set (rest := fst (fold_left (planned_src w) srcs (libs, []))) in *.
  split.
  - eapply Permutation_NoDup; [symmetry; exact Hp|].
    apply NoDup_app.
    + now apply paired_entries_NoDup.
    + now apply unpaired_entries_NoDup.
    + intros e H1 H2. apply In_paired_entries in H1.
      apply In_unpaired_entries in H2.
      destruct H1 as [s [_ [_ [_ ->]]]]. destruct H2 as [l [_ [_ [_ H]]]].
      discriminate.
  - intros e He. apply (Permutation_in _ Hp) in He.
    apply in_app_iff in He. destruct He as [He | He].
    + left. apply In_paired_entries in He.
      destruct He as [s [? [? [_ ?]]]]. eauto.
    + right. apply In_unpaired_entries in He.
      destruct He as [l [Hl' [_ [_ ->]]]]. apply Hin in Hl'.
      exists l. tauto.
Qed.

(** ** The reconciler's output as a whole *)

Lemma path_key_ltb_asym (a b : classpathentry) :
  path_key_ltb a b = true -> path_key_ltb b a = false.
Proof. unfold path_key_ltb. apply str_ltb_asym. Qed.

Lemma reconcile_sorted (w : World) (srcs libs : list str) :
  StronglySorted path_le (planned w srcs libs).
Proof.
  apply Sorted_StronglySorted.
  - intros a b c. unfold path_le. apply str_le_trans.
  - unfold planned.
    destruct (fold_left (planned_src w) srcs (libs, [])) as [l acc].
    apply (sorted_with_Sorted path_key_ltb path_key_ltb_asym).
Qed.

Lemma reconcile_In (w : World) (srcs libs : list str) (e : classpathentry) :
  NoDup libs ->
  In e (planned w srcs libs) <->
  (exists s, In s srcs /\ is_excluded s = false /\
             is_file w (sibling s) = true /\ is_file w s = true /\
             e = lib_entry (sibling s) (Some s)) \/
  (exists l, In l libs /\ is_excluded l = false /\ is_file w l = true /\
             (forall s, In s srcs -> is_excluded s = false ->
                        sibling s <> l) /\
             e = lib_entry l None).
Proof.
  intros Hl.
  destruct (fold_reconcile_src_libs w srcs libs []) as [_ Hrem].
  destruct (Hrem Hl) as [_ Hin]. clear Hrem.
  assert (Hsib : forall l,
             ~ In l (map sibling (passing srcs)) <->
             (forall s, In s srcs -> is_excluded s = false -> sibling s <> l)).
  { intros l. unfold passing. rewrite in_map_iff. split.
    - intros H s Hs Hex Heq. apply H. exists s. split; auto.
      rewrite filter_In, Hex. auto.
    - intros H [s [Heq Hs]]. rewrite filter_In, negb_true_iff in Hs.
      destruct Hs as [Hs Hex]. exact (H s Hs Hex Heq). }
  split.
  - intros He. apply (Permutation_in _ (reconcile_perm w srcs libs)) in He.
    apply in_app_iff in He. destruct He as [He | He].
    + left. apply In_paired_entries in He.
      destruct He as [s [Hs [Hex [Hf ->]]]]. apply andb_true_iff in Hf.
      exists s. tauto.
    + right. apply In_unpaired_entries in He.
      destruct He as [l [Hl' [Hex [Hf ->]]]]. apply Hin in Hl'.
      exists l. rewrite <- Hsib. tauto.
  - intros He.
    apply (Permutation_in _ (Permutation_sym (reconcile_perm w srcs libs))).
    apply in_app_iff. destruct He as [[s [Hs [Hex [Hf1 [Hf2 ->]]]]] | He].
    + left. apply In_paired_entries. exists s. rewrite Hf1, Hf2. auto.
    + right. destruct He as [l [Hl' [Hex [Hf [Hns ->]]]]].
      apply In_unpaired_entries. exists l. repeat split; auto.
      apply Hin. rewrite Hsib. auto.
Qed.

(** ** The reconciler: when it returns, and what *)

Lemma planned_emitted (env : Env) (w : World) (target_path : str)
  (libs : list str) (e : classpathentry) :
  faithful_order env ->
  scan_libs env w target_path = Ok libs ->
  In e (planned w (set_order env (scan_sources w target_path)) libs) <->
  emitted w (scan_sources w target_path) libs e.
Proof.
  intros HE Hlibs.
  destruct (scan_libs_inv env w _ _ HE Hlibs) as [Hnd _].
  rewrite (reconcile_In w _ libs e Hnd). unfold emitted, lib_entry.
  split; (intros [[s H] | [l H]]; [left; exists s | right; exists l]).
  - rewrite set_order_In in H by assumption. exact H.
  - destruct H as [H1 [H2 [H3 [H4 H5]]]]. repeat split; auto.
    intros s Hs. apply H4. now rewrite set_order_In.
  - rewrite set_order_In by assumption. exact H.
  - destruct H as [H1 [H2 [H3 [H4 H5]]]]. repeat split; auto.
    intros s Hs. apply H4. now rewrite set_order_In in Hs.
Qed.

Lemma collect_returns (env : Env) (w : World) (target_path : str)
  (libs : list str) :
  faithful_order env ->
  scan_libs env w target_path = Ok libs ->
  (forall e, emitted w (scan_sources w target_path) libs e ->
             entry_ok e = true) ->
  _collect_target_platform_plugins env w target_path =
  Ok (planned w (set_order env (scan_sources w target_path)) libs).
Proof.
  intros HE Hlibs Hok. apply collect_accepted; [assumption|].
  apply forallb_forall. intros e He. apply Hok.
  now apply (planned_emitted env w target_path libs e).
Qed.

Lemma collect_refused (env : Env) (w : World) (target_path : str)
  (libs : list str) (e : classpathentry) :
  faithful_order env ->
  scan_libs env w target_path = Ok libs ->
  emitted w (scan_sources w target_path) libs e ->
  entry_ok e = false ->
  _collect_target_platform_plugins env w target_path = Raise ValueError.
Proof.
  intros HE Hlibs He Hbad.
  rewrite (collect_reconcile env w _ libs Hlibs). cbv zeta.
  destruct (forallb entry_ok _) eqn:Hall; [|reflexivity].
  rewrite forallb_forall in Hall.
  rewrite (Hall e) in Hbad; [discriminate|].
  now apply (planned_emitted env w target_path libs e).
Qed.

(** C1 (amended).  A source archive that passes the filter and whose
    derived sibling is not in the binaries list removes nothing from the
    working list, whatever part of the binaries list that is: its round
    of the loop either keeps the working list or raises [ValueError].
    When the reconciler returns, the archive has contributed the entry
    for the pair if the sibling and the source are both regular files,
    and nothing otherwise.  The reconciler returns when every entry it
    sets out to build has attribute values the XML library accepts, and
    raises [ValueError] when the pair exists and one of its two paths is
    refused. *)
Theorem C1_unlisted_sibling :
  forall (env : Env) (w : World) (target_path : str) (libs : list str)
         (s : str),
    faithful_order env ->
    scan_libs env w target_path = Ok libs ->
    In s (scan_sources w target_path) ->
    is_excluded s = false ->
    ~ In (sibling s) libs ->
    (forall working acc,
        (forall x, In x working -> In x libs) ->
        match reconcile_src w (Ok (working, acc)) s with
        | Ok (working', _) => working' = working
        | Raise e => e = ValueError
        end) /\
    (forall es,
        _collect_target_platform_plugins env w target_path = Ok es ->
        filter (has_source s) es =
        if is_file w (sibling s) && is_file w s
        then [{| kind := lit "lib"; path := sibling s;
                 sourcepath := Some s; including := None |}]
        else []) /\
    ((forall e, emitted w (scan_sources w target_path) libs e ->
                xml_compatible (path e) = true /\
                xml_compatible_opt (sourcepath e) = true) ->
     exists es, _collect_target_platform_plugins env w target_path = Ok es) /\
    (is_file w (sibling s) = true -> is_file w s = true ->
     xml_compatible (sibling s) && xml_compatible s = false ->
     _collect_target_platform_plugins env w target_path = Raise ValueError).
Proof.
  intros env w target_path libs s HE Hlibs Hs Hex Hout.
  split; [|split; [|split]].
  - intros working acc Hsub. unfold reconcile_src. cbn [rbind].
    change (blacklist_loop PATH_BLACKLIST s) with (is_excluded s).
    rewrite Hex.
    assert (Hn : list_remove (sibling s) working = None).
    { apply list_remove_None. intros H. apply Hout. auto. }
    rewrite Hn. destruct (is_file w (sibling s) && is_file w s); auto.
    rewrite E_classpathentry_lib.
    destruct (entry_ok (lib_entry (sibling s) (Some s))); reflexivity.
  - intros es Hes. apply collect_Ok_inv in Hes.
    destruct Hes as [libs' [Hlibs' [-> _]]].
    apply has_source_reconcile; auto.
    + apply set_order_NoDup; auto. apply scan_sources_NoDup.
    + rewrite set_order_In; auto.
  - intros Hok. eexists. apply (collect_returns env w _ libs HE Hlibs).
    intros e He. destruct (Hok e He) as [Hp Hsrc].
    unfold entry_ok. rewrite Hp, Hsrc.
    destruct He as [[s' [_ [_ [_ [_ ->]]]]] | [l [_ [_ [_ [_ ->]]]]]];
      reflexivity.
  - intros Hfb Hfs Hbad.
    apply (collect_refused env w _ libs (lib_entry (sibling s) (Some s)));
      auto.
    + left. exists s. auto.
    + now rewrite entry_ok_lib.
Qed.

Lemma C1_unlisted_sibling_witness :
  exists es,
    _collect_target_platform_plugins Fixtures.E_ok Fixtures.w_proj
      (lit "/eclipse") = Ok es /\
    filter (has_source Fixtures.baz_source) es =
    [{| kind := lit "lib"; path := Fixtures.baz_binary;
        sourcepath := Some Fixtures.baz_source; including := None |}].
Proof.
  assert (HE : faithful_order Fixtures.E_ok)
    by (intros l; apply Permutation_refl).
  assert (Hlibs : scan_libs Fixtures.E_ok Fixtures.w_proj (lit "/eclipse")
                  = Ok [lit "/eclipse/jre/lib/rt.jar"; Fixtures.foo_binary;
                        lit "/eclipse/plugins/org.bar_2.0.jar"])
    by (vm_compute; reflexivity).
  destruct (C1_unlisted_sibling Fixtures.E_ok Fixtures.w_proj
              (lit "/eclipse") _ Fixtures.baz_source HE Hlibs)
    as [_ [Hpair [Hret _]]].
  - vm_compute. right. left. reflexivity.
  - reflexivity.
  - vm_compute. intuition discriminate.
  - destruct Hret as [es Hes].
    + intros e He.
      apply (planned_emitted _ _ _ _ e HE Hlibs) in He.
      vm_compute in He.
      destruct He as [<- | [<- | [<- | []]]]; split; vm_compute; reflexivity.
    + exists es. split; [exact Hes|]. exact (Hpair es Hes).
Defined.

(** C1 as stated fails: the pair below [configuration] lies outside the
    four scanned subtrees, so the sibling is not in the binaries list,
    and yet the source archive contributes an entry. *)
Lemma C1_counterexample :
  In Fixtures.baz_source (scan_sources Fixtures.w_proj (lit "/eclipse")) /\
  is_excluded Fixtures.baz_source = false /\
  sibling Fixtures.baz_source = Fixtures.baz_binary /\
  scan_libs Fixtures.E_ok Fixtures.w_proj (lit "/eclipse") =
  Ok [lit "/eclipse/jre/lib/rt.jar"; Fixtures.foo_binary;
      lit "/eclipse/plugins/org.bar_2.0.jar"] /\
  _collect_target_platform_plugins Fixtures.E_ok Fixtures.w_proj
    (lit "/eclipse") =
  Ok [lib_entry Fixtures.baz_binary (Some Fixtures.baz_source);
      lib_entry (lit "/eclipse/plugins/org.bar_2.0.jar") None;
      lib_entry Fixtures.foo_binary (Some Fixtures.foo_source)].
Proof.
  repeat split; try (vm_compute; reflexivity).
  vm_compute. right. left. reflexivity.
Qed.

(** C7 (amended).  For a source archive found by the scan whose sibling
    and itself are regular files and pass the filter: whenever the
    reconciler returns, its output holds exactly one entry naming the
    archive as source, that entry is the pair's, and no entry without a
    source has the sibling's path; the output has no repeated entry, and
    two different entries with the same path both carry a source: they
    stem from two source archives that derive the same binary name.  The
    reconciler returns when every entry it sets out to build has
    attribute values the XML library accepts, and raises [ValueError]
    when one of the two paths of the pair is refused. *)
Theorem C7_pair_emitted_once :
  forall (env : Env) (w : World) (target_path : str) (libs : list str)
         (s : str),
    faithful_order env ->
    scan_libs env w target_path = Ok libs ->
    In s (scan_sources w target_path) ->
    is_excluded s = false -> is_excluded (sibling s) = false ->
    is_file w s = true -> is_file w (sibling s) = true ->
    (forall es,
        _collect_target_platform_plugins env w target_path = Ok es ->
        filter (has_source s) es =
        [{| kind := lit "lib"; path := sibling s;
            sourcepath := Some s; including := None |}] /\
        (forall e, In e es -> path e = sibling s -> sourcepath e <> None) /\
        NoDup es /\
        (forall e1 e2,
            In e1 es -> In e2 es -> path e1 = path e2 -> e1 <> e2 ->
            sourcepath e1 <> None /\ sourcepath e2 <> None)) /\
    ((forall e, emitted w (scan_sources w target_path) libs e ->
                xml_compatible (path e) = true /\
                xml_compatible_opt (sourcepath e) = true) ->
     exists es, _collect_target_platform_plugins env w target_path = Ok es) /\
    (xml_compatible (sibling s) && xml_compatible s = false ->
     _collect_target_platform_plugins env w target_path = Raise ValueError).
Proof.
  intros env w target_path libs s HE Hlibs Hs Hex _ Hfs Hfb.
  set (srcs := set_order env (scan_sources w target_path)).
  assert (Hsrcs : NoDup srcs)
    by (apply set_order_NoDup; auto; apply scan_sources_NoDup).
  assert (Hin : In s srcs) by (unfold srcs; rewrite set_order_In; auto).
  destruct (scan_libs_inv env w _ _ HE Hlibs) as [Hnd _].
  destruct (reconcile_entries w srcs libs Hsrcs Hnd) as [Hnodup Hshape].
  split; [|split].
  - intros es Hes. apply collect_Ok_inv in Hes.
    destruct Hes as [libs' [Hlibs' [-> _]]].
    assert (libs' = libs) by congruence. subst libs'. fold srcs.
    split; [|split; [|split]].
    + rewrite has_source_reconcile by assumption. now rewrite Hfs, Hfb.
    + intros e He Hpath.
      destruct (Hshape e He) as [[s' [_ [_ ->]]] | [l [_ [Hl ->]]]].
      * discriminate.
      * exfalso. apply Hl. simpl in Hpath. subst l. apply in_map.
        unfold passing. rewrite filter_In, Hex. auto.
    + exact Hnodup.
    + intros e1 e2 H1 H2 Hpath Hne.
      destruct (Hshape e1 H1) as [[s1 [Hs1 [Hx1 ->]]] | [l1 [_ [Hl1 ->]]]];
        destruct (Hshape e2 H2) as [[s2 [Hs2 [Hx2 ->]]] | [l2 [_ [Hl2 ->]]]];
        simpl in Hpath.
      * split; discriminate.
      * exfalso. apply Hl2. subst l2. apply in_map.
        unfold passing. rewrite filter_In, Hx1. auto.
      * exfalso. apply Hl1. subst l1. apply in_map.
        unfold passing. rewrite filter_In, Hx2. auto.
      * exfalso. apply Hne. now subst.
  - intros Hok. eexists. apply (collect_returns env w _ libs HE Hlibs).
    intros e He. destruct (Hok e He) as [Hp Hsrc].
    unfold entry_ok. rewrite Hp, Hsrc.
    destruct He as [[s' [_ [_ [_ [_ ->]]]]] | [l [_ [_ [_ [_ ->]]]]]];
      reflexivity.
  - intros Hbad.
    apply (collect_refused env w _ libs (lib_entry (sibling s) (Some s)));
      auto.
    + left. exists s. auto.
    + now rewrite entry_ok_lib.
Qed.

Lemma C7_pair_emitted_once_witness :
  exists es,
    _collect_target_platform_plugins Fixtures.E_ok Fixtures.w_proj
      (lit "/eclipse") = Ok es /\
    filter (has_source Fixtures.foo_source) es =
    [{| kind := lit "lib"; path := Fixtures.foo_binary;
        sourcepath := Some Fixtures.foo_source; including := None |}] /\
    NoDup es.
Proof.
  assert (HE : faithful_order Fixtures.E_ok)
    by (intros l; apply Permutation_refl).
  assert (Hlibs : scan_libs Fixtures.E_ok Fixtures.w_proj (lit "/eclipse")
                  = Ok [lit "/eclipse/jre/lib/rt.jar"; Fixtures.foo_binary;
                        lit "/eclipse/plugins/org.bar_2.0.jar"])
    by (vm_compute; reflexivity).
  destruct (C7_pair_emitted_once Fixtures.E_ok Fixtures.w_proj
              (lit "/eclipse") _ Fixtures.foo_source HE Hlibs)
    as [Hout [Hret _]].
  - vm_compute. left. reflexivity.
  - reflexivity.
  - reflexivity.
  - reflexivity.
  - reflexivity.
  - destruct Hret as [es Hes].
    + intros e He.
      apply (planned_emitted _ _ _ _ e HE Hlibs) in He.
      vm_compute in He.
      destruct He as [<- | [<- | [<- | []]]]; split; vm_compute; reflexivity.
    + destruct (Hout es Hes) as [H1 [_ [H2 _]]]. exists es. auto.
Defined.

(** C7 as stated fails in its last part: two source archives in one
    directory derive the same binary name, both files of each pair exist
    and pass the filter, and the output holds two entries with the same
    path. *)
Lemma C7_counterexample :
  sibling (lit "/twins/plugins/a_b.source_1.jar")
  = lit "/twins/plugins/a_b_1.jar" /\
  sibling (lit "/twins/plugins/a.source_b_1.jar")
  = lit "/twins/plugins/a_b_1.jar" /\
  is_excluded (lit "/twins/plugins/a_b.source_1.jar") = false /\
  is_excluded (lit "/twins/plugins/a.source_b_1.jar") = false /\
  is_excluded (lit "/twins/plugins/a_b_1.jar") = false /\
  is_file Fixtures.w_twins (lit "/twins/plugins/a_b.source_1.jar") = true /\
  is_file Fixtures.w_twins (lit "/twins/plugins/a.source_b_1.jar") = true /\
  is_file Fixtures.w_twins (lit "/twins/plugins/a_b_1.jar") = true /\
  _collect_target_platform_plugins Fixtures.E_ok Fixtures.w_twins
    (lit "/twins") =
  Ok [lib_entry (lit "/twins/plugins/a_b_1.jar")
        (Some (lit "/twins/plugins/a_b.source_1.jar"));
      lib_entry (lit "/twins/plugins/a_b_1.jar")
        (Some (lit "/twins/plugins/a.source_b_1.jar"))].
Proof. repeat split; vm_compute; reflexivity. Qed.

(** ** Directory part and file name of a path *)

Lemma take_drop_while (f : char -> bool) (s : str) :
  s = take_while f s ++ drop_while f s.
Proof.
  induction s as [|c s IH]; simpl; auto.
  destruct (f c); simpl; congruence.
Qed.

Lemma take_while_all (f : char -> bool) (a b : str) :
  forallb f a = true ->
  match b with [] => True | c :: _ => f c = false end ->
  take_while f (a ++ b) = a /\ drop_while f (a ++ b) = b.
Proof.
  intros Ha Hb. induction a as [|x a IH]; simpl.
  - destruct b as [|c b]; simpl; auto. now rewrite Hb.
  - simpl in Ha. apply andb_true_iff in Ha. destruct Ha as [Hx Ha].
    rewrite Hx. destruct (IH Ha) as [-> ->]. auto.
Qed.

Lemma forallb_rev {A : Type} (f : A -> bool) (l : list A) :
  forallb f (rev l) = forallb f l.
Proof.
  induction l as [|x l IH]; simpl; auto.
  rewrite forallb_app, IH. simpl. rewrite andb_true_r. apply andb_comm.
Qed.

(** A path that is a directory part closed by a slash (or nothing)
    followed by a name has exactly these as its two parts. *)
Lemma dirpart_basename_of (d n : str) :
  forallb not_slash n = true ->
  d = [] \/ endswith [slash] d = true ->
  dirpart (d ++ n) = d /\ basename (d ++ n) = n.
Proof.
  intros Hn Hd. unfold dirpart, basename. rewrite rev_app_distr.
  assert (Hb : match rev d with [] => True | c :: _ => not_slash c = false end).
  { destruct Hd as [-> | Hd]; [exact I|]. unfold endswith in Hd.
    destruct (rev d) as [|c r]; [exact I|].
    cbn [rev app startswith] in Hd.
    apply andb_true_iff in Hd. destruct Hd as [Hc _].
    apply N.eqb_eq in Hc. subst c. reflexivity. }
  destruct (take_while_all not_slash (rev n) (rev d)) as [-> ->]; auto.
  - now rewrite forallb_rev.
  - now rewrite !rev_involutive.
Qed.

Lemma endswith_app_slash (q : str) : endswith [slash] (q ++ [slash]) = true.
Proof. unfold endswith. rewrite rev_app_distr. reflexivity. Qed.

Lemma endswith_slash_inv (d : str) :
  endswith [slash] d = true -> exists q, d = q ++ [slash].
Proof.
  unfold endswith. intros H. destruct (rev d) as [|c r] eqn:Hr;
    [discriminate|].
  cbn [rev app startswith] in H.
  apply andb_true_iff in H. destruct H as [Hc _].
  apply N.eqb_eq in Hc. subst c. exists (rev r).
  rewrite <- (rev_involutive d), Hr. reflexivity.
Qed.

Lemma all_slashes_endswith (d : str) :
  d <> [] -> forallb (N.eqb slash) d = true -> endswith [slash] d = true.
Proof.
  intros Hne H. destruct (exists_last Hne) as [q [x ->]].
  rewrite forallb_app in H. apply andb_true_iff in H. destruct H as [_ H].
  cbn [forallb] in H. apply andb_true_iff in H. destruct H as [H _].
  apply N.eqb_eq in H. subst x. apply endswith_app_slash.
Qed.

Lemma joinpath_parts (d n : str) :
  plain_dir d -> forallb not_slash n = true ->
  exists d',
    joinpath d n = d' ++ n /\
    (d' = [] \/ endswith [slash] d' = true) /\
    (match d' with
     | [] => dot
     | _ => if forallb (N.eqb slash) d' then d' else removelast d'
     end) = d.
Proof.
  intros [Hne Hroot] Hn. unfold joinpath.
  destruct (str_eqb d dot) eqn:Hdot.
  - apply str_eqb_eq in Hdot. subst. exists []. auto.
  - destruct (endswith [slash] d) eqn:He.
    + exists d. rewrite (Hroot eq_refl). split; auto. split; auto.
      destruct d; [congruence | reflexivity].
    + exists (d ++ [slash]). rewrite <- app_assoc. split; auto.
      split; [right; apply endswith_app_slash|].
      destruct (d ++ [slash]) as [|c r] eqn:Hd;
        [destruct d; discriminate|]. rewrite <- Hd.
      assert (Hall : forallb (N.eqb slash) (d ++ [slash]) = false).
      { rewrite forallb_app. apply andb_false_iff. left.
        destruct (forallb (N.eqb slash) d) eqn:Hall; auto.
        rewrite (all_slashes_endswith d Hne Hall) in He. discriminate. }
      rewrite Hall. apply removelast_last.
Qed.

Lemma joinpath_not_dot (d n : str) :
  plain_dir d -> plain_name n -> joinpath d n <> dot.
Proof.
  intros [Hne _] [_ Hn]. unfold joinpath.
  destruct (str_eqb d dot) eqn:Hdot; auto.
  apply str_eqb_neq in Hdot.
  destruct (endswith [slash] d) eqn:He.
  - apply endswith_slash_inv in He. destruct He as [q ->].
    intros H. destruct q as [|a q];
      [destruct n; discriminate H | destruct q; discriminate H].
  - intros H. destruct d as [|a d]; [congruence|].
    destruct d; discriminate H.
Qed.

(** The parent and the name of [d / n] are [d] and [n]. *)
Lemma parent_name_joinpath (d n : str) :
  plain_dir d -> plain_name n ->
  parent (joinpath d n) = d /\ name (joinpath d n) = n.
Proof.
  intros Hd Hn. pose proof Hn as [Hslash _].
  destruct (joinpath_parts d n Hd Hslash) as [d' [Hj [Hd' Hp]]].
  destruct (dirpart_basename_of d' n Hslash Hd') as [Hdir Hbase].
  split.
  - unfold parent. rewrite Hj, Hdir. exact Hp.
  - unfold name.
    destruct (str_eqb (joinpath d n) dot) eqn:Hdot.
    + apply str_eqb_eq in Hdot. now apply joinpath_not_dot in Hdot.
    + now rewrite Hj.
Qed.

(** ** Paths as strings *)

Lemma strip_prefix_iff (p s r : str) :
  strip_prefix p s = Some r <-> s = p ++ r.
Proof.
  revert s. induction p as [|x p IH]; intros s; cbn [strip_prefix app].
  - split; [intros [= ->]; reflexivity | intros ->; reflexivity].
  - destruct s as [|y s]; [split; discriminate|].
    destruct (N.eqb x y) eqn:Hxy.
    + apply N.eqb_eq in Hxy. subst y. rewrite IH. split.
      * intros ->. reflexivity.
      * intros [= ->]. reflexivity.
    + apply N.eqb_neq in Hxy. split; [discriminate|].
      intros [= <- _]. congruence.
Qed.

Lemma split_from_free (cur c : str) :
  slash_free c -> split_from cur c = [cur ++ c].
Proof.
  unfold slash_free. revert cur.
  induction c as [|x c IH]; intros cur H; cbn [split_from].
  - now rewrite app_nil_r.
  - cbn [forallb] in H. apply andb_true_iff in H. destruct H as [Hx Hc].
    unfold not_slash in Hx. apply negb_true_iff in Hx. rewrite Hx.
    rewrite (IH _ Hc), <- app_assoc. reflexivity.
Qed.

Lemma split_from_app (cur c s : str) :
  slash_free c ->
  split_from cur (c ++ slash :: s) = (cur ++ c) :: split_from [] s.
Proof.
  unfold slash_free. revert cur.
  induction c as [|x c IH]; intros cur H; cbn [split_from app].
  - change (N.eqb slash slash) with true. cbv iota.
    now rewrite app_nil_r.
  - cbn [forallb] in H. apply andb_true_iff in H. destruct H as [Hx Hc].
    unfold not_slash in Hx. apply negb_true_iff in Hx. rewrite Hx.
    rewrite (IH _ Hc), <- app_assoc. reflexivity.
Qed.

Lemma split_slash_slashed (comps : list str) :
  comps <> [] -> Forall slash_free comps ->
  split_slash (slashed comps) = comps.
Proof.
  unfold split_slash. induction comps as [|c cs IH]; [congruence|].
  intros _ Hall. inversion Hall as [|? ? Hc Hcs]; subst.
  destruct cs as [|c' cs].
  - cbn [slashed]. now rewrite split_from_free.
  - change (slashed (c :: c' :: cs)) with (c ++ slash :: slashed (c' :: cs)).
    rewrite split_from_app by assumption. cbn [app].
    rewrite IH; [reflexivity | discriminate | assumption].
Qed.

Lemma split_from_inv (s cur : str) :
  exists c0 cs,
    split_from cur s = (cur ++ c0) :: cs /\
    slash_free c0 /\ Forall slash_free cs /\ s = slashed (c0 :: cs).
Proof.
  revert cur. induction s as [|x s IH]; intros cur.
  - exists [], []. cbn [split_from slashed]. rewrite app_nil_r.
    split; [reflexivity|]. split; [reflexivity|].
    split; [constructor | reflexivity].
  - cbn [split_from]. destruct (N.eqb x slash) eqn:Hx.
    + apply N.eqb_eq in Hx. subst x.
      destruct (IH []) as [c1 [cs [H1 [H2 [H3 H4]]]]].
      exists [], (c1 :: cs). rewrite H1, app_nil_r. cbn [app].
      split; [reflexivity|]. split; [reflexivity|].
      split; [constructor; assumption|].
      rewrite H4. reflexivity.
    + destruct (IH (cur ++ [x])) as [c0 [cs [H1 [H2 [H3 H4]]]]].
      exists (x :: c0), cs. rewrite H1, <- app_assoc. cbn [app].
      split; [reflexivity|]. split; [|split; [assumption|]].
      * unfold slash_free in *. cbn [forallb]. unfold not_slash at 1.
        now rewrite Hx, H2.
      * rewrite H4. destruct cs; reflexivity.
Qed.

Lemma split_slash_iff (rel : str) (comps : list str) :
  split_slash rel = comps <->
  comps <> [] /\ Forall slash_free comps /\ rel = slashed comps.
Proof.
  split.
  - intros <-. unfold split_slash.
    destruct (split_from_inv rel []) as [c0 [cs [H1 [H2 [H3 H4]]]]].
    rewrite H1. cbn [app]. split; [discriminate|]. split; auto.
  - intros [Hne [Hall ->]]. now apply split_slash_slashed.
Qed.

Lemma slashed_snoc (l : list str) (f : str) :
  l <> [] -> slashed (l ++ [f]) = slashed l ++ slash :: f.
Proof.
  induction l as [|c l IH]; [congruence|]. intros _.
  destruct l as [|c' l]; [reflexivity|].
  change (slashed ((c :: c' :: l) ++ [f]))
    with (c ++ slash :: slashed ((c' :: l) ++ [f])).
  rewrite IH by discriminate.
  change (slashed (c :: c' :: l)) with (c ++ slash :: slashed (c' :: l)).
  now rewrite <- app_assoc.
Qed.

Lemma joinpath_target_slash (target rel : str) :
  joinpath target rel = target_slash target rel.
Proof.
  unfold joinpath, target_slash, dir_slash.
  change (lit ".") with dot.
  destruct (str_eqb target dot); [reflexivity|].
  destruct (endswith [slash] target); [reflexivity|].
  now rewrite <- app_assoc.
Qed.

(** What a glob finds, given the components its pattern admits. *)
Lemma found_at (w : World) (target x : str) (comps : list str) :
  (exists key n rel,
      In (key, n) (fs w) /\
      strip_prefix (glob_prefix w target) key = Some rel /\
      split_slash rel = comps /\ x = joinpath target rel) <->
  comps <> [] /\ Forall slash_free comps /\
  (exists n,
      In (dir_slash (abspath (cwd w) target) ++ slashed comps, n) (fs w)) /\
  x = target_slash target (slashed comps).
Proof.
  split.
  - intros [key [n [rel [Hin [Hpre [Hsplit ->]]]]]].
    apply strip_prefix_iff in Hpre. apply split_slash_iff in Hsplit.
    destruct Hsplit as [Hne [Hall ->]]. subst key.
    repeat split; auto.
    + exists n. exact Hin.
    + apply joinpath_target_slash.
  - intros [Hne [Hall [[n Hin] ->]]].
    exists (dir_slash (abspath (cwd w) target) ++ slashed comps), n,
      (slashed comps).
    repeat split; auto.
    + now apply strip_prefix_iff.
    + now apply split_slash_iff.
    + symmetry. apply joinpath_target_slash.
Qed.

Lemma Forall_slash_free_app (l : list str) (f : str) :
  Forall slash_free (l ++ [f]) <-> Forall slash_free l /\ slash_free f.
Proof.
  rewrite Forall_app. split.
  - intros [H1 H2]. inversion H2; auto.
  - intros [H1 H2]. split; auto.
Qed.

Lemma found_under_lies_at (w : World) (target subtree x : str) :
  found_under w target subtree x <->
  exists dirs stem,
    lies_at w target (subtree :: dirs) (stem ++ lit ".jar") x.
Proof.
  unfold found_under, lies_at. split.
  - intros [Ht [key [n [rel [dirs [file [Hin [Hpre [Hsplit [[stem ->] Hx]]]]]]]]]].
    destruct (proj1 (found_at w target x (subtree :: dirs ++ [stem ++ lit ".jar"])))
      as [_ [Hall [Hnode Hx']]].
    { exists key, n, rel. auto. }
    exists dirs, stem.
    change (subtree :: dirs ++ [stem ++ lit ".jar"])
      with ((subtree :: dirs) ++ [stem ++ lit ".jar"]) in Hall.
    apply Forall_slash_free_app in Hall. destruct Hall as [Hd Hf].
    repeat split; assumption.
  - intros [dirs [stem [Ht [Hd [Hf [Hnode Hx]]]]]].
    split; [exact Ht|].
    destruct (proj2 (found_at w target x
                       ((subtree :: dirs) ++ [stem ++ lit ".jar"])))
      as [key [n [rel [Hin [Hpre [Hsplit Hx']]]]]].
    { split; [discriminate|]. split; [|split; assumption].
      apply Forall_slash_free_app. auto. }
    exists key, n, rel, dirs, (stem ++ lit ".jar"). repeat split; eauto.
Qed.

Lemma found_source_lies_at (w : World) (target x : str) :
  found_source w target x <->
  exists dirs a b,
    lies_at w target dirs (a ++ lit ".source_" ++ b ++ lit ".jar") x.
Proof.
  unfold found_source, lies_at. split.
  - intros [Ht [key [n [rel [dirs [file [Hin [Hpre [Hsplit [[a [b ->]] Hx]]]]]]]]]].
    destruct (proj1 (found_at w target x
                       (dirs ++ [a ++ lit ".source_" ++ b ++ lit ".jar"])))
      as [_ [Hall [Hnode Hx']]].
    { exists key, n, rel. auto. }
    exists dirs, a, b.
    apply Forall_slash_free_app in Hall. destruct Hall as [Hd Hf].
    repeat split; assumption.
  - intros [dirs [a [b [Ht [Hd [Hf [Hnode Hx]]]]]]].
    split; [exact Ht|].
    destruct (proj2 (found_at w target x
                       (dirs ++ [a ++ lit ".source_" ++ b ++ lit ".jar"])))
      as [key [n [rel [Hin [Hpre [Hsplit Hx']]]]]].
    { split; [destruct dirs; discriminate|].
      split; [|split; assumption].
      apply Forall_slash_free_app. auto. }
    exists key, n, rel, dirs, (a ++ lit ".source_" ++ b ++ lit ".jar").
    repeat split; eauto.
Qed.

(** The file name of a path found below a subtree is its last
    component. *)
Lemma lies_at_name (w : World) (target subtree : str) (dirs : list str)
  (file x : str) :
  lies_at w target (subtree :: dirs) file x -> name x = file.
Proof.
  intros [_ [_ [Hf [_ ->]]]].
  rewrite slashed_snoc by discriminate.
  set (P := slashed (subtree :: dirs)).
  assert (Hx : exists d,
             target_slash target (P ++ slash :: file) = d ++ file /\
             endswith [slash] d = true).
  { unfold target_slash. destruct (str_eqb target (lit ".")).
    - exists (P ++ [slash]). rewrite <- app_assoc. split; auto.
      apply endswith_app_slash.
    - exists ((dir_slash target ++ P) ++ [slash]).
      rewrite <- !app_assoc. split; auto.
      rewrite app_assoc. apply endswith_app_slash. }
  destruct Hx as [d [-> Hd]].
  destruct (dirpart_basename_of d file Hf (or_intror Hd)) as [_ Hb].
  unfold name. destruct (str_eqb (d ++ file) dot) eqn:Hdot; [|exact Hb].
  exfalso. apply str_eqb_eq in Hdot.
  apply endswith_slash_inv in Hd. destruct Hd as [q ->].
  destruct q as [|a q]; [discriminate Hdot|].
  destruct q; discriminate Hdot.
Qed.

(** ** The binaries list *)

Lemma shown_first_text (found : list (option str)) (t : str) :
  shown_first found t <-> t = first_text found.
Proof. destruct found as [|[text|] rest]; reflexivity. Qed.

Lemma scan_sources_lies_at (w : World) (target x : str) :
  In x (scan_sources w target) <->
  exists dirs a b,
    lies_at w target dirs (a ++ lit ".source_" ++ b ++ lit ".jar") x.
Proof.
  unfold scan_sources.
  now rewrite set_of_In, glob_source_jars, found_source_lies_at.
Qed.

(** C4 (amended).  With a readable build descriptor the scan returns,
    and a path is in the binaries list exactly when some node of the
    file system, a file or a directory, lies at that path, at any depth
    below one of the four first-level directories [dropins], [features],
    [jre], [plugins] of the installation, under a name ending in [.jar]
    that differs from the project's own [group.artifact_version.jar],
    and no node lies at it under a source-archive name; the list has no
    duplicates. *)
Theorem C4_binaries_set :
  forall (env : Env) (w : World) (target_path : str) (pom : xml_doc)
         (group artifact version_ : str),
    faithful_order env ->
    _read_xml_file env w (lit "pom.xml") = Ok pom ->
    shown_first (groupId pom) group ->
    shown_first (artifactId pom) artifact ->
    shown_first (version pom) version_ ->
    exists libs,
      scan_libs env w target_path = Ok libs /\
      NoDup libs /\
      forall x,
        In x libs <->
        (exists subtree dirs stem,
            In subtree
              [lit "dropins"; lit "features"; lit "jre"; lit "plugins"] /\
            lies_at w target_path (subtree :: dirs) (stem ++ lit ".jar") x /\
            stem ++ lit ".jar" <>
            group ++ lit "." ++ artifact ++ lit "_" ++ version_
            ++ lit ".jar") /\
        ~ (exists dirs a b,
              lies_at w target_path dirs
                (a ++ lit ".source_" ++ b ++ lit ".jar") x).
Proof.
  intros env w target_path pom group artifact version_ HE Hpom Hg Ha Hv.
  apply shown_first_text in Hg, Ha, Hv. subst group artifact version_.
  destruct (scan_libs_found env w target_path pom HE Hpom)
    as [libs [Hlibs [Hnd [Hin _]]]].
  exists libs. split; [exact Hlibs|]. split; [exact Hnd|].
  intros x. rewrite Hin, !found_under_lies_at, found_source_lies_at.
  split.
  - intros [Hfound [Hsrc Hname]]. split; [|exact Hsrc].
    destruct Hfound as [H | [H | [H | H]]];
      destruct H as [dirs [stem H]];
      rewrite (lies_at_name _ _ _ _ _ _ H) in Hname;
      eexists; exists dirs, stem;
      (split; [|split; [exact H | exact Hname]]); cbn; auto.
  - intros [[subtree [dirs [stem [Hsub [H Hname]]]]] Hsrc].
    split; [|split; [exact Hsrc|]].
    + destruct Hsub as [<- | [<- | [<- | [<- | []]]]]; eauto 6.
    + now rewrite (lies_at_name _ _ _ _ _ _ H).
Qed.

Lemma C4_binaries_set_witness :
  exists libs,
    scan_libs Fixtures.E_ok Fixtures.w_proj (lit "/eclipse") = Ok libs /\
    In (lit "/eclipse/plugins/org.bar_2.0.jar") libs /\
    ~ In (lit "/eclipse/dropins/org.example.demo_1.0.jar") libs.
Proof.
  destruct (C4_binaries_set Fixtures.E_ok Fixtures.w_proj (lit "/eclipse")
              Fixtures.pom_doc (lit "org.example") (lit "demo") (lit "1.0"))
    as [libs [Hlibs [_ Hin]]].
  - intros l. apply Permutation_refl.
  - reflexivity.
  - reflexivity.
  - reflexivity.
  - reflexivity.
  - exists libs. split; [exact Hlibs|]. split.
    + apply Hin. split.
      * exists (lit "plugins"), [], (lit "org.bar_2.0").
        split; [cbn; auto|]. split; [|vm_compute; discriminate].
        split; [reflexivity|]. split; [repeat constructor|].
        split; [reflexivity|]. split; [|reflexivity].
        exists (File []). vm_compute. do 12 right. left. reflexivity.
      * intros H. apply scan_sources_lies_at in H. vm_compute in H.
        intuition discriminate.
    + intros H. apply Hin in H.
      destruct H as [[subtree [dirs [stem [_ [H Hname]]]]] _].
      apply lies_at_name in H. apply Hname. rewrite <- H.
      vm_compute. reflexivity.
Defined.

(** C4 as stated fails in one word: what the scan collects are paths
    with an archive name, not archive files.  A directory named like an
    archive below [plugins] is in the binaries list. *)
Lemma C4_counterexample :
  scan_libs Fixtures.E_ok Fixtures.w_unpacked (lit "/unpacked")
  = Ok [lit "/unpacked/plugins/org.dir_1.0.jar"] /\
  is_dir Fixtures.w_unpacked (lit "/unpacked/plugins/org.dir_1.0.jar")
  = true /\
  is_file Fixtures.w_unpacked (lit "/unpacked/plugins/org.dir_1.0.jar")
  = false.
Proof. repeat split; vm_compute; reflexivity. Qed.

(** ** Classpath Assembler *)

Lemma traversable_plain (w : World) (p : str) :
  has_dotdot p = false -> traversable w p = true.
Proof. unfold traversable. now intros ->. Qed.

Lemma stat_plain (w : World) (p : str) :
  has_dotdot p = false ->
  stat w p = fs_lookup (abspath (cwd w) p) (fs w).
Proof. intros H. unfold stat. now rewrite traversable_plain. Qed.

Lemma fold_left_append {A B : Type} (f : A -> B) (l : list A) (init : list B) :
  fold_left (fun acc x => acc ++ [f x]) l init = init ++ map f l.
Proof.
  revert init. induction l as [|x l IH]; intros init; simpl.
  - now rewrite app_nil_r.
  - rewrite IH, <- app_assoc. reflexivity.
Qed.

(** The loop over the tool's list raises exactly when a line is refused
    as an attribute value. *)
Lemma fold_external_entries (lines : list str) (init : list classpathentry) :
  fold_left
    (fun acc path =>
       classpaths <~ acc ;;
       entry <~ E_classpathentry (lit "lib") path None None ;;
       Ok (classpaths ++ [entry]))%py
    lines (Ok init) =
  if forallb xml_compatible lines
  then Ok (init ++ map (fun p => lib_entry p None) lines)
  else Raise ValueError.
Proof.
  revert init. induction lines as [|l lines IH]; intros init.
  - cbn. now rewrite app_nil_r.
  - cbn [fold_left rbind forallb map]. rewrite E_classpathentry_lib.
    rewrite entry_ok_lib. cbn [xml_compatible_opt]. rewrite andb_true_r.
    destruct (xml_compatible l).
    + cbn [rbind andb]. rewrite IH. rewrite <- app_assoc. reflexivity.
    + cbn [rbind andb]. clear IH. induction lines; cbn; auto.
Qed.

(** The three fixed entries are built from constants the XML library
    accepts. *)
Lemma fixed_classpaths_accepted :
  E_classpathentry (lit "src") (lit "src") None (Some (lit "**/*.java"))
  = Ok (nth 0 fixed_classpaths (lib_entry [] None)) /\
  E_classpathentry (lit "output") (lit "target/classes") None None
  = Ok (nth 1 fixed_classpaths (lib_entry [] None)) /\
  E_classpathentry (lit "con")
    (lit "org.eclipse.jdt.launching.JRE_CONTAINER/"
     ++ lit "org.eclipse.jdt.internal.debug.ui.launcher.StandardVMType/"
     ++ lit "JavaSE-17") None None
  = Ok (nth 2 fixed_classpaths (lib_entry [] None)).
Proof. repeat split; vm_compute; reflexivity. Qed.

Lemma build_classpath_no_target (env : Env) (filename tpp : str) (w : World) :
  is_dir w (Path tpp) = false ->
  exists message,
    build_classpath env filename tpp w = (Raise (Exit message 1), w).
Proof.
  intros Hd. unfold build_classpath, bind, get, raise. rewrite Hd. simpl.
  eauto.
Qed.

Lemma build_classpath_no_project (env : Env) (filename tpp : str) (w : World) :
  is_dir w (Path tpp) = true ->
  find_eclipse_jdtls_project_directory (world_with_tmp env w) filename = None ->
  build_classpath env filename tpp w =
  (Raise (RuntimeError project_not_found), world_with_tmp env w).
Proof.
  intros Hd Hf. unfold build_classpath, bind, get, raise, NamedTemporaryFile.
  rewrite Hd. simpl. fold (world_with_tmp env w). rewrite Hf. reflexivity.
Qed.

(** The run from the change of directory onwards. *)
Lemma build_classpath_found (env : Env) (filename tpp : str) (w : World)
  (project_dir : str) :
  is_dir w (Path tpp) = true ->
  find_eclipse_jdtls_project_directory (world_with_tmp env w) filename
  = Some project_dir ->
  build_classpath env filename tpp w =
  if is_dir (world_with_tmp env w) project_dir then
    if is_dir (world_at_tool env w project_dir) project_dir then
      match
        subprocess_run env (mvn_cmd (tmp_name env w)) project_dir
          (world_at_tool env w project_dir)
      with
      | Some (res, fs') =>
          let w3 := world_after_tool w project_dir fs' in
          if negb (returncode res =? 0)%Z then
            (Raise (RuntimeError (stdout res)), w3)
          else
            match stat w3 (tmp_name env w) with
            | Some (File text) =>
                let lines := classpath_3rdparty (universal_newlines text) in
                if forallb xml_compatible lines then
                  match
                    _collect_target_platform_plugins env w3 (Path tpp)
                  with
                  | Ok target_classpaths =>
                      (Ok tt,
                       {| cwd := cwd w3;
                          fs := fs_write
                                  (abspath (cwd w3) (lit ".classpath"))
                                  (xml_tostring env
                                     ((fixed_classpaths
                                       ++ map (fun p => lib_entry p None)
                                            lines)
                                      ++ target_classpaths))
                                  fs' |})
                  | Raise e => (Raise e, w3)
                  end
                else (Raise ValueError, w3)
            | _ => (Raise (OSError (tmp_name env w)), w3)
            end
      | None =>
          (Raise (OSError (lit "mvn")), world_at_tool env w project_dir)
      end
    else (Raise (OSError project_dir), world_at_tool env w project_dir)
  else (Raise (OSError project_dir), world_with_tmp env w).
Proof.
  intros Hd Hf.
  cbv [build_classpath bind get raise NamedTemporaryFile chdir run
       read_text read write_text].
  rewrite Hd. cbn [negb].
  change {| cwd := cwd w; fs := fs_write (tmp_name env w) [] (fs w) |}
    with (world_with_tmp env w).
  rewrite Hf.
  destruct (is_dir (world_with_tmp env w) project_dir); [|reflexivity].
  change {| cwd := abspath (cwd (world_with_tmp env w)) project_dir;
            fs := fs (world_with_tmp env w) |}
    with (world_at_tool env w project_dir).
  destruct (is_dir (world_at_tool env w project_dir) project_dir);
    [|reflexivity].
  destruct (subprocess_run env (mvn_cmd (tmp_name env w)) project_dir
              (world_at_tool env w project_dir)) as [[res fs']|];
    [|reflexivity].
  change {| cwd := cwd (world_at_tool env w project_dir); fs := fs' |}
    with (world_after_tool w project_dir fs').
  cbv zeta.
  destruct (negb (returncode res =? 0)%Z); [reflexivity|].
  destruct (stat (world_after_tool w project_dir fs') (tmp_name env w))
    as [[|text]|]; try reflexivity.
  fold (classpath_3rdparty (universal_newlines text)).
  rewrite fold_external_entries.
  destruct (forallb xml_compatible _); [|reflexivity].
  destruct (_collect_target_platform_plugins env _ (Path tpp));
    [|reflexivity].
  rewrite traversable_plain by reflexivity. reflexivity.
Qed.

(** The run from the tool's result onwards, when the tool was started. *)
Lemma build_classpath_located (env : Env) (filename tpp : str) (w : World)
  (project_dir : str) (res : CompletedProcess) (fs' : FS) :
  is_dir w (Path tpp) = true ->
  find_eclipse_jdtls_project_directory (world_with_tmp env w) filename
  = Some project_dir ->
  is_dir (world_with_tmp env w) project_dir = true ->
  is_dir (world_at_tool env w project_dir) project_dir = true ->
  subprocess_run env (mvn_cmd (tmp_name env w)) project_dir
    (world_at_tool env w project_dir) = Some (res, fs') ->
  let w3 := world_after_tool w project_dir fs' in
  build_classpath env filename tpp w =
  if negb (returncode res =? 0)%Z then
    (Raise (RuntimeError (stdout res)), w3)
  else
    match stat w3 (tmp_name env w) with
    | Some (File text) =>
        let lines := classpath_3rdparty (universal_newlines text) in
        if forallb xml_compatible lines then
          match _collect_target_platform_plugins env w3 (Path tpp) with
          | Ok target_classpaths =>
              (Ok tt,
               {| cwd := cwd w3;
                  fs := fs_write (abspath (cwd w3) (lit ".classpath"))
                          (xml_tostring env
                             ((fixed_classpaths
                               ++ map (fun p => lib_entry p None) lines)
                              ++ target_classpaths))
                          fs' |})
          | Raise e => (Raise e, w3)
          end
        else (Raise ValueError, w3)
    | _ => (Raise (OSError (tmp_name env w)), w3)
    end.
Proof.
  intros Hd Hf Hcd Hchild Hrun w3.
  rewrite (build_classpath_found env filename tpp w project_dir Hd Hf).
  rewrite Hcd, Hchild, Hrun. reflexivity.
Qed.

Lemma read_text_Ok (p text : str) (w w' : World) :
  read_text p w = (Ok text, w') ->
  exists stored,
    stat w p = Some (File stored) /\ text = universal_newlines stored /\
    w' = w.
Proof.
  unfold read_text.
  destruct (stat w p) as [[|t]|]; intros H; inversion H; eauto.
Qed.



(** ** Failure of the tool, and what a failed run leaves behind *)

Lemma fs_lookup_filter_other (p q : str) (f : FS) :
  p <> q ->
  fs_lookup p (filter (fun kv => negb (str_eqb (fst kv) q)) f) =
  fs_lookup p f.
Proof.
  intros Hne. induction f as [|[k n] f IH]; simpl; auto.
  destruct (str_eqb k q) eqn:Hkq; simpl.
  - apply str_eqb_eq in Hkq. subst k.
    destruct (str_eqb q p) eqn:Hqp; auto.
    apply str_eqb_eq in Hqp. congruence.
  - rewrite IH. reflexivity.
Qed.

Lemma fs_lookup_write_other (p q text : str) (f : FS) :
  p <> q -> fs_lookup p (fs_write q text f) = fs_lookup p f.
Proof.
  intros Hne. unfold fs_write. simpl.
  destruct (str_eqb q p) eqn:Hqp.
  - apply str_eqb_eq in Hqp. congruence.
  - now apply fs_lookup_filter_other.
Qed.

(** A run that raises has written nothing but, at most, its temporary
    file and what the tool wrote. *)
Lemma build_classpath_raise_fs (env : Env) (filename tpp : str) (w : World)
  (e : exn) (w' : World) :
  build_classpath env filename tpp w = (Raise e, w') ->
  fs w' = fs w \/
  fs w' = fs (world_with_tmp env w) \/
  exists project_dir res fs',
    subprocess_run env (mvn_cmd (tmp_name env w)) project_dir
      (world_at_tool env w project_dir) = Some (res, fs') /\
    fs w' = fs'.
Proof.
  intros H.
  destruct (is_dir w (Path tpp)) eqn:Hd.
  2: { destruct (build_classpath_no_target env filename tpp w Hd) as [m Hm].
       rewrite Hm in H. inversion H. auto. }
  destruct (find_eclipse_jdtls_project_directory (world_with_tmp env w)
              filename) as [project_dir|] eqn:Hf.
  2: { rewrite (build_classpath_no_project env filename tpp w Hd Hf) in H.
       inversion H. auto. }
  rewrite (build_classpath_found env filename tpp w project_dir Hd Hf) in H.
  destruct (is_dir (world_with_tmp env w) project_dir);
    [|inversion H; auto].
  destruct (is_dir (world_at_tool env w project_dir) project_dir);
    [|inversion H; auto].
  destruct (subprocess_run env (mvn_cmd (tmp_name env w)) project_dir
              (world_at_tool env w project_dir)) as [[res fs']|] eqn:Hrun;
    [|inversion H; auto].
  right. right. exists project_dir, res, fs'. split; [exact Hrun|].
  cbv zeta in H.
  destruct (negb (returncode res =? 0)%Z); [inversion H; reflexivity|].
  destruct (stat _ (tmp_name env w)) as [[|text]|];
    try (inversion H; reflexivity).
  destruct (forallb xml_compatible _); [|inversion H; reflexivity].
  destruct (_collect_target_platform_plugins env _ (Path tpp));
    [discriminate H | inversion H; reflexivity].
Qed.

(** C9 (amended).  When the tool ends with a non-zero status the run
    raises an error whose detail is exactly the captured standard output
    (the captured standard error plays no part), in the world the tool
    left behind.  Whatever the step at which a run raises, it has not
    written the descriptor: any path other than the temporary file that
    the tool itself leaves alone holds after the run what it held
    before. *)
Theorem C9_tool_failure :
  forall (env : Env) (filename tpp : str) (w : World),
    (forall project_dir res fs',
        is_dir w (Path tpp) = true ->
        find_eclipse_jdtls_project_directory (world_with_tmp env w) filename
        = Some project_dir ->
        is_dir (world_with_tmp env w) project_dir = true ->
        is_dir (world_at_tool env w project_dir) project_dir = true ->
        subprocess_run env (mvn_cmd (tmp_name env w)) project_dir
          (world_at_tool env w project_dir) = Some (res, fs') ->
        returncode res <> 0%Z ->
        build_classpath env filename tpp w =
        (Raise (RuntimeError (stdout res)),
         world_after_tool w project_dir fs')) /\
    (forall e w' p,
        build_classpath env filename tpp w = (Raise e, w') ->
        p <> tmp_name env w ->
        (forall project_dir res fs',
            subprocess_run env (mvn_cmd (tmp_name env w)) project_dir
              (world_at_tool env w project_dir) = Some (res, fs') ->
            fs_lookup p fs'
            = fs_lookup p (fs (world_at_tool env w project_dir))) ->
        fs_lookup p (fs w') = fs_lookup p (fs w)).
Proof.
  intros env filename tpp w. split.
  - intros project_dir res fs' Hd Hf Hcd Hchild Hrun Hrc.
    rewrite (build_classpath_located env filename tpp w project_dir res fs')
      by assumption.
    apply Z.eqb_neq in Hrc. now rewrite Hrc.
  - intros e w' p H Hp Hkeep.
    destruct (build_classpath_raise_fs env filename tpp w e w' H)
      as [-> | [-> | [project_dir [res [fs' [Hrun ->]]]]]].
    + reflexivity.
    + cbn [fs world_with_tmp]. now apply fs_lookup_write_other.
    + rewrite (Hkeep project_dir res fs' Hrun).
      cbn [fs world_at_tool world_with_tmp].
      now apply fs_lookup_write_other.
Qed.

Lemma C9_tool_failure_witness :
  build_classpath Fixtures.E_fail (lit "/work/proj/src/Main.java")
    (lit "/eclipse") Fixtures.w_start =
  (Raise (RuntimeError []),
   world_after_tool Fixtures.w_start (lit "/work/proj")
     (fs (world_with_tmp Fixtures.E_fail Fixtures.w_start))) /\
  fs_lookup (lit "/work/proj/.classpath")
    (fs (world_after_tool Fixtures.w_start (lit "/work/proj")
           (fs (world_with_tmp Fixtures.E_fail Fixtures.w_start))))
  = fs_lookup (lit "/work/proj/.classpath") (fs Fixtures.w_start).
Proof.
  destruct (C9_tool_failure Fixtures.E_fail (lit "/work/proj/src/Main.java")
              (lit "/eclipse") Fixtures.w_start) as [Hfail Hkeep].
  assert (Hb := Hfail (lit "/work/proj")
                  {| returncode := 1; stdout := [];
                     stderr := lit "BUILD FAILURE" |}
                  (fs (world_with_tmp Fixtures.E_fail Fixtures.w_start))
                  eq_refl eq_refl eq_refl eq_refl eq_refl
                  ltac:(discriminate)).
  split; [exact Hb|].
  apply (Hkeep _ _ (lit "/work/proj/.classpath") Hb).
  - vm_compute. discriminate.
  - intros project_dir res fs' [= _ <-]. reflexivity.
Defined.

(** C9 as stated fails in its first part: the tool reports its failure
    on standard error only, and the error raised carries none of it. *)
Lemma C9_counterexample :
  subprocess_run Fixtures.E_fail (mvn_cmd Fixtures.tmp) (lit "/work/proj")
    (world_at_tool Fixtures.E_fail Fixtures.w_start (lit "/work/proj"))
  = Some ({| returncode := 1; stdout := []; stderr := lit "BUILD FAILURE" |},
          fs (world_with_tmp Fixtures.E_fail Fixtures.w_start)) /\
  fst (build_classpath Fixtures.E_fail (lit "/work/proj/src/Main.java")
         (lit "/eclipse") Fixtures.w_start)
  = Raise (RuntimeError []) /\
  ~ carries [] (lit "BUILD FAILURE").
Proof.
  split; [reflexivity|]. split; [vm_compute; reflexivity|].
  unfold carries. vm_compute. discriminate.
Qed.

(** ** The working directory *)

Lemma stat_anchored (w w' : World) (p : str) :
  fs w' = fs w ->
  startswith [slash] p = true \/ (p = dot /\ cwd w' = cwd w) ->
  stat w' p = stat w p.
Proof.
  intros Hfs [Habs | [-> Hcwd]].
  - unfold stat, traversable, abspath, walk_start. rewrite Habs, Hfs.
    reflexivity.
  - unfold stat, traversable, abspath, walk_start. cbn. now rewrite Hcwd, Hfs.
Qed.

Lemma abspath_anchored (c : str) (p : str) :
  startswith [slash] p = true \/ p = dot ->
  abspath (abspath c p) p = abspath c p.
Proof.
  intros [Habs | ->].
  - unfold abspath, walk_start. rewrite Habs. reflexivity.
  - reflexivity.
Qed.

(** C3 (amended).  [build_classpath] does change the working directory
    of its process.  A run that stops before a project directory is
    located leaves it as it was.  Otherwise the located project directory
    is made the working directory, and it stays the working directory to
    the end of the run, whether the run returns or raises.  The same
    path is then handed to the child as its [cwd] argument and resolved
    once more, against the new working directory: when that is not a
    directory the run raises [OSError] and the tool is not started, as
    it does when the command is not found; when the project directory is
    an absolute path or [.], it is the project directory again and the
    tool is started there.  After a started tool
    the file system is the one the tool left, with at most the
    descriptor written. *)
Theorem C3_working_directory :
  forall (env : Env) (filename tpp : str) (w : World),
    (is_dir w (Path tpp) = false ->
     cwd (snd (build_classpath env filename tpp w)) = cwd w) /\
    (is_dir w (Path tpp) = true ->
     find_eclipse_jdtls_project_directory (world_with_tmp env w) filename
     = None ->
     cwd (snd (build_classpath env filename tpp w)) = cwd w) /\
    (forall project_dir,
        is_dir w (Path tpp) = true ->
        find_eclipse_jdtls_project_directory (world_with_tmp env w) filename
        = Some project_dir ->
        (is_dir (world_with_tmp env w) project_dir = false ->
         build_classpath env filename tpp w =
         (Raise (OSError project_dir), world_with_tmp env w)) /\
        (is_dir (world_with_tmp env w) project_dir = true ->
         cwd (snd (build_classpath env filename tpp w))
         = abspath (cwd w) project_dir /\
         (is_dir (world_at_tool env w project_dir) project_dir = false ->
          build_classpath env filename tpp w =
          (Raise (OSError project_dir), world_at_tool env w project_dir)) /\
         (is_dir (world_at_tool env w project_dir) project_dir = true ->
          (subprocess_run env (mvn_cmd (tmp_name env w)) project_dir
             (world_at_tool env w project_dir) = None ->
           build_classpath env filename tpp w =
           (Raise (OSError (lit "mvn")), world_at_tool env w project_dir)) /\
          forall res fs',
            subprocess_run env (mvn_cmd (tmp_name env w)) project_dir
              (world_at_tool env w project_dir) = Some (res, fs') ->
            fs (snd (build_classpath env filename tpp w)) = fs' \/
            exists data,
              fs (snd (build_classpath env filename tpp w)) =
              fs_write
                (abspath (abspath (cwd w) project_dir) (lit ".classpath"))
                data fs') /\
         (startswith [slash] project_dir = true \/ project_dir = dot ->
          is_dir (world_at_tool env w project_dir) project_dir = true /\
          abspath (cwd (world_at_tool env w project_dir)) project_dir
          = abspath (cwd w) project_dir))).
Proof.
  intros env filename tpp w. split; [|split].
  - intros Hd. destruct (build_classpath_no_target env filename tpp w Hd)
      as [m ->]. reflexivity.
  - intros Hd Hf. rewrite build_classpath_no_project by assumption.
    reflexivity.
  - intros project_dir Hd Hf.
    pose proof (build_classpath_found env filename tpp w project_dir Hd Hf)
      as Hb.
    split.
    + intros Hcd. now rewrite Hb, Hcd.
    + intros Hcd. rewrite Hcd in Hb. split; [|split; [|split]].
      * rewrite Hb.
        destruct (is_dir (world_at_tool env w project_dir) project_dir);
          [|reflexivity].
        destruct (subprocess_run env _ project_dir _) as [[res fs']|];
          [|reflexivity].
        cbv zeta.
        destruct (negb (returncode res =? 0)%Z); [reflexivity|].
        destruct (stat _ (tmp_name env w)) as [[|text]|]; try reflexivity.
        destruct (forallb xml_compatible _); [|reflexivity].
        destruct (_collect_target_platform_plugins env _ (Path tpp));
          reflexivity.
      * intros Hchild. now rewrite Hb, Hchild.
      * intros Hchild. split; [intros Hrun; now rewrite Hb, Hchild, Hrun|].
        intros res fs' Hrun. rewrite Hb, Hchild, Hrun. cbv zeta.
        destruct (negb (returncode res =? 0)%Z); [cbn; auto|].
        destruct (stat _ (tmp_name env w)) as [[|text]|]; try (cbn; auto).
        destruct (forallb xml_compatible _); [|cbn; auto].
        destruct (_collect_target_platform_plugins env _ (Path tpp));
          cbn; eauto.
      * intros Hanch. split.
        -- unfold is_dir in *.
           rewrite (stat_anchored (world_with_tmp env w)
                      (world_at_tool env w project_dir)); [exact Hcd| |].
           ++ reflexivity.
           ++ destruct Hanch as [Ha | ->]; [now left|right].
              split; reflexivity.
        -- apply abspath_anchored. exact Hanch.
Qed.

Lemma C3_working_directory_witness :
  cwd Fixtures.w_start = lit "/work" /\
  cwd (snd (build_classpath Fixtures.E_ok (lit "/work/proj/src/Main.java")
              (lit "/eclipse") Fixtures.w_start)) = lit "/work/proj".
Proof.
  split; [reflexivity|].
  refine (proj1 (proj2 (proj2 (proj2 (C3_working_directory Fixtures.E_ok
            (lit "/work/proj/src/Main.java") (lit "/eclipse")
            Fixtures.w_start))
            (lit "/work/proj") _ _) _)).
  - reflexivity.
  - vm_compute. reflexivity.
  - reflexivity.
Defined.

(** C3 as stated fails: a run started in [/work] on a file of the
    project in [/work/proj] succeeds and leaves the process in
    [/work/proj]. *)
Lemma C3_counterexample :
  cwd Fixtures.w_start = lit "/work" /\
  fst (build_classpath Fixtures.E_ok (lit "/work/proj/src/Main.java")
         (lit "/eclipse") Fixtures.w_start) = Ok tt /\
  cwd (snd (build_classpath Fixtures.E_ok (lit "/work/proj/src/Main.java")
              (lit "/eclipse") Fixtures.w_start)) = lit "/work/proj" /\
  cwd (snd (build_classpath Fixtures.E_ok (lit "/work/proj/src/Main.java")
              (lit "/eclipse") Fixtures.w_start)) <> cwd Fixtures.w_start.
Proof.
  split; [reflexivity|]. split; [vm_compute; reflexivity|].
  split; [vm_compute; reflexivity|]. vm_compute. discriminate.
Qed.

(** The same project reached through a relative file name: the project
    directory is [proj], the process moves into it, and the child is
    asked to start in [proj] below it, which does not exist. *)
Example build_classpath_relative_filename :
  find_eclipse_jdtls_project_directory
    (world_with_tmp Fixtures.E_ok Fixtures.w_start)
    (lit "proj/src/Main.java") = Some (lit "proj") /\
  build_classpath Fixtures.E_ok (lit "proj/src/Main.java") (lit "/eclipse")
    Fixtures.w_start =
  (Raise (OSError (lit "proj")),
   {| cwd := lit "/work/proj";
      fs := fs (world_with_tmp Fixtures.E_ok Fixtures.w_start) |}).
Proof. split; vm_compute; reflexivity. Qed.

(** ** Manifest Classpath Patcher *)

(** Runs the loop and the record projections, leaves the string tests. *)
Ltac patcher_step :=
  cbn [fold_left manifest inside_bundle_classpath found_bundle_classpath app].

Lemma patch_line_manifest (bc : str) (st : patcher) (line : str) :
  manifest (patch_line bc st line) =
  manifest st ++ patched bc (inside_bundle_classpath st) [line] /\
  inside_bundle_classpath (patch_line bc st line) =
  inside_bundle_classpath
    (patch_line bc
       {| manifest := []; found_bundle_classpath := false;
          inside_bundle_classpath := inside_bundle_classpath st |} line).
Proof.
  unfold patched, patch_line. patcher_step.
  destruct (startswith (lit "Bundle-ClassPath:") line); patcher_step;
    auto.
  destruct (inside_bundle_classpath st && startswith (lit " ") line);
    patcher_step; auto.
  now rewrite app_nil_r.
Qed.

Lemma fold_patch_line_manifest (bc : str) (lines : list str) (st : patcher) :
  manifest (fold_left (patch_line bc) lines st) =
  manifest st ++ patched bc (inside_bundle_classpath st) lines.
Proof.
  revert st. induction lines as [|line lines IH]; intros st.
  - unfold patched. patcher_step. now rewrite app_nil_r.
  - unfold patched. cbn [fold_left]. rewrite !IH.
    destruct (patch_line_manifest bc st line) as [Hm Hi].
    rewrite Hm, Hi. unfold patched at 1. cbn [fold_left].
    now rewrite <- app_assoc.
Qed.

Lemma fold_patch_line_found (bc : str) (lines : list str) (st : patcher) :
  found_bundle_classpath st = true ->
  found_bundle_classpath (fold_left (patch_line bc) lines st) = true.
Proof.
  revert st. induction lines as [|line lines IH]; intros st Hf; auto.
  cbn [fold_left]. apply IH. unfold patch_line.
  destruct (startswith (lit "Bundle-ClassPath:") line); auto.
  destruct (inside_bundle_classpath st && startswith (lit " ") line); auto.
Qed.

(** C2 (amended).  Every line that begins with the field prefix is
    rewritten, the first as well as any later one: wherever such a line
    stands among the lines of the manifest, the text written is the text
    for the lines before it, then the new field block, then the text for
    the lines after it read as following a field.  Read as following a
    field, a line beginning with a space is dropped; any other line that
    does not begin with the prefix is passed on right-trimmed and ends
    the field. *)
Theorem C2_every_field_line_rewritten :
  forall (bundle_classpath text : str) (before after : list str)
         (line : str),
    splitlines text = before ++ line :: after ->
    startswith (lit "Bundle-ClassPath:") line = true ->
    patch_manifest bundle_classpath text =
    patched bundle_classpath false before
    ++ bundle_classpath ++ nl
    ++ patched bundle_classpath true after /\
    (forall l rest,
        startswith (lit " ") l = true ->
        patched bundle_classpath true (l :: rest)
        = patched bundle_classpath true rest) /\
    (forall inside l rest,
        startswith (lit "Bundle-ClassPath:") l = false ->
        inside && startswith (lit " ") l = false ->
        patched bundle_classpath inside (l :: rest)
        = rstrip l ++ nl ++ patched bundle_classpath false rest) /\
    (forall inside l rest,
        startswith (lit "Bundle-ClassPath:") l = true ->
        patched bundle_classpath inside (l :: rest)
        = bundle_classpath ++ nl ++ patched bundle_classpath true rest).
Proof.
  intros bc text before after line Hsplit Hfield.
  assert (Hstep : forall st,
             patch_line bc st line =
             {| manifest := manifest st ++ bc ++ nl;
                found_bundle_classpath := true;
                inside_bundle_classpath := true |}).
  { intros st. unfold patch_line. now rewrite Hfield. }
  split; [|split; [|split]].
  - unfold patch_manifest. rewrite Hsplit, fold_left_app. cbn [fold_left].
    rewrite Hstep. set (st := fold_left (patch_line bc) before _).
    rewrite fold_patch_line_found by reflexivity.
    rewrite fold_patch_line_manifest. patcher_step.
    unfold st. rewrite fold_patch_line_manifest. patcher_step.
    rewrite <- !app_assoc. destruct bc; reflexivity.
  - intros l rest Hsp. unfold patched. cbn [fold_left].
    assert (Hl : startswith (lit "Bundle-ClassPath:") l = false).
    { destruct l as [|c l]; [discriminate|].
      change (N.eqb 32 c && startswith [] l = true) in Hsp.
      apply andb_true_iff in Hsp. destruct Hsp as [Hc _].
      apply N.eqb_eq in Hc. subst c. reflexivity. }
    unfold patch_line at 2. rewrite Hl. patcher_step. now rewrite Hsp.
  - intros inside l rest Hl Hsp. unfold patched at 1. cbn [fold_left].
    unfold patch_line at 2. rewrite Hl. patcher_step. rewrite Hsp.
    rewrite fold_patch_line_manifest. patcher_step. now rewrite <- app_assoc.
  - intros inside l rest Hl. unfold patched at 1. cbn [fold_left].
    unfold patch_line at 2. rewrite Hl. patcher_step.
    rewrite fold_patch_line_manifest. patcher_step. now rewrite <- app_assoc.
Qed.

Lemma C2_every_field_line_rewritten_witness :
  patch_manifest Manifests.field Manifests.doubled =
  patched Manifests.field false
    [lit "Bundle-ClassPath: a"; lit "Bundle-Name: demo"]
  ++ Manifests.field ++ nl ++ patched Manifests.field true [].
Proof.
  refine (proj1 (C2_every_field_line_rewritten Manifests.field
                   Manifests.doubled
                   [lit "Bundle-ClassPath: a"; lit "Bundle-Name: demo"] []
                   (lit "Bundle-ClassPath: b") _ _)).
  - vm_compute. reflexivity.
  - reflexivity.
Defined.

(** C2 as stated fails: with the field standing twice, the code writes
    the new block for both lines, where the claim has the second line
    passed on as it is. *)
Lemma C2_counterexample :
  splitlines Manifests.doubled =
  [lit "Bundle-ClassPath: a"; lit "Bundle-Name: demo";
   lit "Bundle-ClassPath: b"] /\
  patch_manifest Manifests.field Manifests.doubled =
  lit "Bundle-ClassPath: ." ++ nl
  ++ lit "Bundle-Name: demo" ++ nl
  ++ lit "Bundle-ClassPath: ." ++ nl /\
  spec_patch_manifest Manifests.field Manifests.doubled =
  lit "Bundle-ClassPath: ." ++ nl
  ++ lit "Bundle-Name: demo" ++ nl
  ++ lit "Bundle-ClassPath: b" ++ nl /\
  patch_manifest Manifests.field Manifests.doubled
  <> spec_patch_manifest Manifests.field Manifests.doubled /\
  contains (lit "Bundle-ClassPath: b")
    (patch_manifest Manifests.field Manifests.doubled) = false.
Proof.
  repeat split; try (vm_compute; reflexivity).
  vm_compute. discriminate.
Qed.

(** ** The field value *)

Lemma third_party_lib_paths_readable (env : Env) (w : World)
  (classpath_root : xml_doc) :
  _read_xml_file env w (lit ".classpath") = Ok classpath_root ->
  _third_party_lib_paths env w =
  Ok (sorted_with (path_lt env) (map Path (map path (third_party classpath_root)))).
Proof. unfold _third_party_lib_paths. intros ->. reflexivity. Qed.

(** C8 (amended).  The field value is built from the third-party [lib]
    entries of the descriptor, read again at that moment: one line per
    entry, holding the file name of its path, the lines in ascending
    order of these names.  Of the argument only its emptiness is used: it
    decides between the bare dot and the multi-line form. *)
Theorem C8_bundle_classpath_value :
  forall (env : Env) (w : World) (third_party_lib_paths : list str)
         (classpath_root : xml_doc),
    _read_xml_file env w (lit ".classpath") = Ok classpath_root ->
    let lib_paths :=
      sorted
        (map name
           (sorted_with (path_lt env)
              (map Path (map path (third_party classpath_root))))) in
    Permutation lib_paths
      (map (fun e => name (Path (path e))) (third_party classpath_root)) /\
    StronglySorted str_le lib_paths /\
    _get_bundle_classpath env w third_party_lib_paths =
    Ok (lit "Bundle-ClassPath: "
        ++ match third_party_lib_paths with
           | [] => lit "."
           | _ :: _ =>
               lit ".," ++ nl
               ++ join (lit "," ++ nl)
                    (map (fun n => lit " lib/" ++ n) lib_paths)
           end).
Proof.
  intros env w arg classpath_root Hread lib_paths. split; [|split].
  - unfold lib_paths. rewrite sorted_perm.
    rewrite (Permutation_map name (sorted_with_perm (path_lt env) _)).
    rewrite !map_map. reflexivity.
  - apply sorted_Sorted.
  - unfold _get_bundle_classpath.
    rewrite (third_party_lib_paths_readable env w classpath_root Hread).
    destruct arg; reflexivity.
Qed.

Lemma C8_bundle_classpath_value_witness :
  _get_bundle_classpath Fixtures.E_ok Fixtures.w_proj [lit "/x/only.jar"] =
  Ok (lit "Bundle-ClassPath: .," ++ nl
      ++ lit " lib/a.jar," ++ nl
      ++ lit " lib/b.jar").
Proof.
  refine (proj2 (proj2 (C8_bundle_classpath_value Fixtures.E_ok
                          Fixtures.w_proj [lit "/x/only.jar"]
                          Fixtures.old_classpath_doc _))).
  reflexivity.
Defined.

(** C8 as stated fails: called with the very list [package] passes, the
    code orders the lines by file name, not as given; and the value does
    not change when the argument names another file altogether. *)
Lemma C8_counterexample :
  _third_party_lib_paths Fixtures.E_ok Fixtures.w_proj =
  Ok [lit "/y/b.jar"; lit "/z/a.jar"] /\
  _get_bundle_classpath Fixtures.E_ok Fixtures.w_proj
    [lit "/y/b.jar"; lit "/z/a.jar"] =
  Ok (lit "Bundle-ClassPath: .," ++ nl
      ++ lit " lib/a.jar," ++ nl
      ++ lit " lib/b.jar") /\
  lit "Bundle-ClassPath: "
  ++ spec_bundle_classpath_value [lit "b.jar"; lit "a.jar"] =
  lit "Bundle-ClassPath: .," ++ nl
  ++ lit " lib/b.jar," ++ nl
  ++ lit " lib/a.jar" /\
  _get_bundle_classpath Fixtures.E_ok Fixtures.w_proj
    [lit "/y/b.jar"; lit "/z/a.jar"]
  <> Ok (lit "Bundle-ClassPath: "
         ++ spec_bundle_classpath_value [lit "b.jar"; lit "a.jar"]) /\
  _get_bundle_classpath Fixtures.E_ok Fixtures.w_proj [lit "/x/only.jar"]
  <> Ok (lit "Bundle-ClassPath: "
         ++ spec_bundle_classpath_value [lit "only.jar"]).
Proof.
  repeat split; try (vm_compute; reflexivity); vm_compute; discriminate.
Qed.

(** * Further properties *)

(** ** Universal newlines *)

Lemma splitlines_universal_newlines_from (s : str) :
  (forall cur,
      splitlines_from cur (universal_newlines_from false s)
      = splitlines_from cur s) /\
  (forall cur,
      cur :: splitlines_from [] (universal_newlines_from true s)
      = splitlines_from cur (13%N :: s)).
Proof.
  induction s as [|c s [IH1 IH2]].
  - split; reflexivity.
  - assert (Hstep : forall cur,
               splitlines_from cur (universal_newlines_from false (c :: s))
               = splitlines_from cur (c :: s)).
    { intros cur. cbn [universal_newlines_from].
      destruct (N.eqb c 13) eqn:H13.
      - apply N.eqb_eq in H13. subst c.
        change (splitlines_from cur (10%N :: universal_newlines_from true s))
          with (cur :: splitlines_from [] (universal_newlines_from true s)).
        apply IH2.
      - destruct (N.eqb c 10) eqn:H10.
        + apply N.eqb_eq in H10. subst c.
          change (splitlines_from cur (10%N :: universal_newlines_from false s))
            with (cur :: splitlines_from [] (universal_newlines_from false s)).
          change (splitlines_from cur (10%N :: s))
            with (cur :: splitlines_from [] s).
          now rewrite IH1.
        + cbn [splitlines_from]. rewrite H13.
          destruct (is_linebreak c); now rewrite IH1. }
    split; [exact Hstep|].
    intros cur. cbn [universal_newlines_from].
    destruct (N.eqb c 13) eqn:H13.
    + apply N.eqb_eq in H13. subst c.
      change (splitlines_from [] (10%N :: universal_newlines_from true s))
        with ([] :: splitlines_from [] (universal_newlines_from true s)).
      change (splitlines_from cur (13%N :: 13%N :: s))
        with (cur :: splitlines_from [] (13%N :: s)).
      f_equal. apply IH2.
    + destruct (N.eqb c 10) eqn:H10.
      * apply N.eqb_eq in H10. subst c. rewrite IH1. reflexivity.
      * cbn [splitlines_from]. change (N.eqb 13 13) with true. cbv iota.
        rewrite H10. f_equal.
        specialize (Hstep []). cbn [universal_newlines_from] in Hstep.
        rewrite H13, H10 in Hstep. exact Hstep.
Qed.

(** Reading with universal newlines does not change the lines. *)
Lemma splitlines_universal_newlines (s : str) :
  splitlines (universal_newlines s) = splitlines s.
Proof. apply (proj1 (splitlines_universal_newlines_from s)). Qed.

Lemma patch_manifest_universal_newlines (bundle_classpath text : str) :
  patch_manifest bundle_classpath (universal_newlines text)
  = patch_manifest bundle_classpath text.
Proof. unfold patch_manifest. now rewrite splitlines_universal_newlines. Qed.



(** ** Lines *)

Lemma lstrip_suffix (s : str) : exists pre, s = pre ++ lstrip s.
Proof.
  induction s as [|c s [pre IH]]; simpl.
  - exists []. reflexivity.
  - destruct (isspace c).
    + exists (c :: pre). simpl. now rewrite <- IH.
    + exists []. reflexivity.
Qed.

Lemma lstrip_app (a b : str) (c : char) :
  isspace c = false -> lstrip (a ++ c :: b) = lstrip a ++ c :: b.
Proof.
  intros Hc. induction a as [|x a IH]; simpl.
  - now rewrite Hc.
  - destruct (isspace x); auto.
Qed.

Lemma lstrip_idem (s : str) : lstrip (lstrip s) = lstrip s.
Proof.
  induction s as [|c s IH]; simpl; auto.
  destruct (isspace c) eqn:Hc; auto. simpl. now rewrite Hc.
Qed.

Lemma rstrip_prefix (l : str) : exists post, l = rstrip l ++ post.
Proof.
  unfold rstrip. destruct (lstrip_suffix (rev l)) as [pre H].
  exists (rev pre). rewrite <- rev_app_distr, <- H. now rewrite rev_involutive.
Qed.

Lemma rstrip_idem (l : str) : rstrip (rstrip l) = rstrip l.
Proof. unfold rstrip. now rewrite rev_involutive, lstrip_idem. Qed.

Lemma rstrip_nil : rstrip [] = [].
Proof. reflexivity. Qed.

(** Trailing white space is cut behind a text that ends in a visible
    character. *)
Lemma rstrip_app (p t : str) (c : char) :
  isspace c = false -> rstrip ((p ++ [c]) ++ t) = (p ++ [c]) ++ rstrip t.
Proof.
  intros Hc. unfold rstrip. rewrite !rev_app_distr. simpl rev at 2.
  rewrite <- app_assoc. simpl app at 2.
  rewrite (lstrip_app (rev t) (rev p) c Hc).
  rewrite rev_app_distr. simpl. rewrite rev_involutive.
  now rewrite <- app_assoc.
Qed.

Lemma startswith_app (p s t : str) :
  startswith p s = true -> startswith p (s ++ t) = true.
Proof.
  rewrite !startswith_iff. intros [u ->]. exists (u ++ t).
  now rewrite app_assoc.
Qed.

Lemma startswith_rstrip_inv (p l : str) :
  startswith p (rstrip l) = true -> startswith p l = true.
Proof.
  intros H. destruct (rstrip_prefix l) as [post Hl]. rewrite Hl.
  now apply startswith_app.
Qed.

Lemma is_field_line_rstrip (l : str) :
  is_field_line (rstrip l) = is_field_line l.
Proof.
  unfold is_field_line.
  destruct (startswith (lit "Bundle-ClassPath:") l) eqn:Hl.
  - apply startswith_iff in Hl. destruct Hl as [t ->].
    change (lit "Bundle-ClassPath:") with (lit "Bundle-ClassPath" ++ [58%N]).
    rewrite rstrip_app by reflexivity.
    apply startswith_iff. eauto.
  - destruct (startswith _ (rstrip l)) eqn:Hr; auto.
    apply startswith_rstrip_inv in Hr. congruence.
Qed.

Lemma space_not_field (l : str) :
  startswith (lit " ") l = true -> is_field_line l = false.
Proof.
  destruct l as [|c l]; [discriminate|].
  change (startswith (lit " ") (c :: l)) with (N.eqb 32 c && startswith [] l).
  intros H. apply andb_true_iff in H. destruct H as [Hc _].
  apply N.eqb_eq in Hc. subst c. reflexivity.
Qed.

Lemma one_line_app (a b : str) :
  one_line (a ++ b) = one_line a && one_line b.
Proof. apply forallb_app. Qed.

Lemma one_line_rstrip (l : str) : one_line l = true -> one_line (rstrip l) = true.
Proof.
  intros H. destruct (rstrip_prefix l) as [post Hl].
  rewrite Hl, one_line_app in H. apply andb_true_iff in H. tauto.
Qed.

Lemma splitlines_from_line (cur l rest : str) :
  one_line l = true ->
  splitlines_from cur (l ++ nl ++ rest) =
  (cur ++ l) :: splitlines_from [] rest.
Proof.
  revert cur. induction l as [|c l IH]; intros cur Hl.
  - rewrite app_nil_r. reflexivity.
  - cbn [one_line forallb] in Hl. apply andb_true_iff in Hl.
    destruct Hl as [Hc Hl]. apply negb_true_iff in Hc.
    cbn [app splitlines_from].
    assert (H13 : N.eqb c 13 = false).
    { destruct (N.eqb c 13) eqn:H; auto. apply N.eqb_eq in H. subst c.
      discriminate. }
    rewrite H13, Hc. rewrite (IH (cur ++ [c]) Hl).
    now rewrite <- app_assoc.
Qed.

Lemma splitlines_unlines (lines : list str) :
  Forall (fun l => one_line l = true) lines ->
  splitlines (unlines lines) = lines.
Proof.
  unfold splitlines, unlines. induction 1 as [|l lines Hl _ IH]; auto.
  cbn [map concat]. rewrite <- app_assoc.
  rewrite splitlines_from_line by assumption. now rewrite IH.
Qed.

Lemma splitlines_from_one_line (cur s : str) :
  one_line cur = true ->
  Forall (fun l => one_line l = true) (splitlines_from cur s).
Proof.
  assert (H : forall n s cur,
             length s <= n -> one_line cur = true ->
             Forall (fun l => one_line l = true) (splitlines_from cur s)).
  { induction n as [|n IH]; intros s0 cur0 Hn Hcur.
    - destruct s0; [|simpl in Hn; lia].
      simpl. destruct cur0; constructor; auto.
    - destruct s0 as [|c s0].
      + simpl. destruct cur0; constructor; auto.
      + simpl in Hn. cbn [splitlines_from].
        destruct (N.eqb c 13) eqn:H13.
        * destruct s0 as [|d s'].
          -- constructor; auto.
          -- simpl in Hn.
             destruct (N.eqb d 10); constructor; auto; apply IH;
               simpl; auto; lia.
        * destruct (is_linebreak c) eqn:Hc.
          -- constructor; auto. apply IH; simpl; auto; lia.
          -- apply IH; [lia|]. rewrite one_line_app, Hcur.
             simpl. now rewrite Hc. }
  intros Hcur. now apply (H (length s)).
Qed.

Lemma splitlines_one_line (s : str) :
  Forall (fun l => one_line l = true) (splitlines s).
Proof. now apply splitlines_from_one_line. Qed.

(** ** The line loop, on lists of lines *)

Lemma unlines_app (a b : list str) : unlines (a ++ b) = unlines a ++ unlines b.
Proof. unfold unlines. now rewrite map_app, concat_app. Qed.

Lemma unlines_cons (l : str) (rest : list str) :
  unlines (l :: rest) = l ++ nl ++ unlines rest.
Proof. unfold unlines. cbn [map concat]. now rewrite <- app_assoc. Qed.

Lemma join_unlines (sep_free : list str) :
  sep_free <> [] -> join nl sep_free ++ nl = unlines sep_free.
Proof.
  induction sep_free as [|x [|y rest] IH]; intros Hne.
  - congruence.
  - unfold unlines. simpl. now rewrite app_nil_r.
  - rewrite unlines_cons. cbn [join]. rewrite <- IH by discriminate.
    now rewrite <- !app_assoc.
Qed.

Lemma endswith_unlines (lines : list str) :
  lines <> [] -> endswith nl (unlines lines) = true.
Proof.
  intros Hne. destruct (exists_last Hne) as [front [l ->]].
  rewrite unlines_app. unfold unlines at 2. cbn [map concat].
  rewrite app_nil_r, !app_assoc. unfold endswith.
  rewrite rev_app_distr. reflexivity.
Qed.

Lemma patched_cons (bc : str) (inside : bool) (l : str) (rest : list str) :
  patched bc inside (l :: rest) =
  if is_field_line l then bc ++ nl ++ patched bc true rest
  else if inside && startswith (lit " ") l then patched bc inside rest
  else rstrip l ++ nl ++ patched bc false rest.
Proof.
  unfold patched at 1. cbn [fold_left]. rewrite fold_patch_line_manifest.
  unfold patch_line, is_field_line.
  destruct (startswith (lit "Bundle-ClassPath:") l).
  - patcher_step. now rewrite <- app_assoc.
  - patcher_step.
    destruct (inside && startswith (lit " ") l) eqn:Hs; patcher_step.
    + apply andb_true_iff in Hs. destruct Hs as [-> _]. reflexivity.
    + now rewrite <- app_assoc.
Qed.

Lemma patched_unlines (block : list str) (inside : bool) (lines : list str) :
  block <> [] ->
  patched (join nl block) inside lines =
  unlines (patch_lines block inside lines).
Proof.
  intros Hb. revert inside.
  induction lines as [|l rest IH]; intros inside; [reflexivity|].
  rewrite patched_cons. cbn [patch_lines].
  destruct (is_field_line l).
  - rewrite unlines_app, <- join_unlines, IH by assumption.
    now rewrite <- app_assoc.
  - destruct (inside && startswith (lit " ") l); [apply IH|].
    now rewrite unlines_cons, IH.
Qed.

Lemma found_after_loop (bc : str) (lines : list str) (st : patcher) :
  found_bundle_classpath (fold_left (patch_line bc) lines st) =
  found_bundle_classpath st || existsb is_field_line lines.
Proof.
  revert st. induction lines as [|l rest IH]; intros st.
  - simpl. now rewrite orb_false_r.
  - cbn [fold_left existsb]. rewrite IH. unfold patch_line, is_field_line.
    destruct (startswith (lit "Bundle-ClassPath:") l); patcher_step.
    + now rewrite orb_true_r.
    + destruct (inside_bundle_classpath st && startswith (lit " ") l);
        patcher_step; reflexivity.
Qed.

Lemma patch_lines_plain (block : list str) (a b : list str) :
  existsb is_field_line a = false ->
  patch_lines block false (a ++ b) = map rstrip a ++ patch_lines block false b.
Proof.
  induction a as [|l a IH]; intros Ha; [reflexivity|].
  cbn [existsb] in Ha. apply orb_false_iff in Ha. destruct Ha as [Hl Ha].
  cbn [app patch_lines map]. rewrite Hl. cbn [andb]. now rewrite IH.
Qed.

Lemma patch_lines_continuation (block continuation rest : list str) :
  Forall (fun l => startswith (lit " ") l = true) continuation ->
  patch_lines block true (continuation ++ rest) = patch_lines block true rest.
Proof.
  induction 1 as [|c cs Hc _ IH]; [reflexivity|].
  cbn [app patch_lines]. now rewrite (space_not_field c Hc), Hc.
Qed.

Lemma patch_lines_block (header : str) (continuation : list str)
  (inside : bool) (rest : list str) :
  is_field_line header = true ->
  Forall (fun l => startswith (lit " ") l = true) continuation ->
  patch_lines (header :: continuation) inside
    ((header :: continuation) ++ rest) =
  (header :: continuation)
  ++ patch_lines (header :: continuation) true rest.
Proof.
  intros Hh Hc. cbn [app patch_lines]. rewrite Hh.
  now rewrite patch_lines_continuation.
Qed.

(** Run over its own output, the loop changes nothing, provided it is
    not started inside a field where the first run was started outside. *)
Lemma patch_lines_idem (block : list str) :
  field_block block ->
  forall lines inside again,
    (again = true -> inside = true) ->
    patch_lines block again (patch_lines block inside lines) =
    patch_lines block inside lines.
Proof.
  intros Hb. destruct block as [|header continuation]; [contradiction|].
  destruct Hb as [Hh [Hc _]].
  induction lines as [|l rest IH]; intros inside again Hia; [reflexivity|].
  cbn [patch_lines]. destruct (is_field_line l) eqn:Hl.
  - rewrite patch_lines_block by assumption. f_equal. now apply IH.
  - destruct (inside && startswith (lit " ") l) eqn:Hs.
    + now apply IH.
    + cbn [patch_lines]. rewrite is_field_line_rstrip, Hl.
      assert (Hn : again && startswith (lit " ") (rstrip l) = false).
      { destruct again; auto. rewrite (Hia eq_refl) in Hs.
        cbn [andb] in Hs |- *. destruct (startswith (lit " ") (rstrip l)) eqn:Hr; auto.
        apply startswith_rstrip_inv in Hr. congruence. }
      rewrite Hn, rstrip_idem. f_equal. now apply IH.
Qed.

Lemma patch_lines_one_line (block : list str) (inside : bool)
  (lines : list str) :
  Forall (fun l => one_line l = true) block ->
  Forall (fun l => one_line l = true) lines ->
  Forall (fun l => one_line l = true) (patch_lines block inside lines).
Proof.
  intros Hb Hl. revert inside.
  induction Hl as [|l rest Hl _ IH]; intros inside; [constructor|].
  cbn [patch_lines]. destruct (is_field_line l).
  - apply Forall_app. auto.
  - destruct (inside && startswith (lit " ") l); auto.
    constructor; auto. now apply one_line_rstrip.
Qed.

Lemma patch_lines_keeps_field (header : str) (continuation : list str)
  (inside : bool) (lines : list str) :
  is_field_line header = true ->
  existsb is_field_line lines = true ->
  existsb is_field_line
    (patch_lines (header :: continuation) inside lines) = true.
Proof.
  intros Hh. revert inside.
  induction lines as [|l rest IH]; intros inside Hl; [discriminate|].
  cbn [patch_lines]. destruct (is_field_line l) eqn:Hfl.
  - cbn [app existsb]. now rewrite Hh.
  - cbn [existsb] in Hl. rewrite Hfl in Hl. cbn [orb] in Hl.
    destruct (inside && startswith (lit " ") l); auto.
    cbn [existsb]. rewrite IH by assumption. apply orb_true_r.
Qed.

(** The lines the loop is in effect run on: the manifest's own when the
    field stands in it, else these with a field line added at the end
    (after an empty line when the manifest has none). *)
Lemma patch_manifest_lines (header : str) (continuation : list str)
  (text : str) :
  field_block (header :: continuation) ->
  let block := header :: continuation in
  let lines := splitlines text in
  patch_manifest (join nl block) text =
  unlines
    (patch_lines block false
       (if existsb is_field_line lines then lines
        else match lines with
             | [] => [[]; header]
             | _ :: _ => lines ++ [header]
             end)).
Proof.
  intros Hb block lines. destruct Hb as [Hh [Hc Ho]].
  unfold patch_manifest. fold lines.
  rewrite found_after_loop. cbn [found_bundle_classpath orb].
  rewrite fold_patch_line_manifest. patcher_step.
  rewrite (patched_unlines block false lines) by discriminate.
  assert (Hcons : exists c bc', join nl block = c :: bc').
  { destruct header as [|c h]; [discriminate|].
    destruct continuation; simpl; eauto. }
  destruct Hcons as [c [bc' Hbc]]. rewrite Hbc, <- Hbc.
  destruct (existsb is_field_line lines) eqn:Hf; [reflexivity|].
  cbn [negb].
  assert (Hblock : patch_lines block false [header] = block).
  { unfold block. cbn [patch_lines]. rewrite Hh. apply app_nil_r. }
  destruct lines as [|l rest] eqn:Hl.
  - change (patch_lines block false []) with (@nil str).
    change (unlines []) with (@nil char).
    change (negb (endswith [10%N] [])) with true. cbv iota.
    change (patch_lines block false [[]; header])
      with (rstrip [] :: patch_lines block false [header]).
    rewrite Hblock, rstrip_nil, unlines_cons, <- join_unlines by discriminate.
    reflexivity.
  - cbv iota.
    rewrite (patch_lines_plain block (l :: rest) [header] Hf), Hblock.
    assert (Hplain : patch_lines block false (l :: rest)
                     = map rstrip (l :: rest)).
    { rewrite <- (app_nil_r (l :: rest)) at 1.
      rewrite (patch_lines_plain block (l :: rest) [] Hf). apply app_nil_r. }
    rewrite Hplain.
    rewrite endswith_unlines by discriminate.
    cbn [negb]. rewrite unlines_app, <- (join_unlines block) by discriminate.
    reflexivity.
Qed.

(** ** The manifest patcher as a whole *)

Lemma patched_plain (bc : str) (lines : list str) :
  existsb is_field_line lines = false ->
  patched bc false lines = unlines (map rstrip lines).
Proof.
  induction lines as [|l rest IH]; intros Hf; [reflexivity|].
  cbn [existsb] in Hf. apply orb_false_iff in Hf. destruct Hf as [Hl Hf].
  rewrite patched_cons, Hl. cbn [andb map].
  now rewrite unlines_cons, IH.
Qed.

(** X1.  A manifest without a classpath field keeps its lines, each
    right-trimmed and closed by a line feed, and gets the new field as
    its last lines; a manifest without any line gets an empty line
    first. *)
Theorem patch_manifest_appends :
  forall (bundle_classpath text : str),
    bundle_classpath <> [] ->
    existsb is_field_line (splitlines text) = false ->
    patch_manifest bundle_classpath text =
    match splitlines text with
    | [] => nl
    | _ :: _ => unlines (map rstrip (splitlines text))
    end ++ bundle_classpath ++ nl.
Proof.
  intros bc text Hbc Hf. unfold patch_manifest.
  rewrite found_after_loop, Hf. cbn [found_bundle_classpath orb negb].
  rewrite fold_patch_line_manifest. patcher_step.
  rewrite patched_plain by assumption.
  destruct bc as [|c bc]; [congruence|].
  destruct (splitlines text) as [|l rest] eqn:Hl.
  - reflexivity.
  - rewrite endswith_unlines by discriminate. reflexivity.
Qed.

Lemma patch_manifest_appends_witness :
  patch_manifest (lit "Bundle-ClassPath: .") (lit "Bundle-Name: demo  ") =
  lit "Bundle-Name: demo" ++ nl ++ lit "Bundle-ClassPath: ." ++ nl.
Proof.
  refine (patch_manifest_appends (lit "Bundle-ClassPath: .")
            (lit "Bundle-Name: demo  ") _ _).
  - discriminate.
  - reflexivity.
Defined.

(** X2.  Patching is idempotent for a well-formed field block: the text
    written by one pass is left as it is by a second pass with the same
    block, whatever the manifest was. *)
Theorem patch_manifest_idempotent :
  forall (block : list str) (text : str),
    field_block block ->
    patch_manifest (join nl block) (patch_manifest (join nl block) text) =
    patch_manifest (join nl block) text.
Proof.
  intros block text Hb.
  destruct block as [|header continuation]; [contradiction|].
  pose proof Hb as [Hh [Hc Ho]].
  rewrite (patch_manifest_lines header continuation text Hb).
  cbv zeta.
  set (lines' := if existsb is_field_line (splitlines text)
                 then splitlines text
                 else match splitlines text with
                      | [] => [[]; header]
                      | _ :: _ => splitlines text ++ [header]
                      end).
  assert (Hfield : existsb is_field_line lines' = true).
  { unfold lines'.
    destruct (existsb is_field_line (splitlines text)) eqn:Hf; auto.
    destruct (splitlines text) as [|l rest].
    - cbn [existsb]. rewrite Hh. apply orb_true_r.
    - rewrite existsb_app. cbn [existsb]. rewrite Hh.
      now rewrite orb_true_r. }
  assert (Hone : Forall (fun l => one_line l = true) lines').
  { unfold lines'.
    destruct (existsb is_field_line (splitlines text));
      [apply splitlines_one_line|].
    inversion Ho; subst.
    destruct (splitlines text) as [|l rest] eqn:Hl.
    - repeat constructor; auto.
    - rewrite <- Hl. apply Forall_app. split.
      + apply splitlines_one_line.
      + repeat constructor; auto. }
  rewrite (patch_manifest_lines header continuation _ Hb). cbv zeta.
  rewrite splitlines_unlines by (now apply patch_lines_one_line).
  rewrite patch_lines_keeps_field by assumption.
  rewrite (patch_lines_idem _ Hb) by auto. reflexivity.
Qed.

Lemma patch_manifest_idempotent_witness :
  patch_manifest
    (join nl [lit "Bundle-ClassPath: .,"; lit " lib/a.jar"])
    (patch_manifest
       (join nl [lit "Bundle-ClassPath: .,"; lit " lib/a.jar"])
       Manifests.doubled) =
  patch_manifest
    (join nl [lit "Bundle-ClassPath: .,"; lit " lib/a.jar"])
    Manifests.doubled.
Proof.
  refine (patch_manifest_idempotent
            [lit "Bundle-ClassPath: .,"; lit " lib/a.jar"]
            Manifests.doubled _).
  split; [reflexivity|]. split; repeat constructor.
Defined.

(** ** The field written by [package] *)

Lemma join_cons2 (sep x y : str) (l : list str) :
  join sep (x :: y :: l) = x ++ sep ++ join sep (y :: l).
Proof. reflexivity. Qed.

Lemma lib_lines_cons2 (n m : str) (rest : list str) :
  lib_lines (n :: m :: rest) =
  (lit " lib/" ++ n ++ lit ",") :: lib_lines (m :: rest).
Proof. reflexivity. Qed.

Lemma lib_lines_nonempty (names : list str) :
  names <> [] -> lib_lines names <> [].
Proof. destruct names as [|n [|m rest]]; simpl; congruence. Qed.

Lemma join_lib_lines (names : list str) :
  join (lit "," ++ nl) (map (fun p => lit " lib/" ++ p) names) =
  join nl (lib_lines names).
Proof.
  induction names as [|n names IH]; [reflexivity|].
  destruct names as [|m rest]; [reflexivity|].
  rewrite lib_lines_cons2. cbn [map] in IH |- *.
  rewrite (join_cons2 (lit "," ++ nl)).
  transitivity ((lit " lib/" ++ n) ++ (lit "," ++ nl)
                ++ join nl (lib_lines (m :: rest)));
    [do 2 f_equal; exact IH|].
  pose proof (lib_lines_nonempty (m :: rest)) as Hne.
  destruct (lib_lines (m :: rest)) as [|y l];
    [exfalso; apply Hne; [discriminate | reflexivity]|].
  rewrite (join_cons2 nl), <- !app_assoc. reflexivity.
Qed.

Lemma lib_lines_shape (names : list str) :
  Forall (fun l => startswith (lit " ") l = true) (lib_lines names) /\
  (Forall (fun n => one_line n = true) names ->
   Forall (fun l => one_line l = true) (lib_lines names)).
Proof.
  induction names as [|n [|m rest] [IH1 IH2]].
  - split; constructor.
  - split; [repeat constructor|].
    intros H. inversion H; subst. repeat constructor.
    now rewrite one_line_app.
  - change (lib_lines (n :: m :: rest))
      with ((lit " lib/" ++ n ++ lit ",") :: lib_lines (m :: rest)).
    split.
    + constructor; [reflexivity | exact IH1].
    + intros H. inversion H; subst. constructor; auto.
      rewrite !one_line_app. rewrite H2. reflexivity.
Qed.

Lemma lib_lines_length (names : list str) :
  length (lib_lines names) = length names.
Proof.
  induction names as [|n names IH]; [reflexivity|].
  destruct names as [|m rest]; [reflexivity|].
  rewrite lib_lines_cons2. cbn [length] in *. now rewrite IH.
Qed.

Lemma field_lines_block (names : list str) :
  Forall (fun n => one_line n = true) names -> field_block (field_lines names).
Proof.
  intros Hn. destruct names as [|n rest].
  - split; [reflexivity|]. split; repeat constructor.
  - unfold field_lines. split; [reflexivity|].
    destruct (lib_lines_shape (n :: rest)) as [H1 H2]. split; auto.
Qed.

(** X3.  Called as [package] calls it, with the list that
    [_third_party_lib_paths] returns, [_get_bundle_classpath] yields a
    field of one header line and one continuation line per library: the
    header is the field name with a dot, followed by a comma when there
    are libraries; each continuation line is a space, [lib/], the file
    name, and a comma on all but the last; the file names stand in
    ascending order.  When no file name holds a line boundary this is a
    well-formed field block. *)
Theorem get_bundle_classpath_block :
  forall (env : Env) (w : World) (libs : list str),
    _third_party_lib_paths env w = Ok libs ->
    let names := sorted (map name libs) in
    _get_bundle_classpath env w libs = Ok (join nl (field_lines names)) /\
    length (field_lines names) = S (length libs) /\
    (Forall (fun p => one_line (name p) = true) libs ->
     field_block (field_lines names)).
Proof.
  intros env w libs Hlibs names.
  assert (Hperm : Permutation names (map name libs)) by apply sorted_perm.
  split; [|split].
  - unfold _get_bundle_classpath. rewrite Hlibs. cbn [rbind]. f_equal.
    fold names. destruct libs as [|p libs].
    + reflexivity.
    + destruct names as [|n rest] eqn:Hn.
      * apply Permutation_length in Hperm. discriminate.
      * unfold field_lines.
        change [44%N; 10%N] with (lit "," ++ nl).
        rewrite join_lib_lines.
        pose proof (lib_lines_nonempty (n :: rest)) as Hne.
        destruct (lib_lines (n :: rest)) as [|y l];
          [exfalso; apply Hne; [discriminate | reflexivity]|].
        reflexivity.
  - apply Permutation_length in Hperm. rewrite length_map in Hperm.
    rewrite <- Hperm. clear. destruct names as [|n rest]; [reflexivity|].
    unfold field_lines. cbn [length]. now rewrite lib_lines_length.
  - intros Hone. apply field_lines_block.
    eapply Permutation_Forall; [symmetry; exact Hperm|].
    now apply Forall_map.
Qed.

Lemma get_bundle_classpath_block_witness :
  _get_bundle_classpath Fixtures.E_ok Fixtures.w_proj
    [lit "/y/b.jar"; lit "/z/a.jar"] =
  Ok (join nl [lit "Bundle-ClassPath: .,"; lit " lib/a.jar,";
               lit " lib/b.jar"]).
Proof.
  refine (proj1 (get_bundle_classpath_block Fixtures.E_ok Fixtures.w_proj
                   [lit "/y/b.jar"; lit "/z/a.jar"] _)).
  vm_compute. reflexivity.
Defined.

(** ** [_update_bundle_classpath] on the world *)

Lemma fs_lookup_write (p q text : str) (f : FS) :
  fs_lookup p (fs_write q text f) =
  if str_eqb q p then Some (File text) else fs_lookup p f.
Proof.
  unfold fs_write. cbn [fs_lookup]. destruct (str_eqb q p) eqn:Hqp; auto.
  apply fs_lookup_filter_other. apply str_eqb_neq in Hqp. congruence.
Qed.

Lemma fs_write_twice (p text : str) (f : FS) :
  fs_write p text (fs_write p text f) = fs_write p text f.
Proof.
  unfold fs_write. f_equal. cbn [filter fst]. rewrite str_eqb_refl.
  cbn [negb]. induction f as [|[k n] f IH]; [reflexivity|].
  cbn [filter fst]. destruct (str_eqb k p) eqn:Hk; cbn [negb]; auto.
  cbn [filter fst]. rewrite Hk. cbn [negb]. now rewrite IH.
Qed.

Lemma joinpath_inj (d p q : str) : joinpath d p = joinpath d q -> p = q.
Proof.
  unfold joinpath. destruct (str_eqb d dot); auto.
  destruct (endswith [slash] d); intros H.
  - now apply app_inv_head in H.
  - apply app_inv_head in H. now inversion H.
Qed.

Lemma descriptor_not_manifest (d : str) :
  abspath d (lit ".classpath") <> abspath d MANIFEST_PATH.
Proof.
  change (abspath d (lit ".classpath")) with (joinpath d (lit ".classpath")).
  change (abspath d MANIFEST_PATH) with (joinpath d MANIFEST_PATH).
  intros H. apply joinpath_inj in H. discriminate.
Qed.

Lemma update_bundle_classpath_run (env : Env) (arg : list str) (w : World) :
  _update_bundle_classpath env arg w =
  match fs_lookup (abspath (cwd w) MANIFEST_PATH) (fs w) with
  | Some (File text) =>
      match _get_bundle_classpath env w arg with
      | Ok bundle_classpath =>
          (Ok tt,
           {| cwd := cwd w;
              fs := fs_write (abspath (cwd w) MANIFEST_PATH)
                      (patch_manifest bundle_classpath text) (fs w) |})
      | Raise e => (Raise e, w)
      end
  | _ => (Raise (OSError MANIFEST_PATH), w)
  end.
Proof.
  cbv [_update_bundle_classpath bind read_text read write_text].
  rewrite (stat_plain w MANIFEST_PATH) by reflexivity.
  destruct (fs_lookup (abspath (cwd w) MANIFEST_PATH) (fs w)) as [[|text]|];
    try reflexivity.
  rewrite (traversable_plain w MANIFEST_PATH) by reflexivity.
  destruct (_get_bundle_classpath env w arg); [|reflexivity].
  now rewrite patch_manifest_universal_newlines.
Qed.

(** X4.  [_update_bundle_classpath] touches the manifest and nothing
    else: the working directory and every other path are as before; a
    run that raises leaves the whole world as it was; after a run that
    returns the manifest is a regular file, so the check for it that
    [package] makes afterwards cannot fail. *)
Theorem update_bundle_classpath_frame :
  forall (env : Env) (arg : list str) (w : World),
    let r := fst (_update_bundle_classpath env arg w) in
    let w' := snd (_update_bundle_classpath env arg w) in
    cwd w' = cwd w /\
    (forall p,
        p <> abspath (cwd w) MANIFEST_PATH ->
        fs_lookup p (fs w') = fs_lookup p (fs w)) /\
    (r <> Ok tt -> w' = w) /\
    (r = Ok tt -> is_file w' MANIFEST_PATH = true) /\
    (r = Ok tt <->
     is_file w MANIFEST_PATH = true /\
     exists bundle_classpath,
       _get_bundle_classpath env w arg = Ok bundle_classpath).
Proof.
  intros env arg w. cbv zeta. rewrite update_bundle_classpath_run.
  unfold is_file. rewrite !stat_plain by reflexivity.
  destruct (fs_lookup (abspath (cwd w) MANIFEST_PATH) (fs w))
    as [[|text]|] eqn:Hm.
  - cbn [fst snd]. rewrite Hm.
    repeat split; try congruence; try (intros [? _]; discriminate).
  - destruct (_get_bundle_classpath env w arg) as [bc|e] eqn:Hbc.
    + cbn [fst snd cwd fs]. split; [reflexivity|]. split; [|split; [|split]].
      * intros p Hp. rewrite fs_lookup_write.
        destruct (str_eqb _ p) eqn:Heq; auto.
        apply str_eqb_eq in Heq. congruence.
      * congruence.
      * intros _. now rewrite fs_lookup_write, str_eqb_refl.
      * split; auto. intros _. split; eauto.
    + cbn [fst snd]. rewrite Hm.
      repeat split; try congruence. intros [_ [bc' H]]. discriminate.
  - cbn [fst snd]. rewrite Hm.
    repeat split; try congruence; try (intros [? _]; discriminate).
Qed.

(** X5.  Run twice in a row as [package] runs it, on a descriptor whose
    library file names hold no line boundary, [_update_bundle_classpath]
    succeeds both times and the second run leaves the world exactly as
    the first run left it. *)
Theorem update_bundle_classpath_twice :
  forall (env : Env) (w : World) (libs : list str) (text : str),
    _third_party_lib_paths env w = Ok libs ->
    Forall (fun p => one_line (name p) = true) libs ->
    read_text MANIFEST_PATH w = (Ok text, w) ->
    let w1 := snd (_update_bundle_classpath env libs w) in
    _update_bundle_classpath env libs w = (Ok tt, w1) /\
    fs_lookup (abspath (cwd w) MANIFEST_PATH) (fs w1) =
    Some (File (patch_manifest
                  (join nl (field_lines (sorted (map name libs)))) text)) /\
    _update_bundle_classpath env libs w1 = (Ok tt, w1).
Proof.
  intros env w libs text Hlibs Hone Hread w1.
  destruct (get_bundle_classpath_block env w libs Hlibs) as [Hbc [_ Hblock]].
  specialize (Hblock Hone).
  set (block := field_lines (sorted (map name libs))) in *.
  apply read_text_Ok in Hread. destruct Hread as [stored [Hread [-> _]]].
  rewrite stat_plain in Hread by reflexivity.
  rewrite !patch_manifest_universal_newlines.
  set (text := stored) in *.
  assert (Hrun : _update_bundle_classpath env libs w =
                 (Ok tt,
                  {| cwd := cwd w;
                     fs := fs_write (abspath (cwd w) MANIFEST_PATH)
                             (patch_manifest (join nl block) text) (fs w) |})).
  { rewrite update_bundle_classpath_run, Hread, Hbc. reflexivity. }
  unfold w1. rewrite Hrun. cbn [snd fs cwd].
  split; [reflexivity|]. split.
  - now rewrite fs_lookup_write, str_eqb_refl.
  - rewrite update_bundle_classpath_run. cbn [cwd fs].
    rewrite fs_lookup_write, str_eqb_refl.
    assert (Hbc' : _get_bundle_classpath env
                     {| cwd := cwd w;
                        fs := fs_write (abspath (cwd w) MANIFEST_PATH)
                                (patch_manifest (join nl block) text)
                                (fs w) |} libs = Ok (join nl block)).
    { rewrite <- Hbc. unfold _get_bundle_classpath, _third_party_lib_paths,
        _read_xml_file. rewrite !stat_plain by reflexivity.
      cbn [cwd fs]. rewrite fs_lookup_write.
      destruct (str_eqb _ _) eqn:Heq; auto.
      apply str_eqb_eq in Heq. symmetry in Heq.
      now apply descriptor_not_manifest in Heq. }
    rewrite Hbc'. rewrite (patch_manifest_idempotent block text Hblock).
    now rewrite fs_write_twice.
Qed.

Lemma update_bundle_classpath_twice_witness :
  fst (_update_bundle_classpath Fixtures.E_ok
         [lit "/y/b.jar"; lit "/z/a.jar"] Fixtures.w_proj) = Ok tt /\
  _update_bundle_classpath Fixtures.E_ok [lit "/y/b.jar"; lit "/z/a.jar"]
    (snd (_update_bundle_classpath Fixtures.E_ok
            [lit "/y/b.jar"; lit "/z/a.jar"] Fixtures.w_proj)) =
  (Ok tt,
   snd (_update_bundle_classpath Fixtures.E_ok
          [lit "/y/b.jar"; lit "/z/a.jar"] Fixtures.w_proj)).
Proof.
  destruct (update_bundle_classpath_twice Fixtures.E_ok Fixtures.w_proj
              [lit "/y/b.jar"; lit "/z/a.jar"] (lit "Bundle-Name: demo"))
    as [H1 [_ H2]].
  - vm_compute. reflexivity.
  - repeat constructor.
  - reflexivity.
  - split; [now rewrite H1 | exact H2].
Defined.

(** X6.  What [_collect_target_platform_plugins] does once the scan for
    binaries has returned.  It returns when every entry it sets out to
    build has attribute values the XML library accepts, and raises
    [ValueError] when one of them is refused.  The list it returns is in
    ascending order of [path] and has no repeated entry; it holds the
    pair's entry for exactly the source archives found that pass the
    filter and exist as regular files together with their derived
    sibling, and a source-less entry for exactly the binaries of the
    scan that pass the filter, are regular files and are not the derived
    sibling of any source archive that passes the filter.  Nothing else
    is in it. *)
Theorem collect_target_platform_plugins_entries :
  forall (env : Env) (w : World) (target_path : str) (libs : list str),
    faithful_order env ->
    scan_libs env w target_path = Ok libs ->
    ((forall e, emitted w (scan_sources w target_path) libs e ->
                xml_compatible (path e) = true /\
                xml_compatible_opt (sourcepath e) = true) ->
     exists es, _collect_target_platform_plugins env w target_path = Ok es) /\
    (forall e,
        emitted w (scan_sources w target_path) libs e ->
        xml_compatible (path e) && xml_compatible_opt (sourcepath e) = false ->
        _collect_target_platform_plugins env w target_path
        = Raise ValueError) /\
    (forall es,
        _collect_target_platform_plugins env w target_path = Ok es ->
        StronglySorted path_le es /\
        NoDup es /\
        forall e,
          In e es <->
          (exists s,
              In s (scan_sources w target_path) /\ is_excluded s = false /\
              is_file w (sibling s) = true /\ is_file w s = true /\
              e = {| kind := lit "lib"; path := sibling s;
                     sourcepath := Some s; including := None |}) \/
          (exists l,
              In l libs /\ is_excluded l = false /\ is_file w l = true /\
              (forall s, In s (scan_sources w target_path) ->
                         is_excluded s = false -> sibling s <> l) /\
              e = {| kind := lit "lib"; path := l;
                     sourcepath := None; including := None |})).
Proof.
  intros env w target_path libs HE Hlibs.
  assert (Hkind : forall e,
             emitted w (scan_sources w target_path) libs e ->
             entry_ok e =
             xml_compatible (path e) && xml_compatible_opt (sourcepath e)).
  { intros e [[s [_ [_ [_ [_ ->]]]]] | [l [_ [_ [_ [_ ->]]]]]];
      apply entry_ok_lib. }
  split; [|split].
  - intros Hok. eexists. apply (collect_returns env w _ libs HE Hlibs).
    intros e He. rewrite (Hkind e He). destruct (Hok e He) as [-> ->].
    reflexivity.
  - intros e He Hbad. apply (collect_refused env w _ libs e); auto.
    now rewrite (Hkind e He).
  - intros es Hes. apply collect_Ok_inv in Hes.
    destruct Hes as [libs' [Hlibs' [-> _]]].
    assert (libs' = libs) by congruence. subst libs'.
    destruct (scan_libs_inv env w _ _ HE Hlibs) as [Hnd _].
    split; [apply reconcile_sorted|]. split.
    + apply reconcile_entries; auto.
      apply set_order_NoDup; auto. apply scan_sources_NoDup.
    + intros e. apply (planned_emitted env w target_path libs e HE Hlibs).
Qed.

Lemma collect_target_platform_plugins_entries_witness :
  exists es,
    _collect_target_platform_plugins Fixtures.E_ok Fixtures.w_proj
      (lit "/eclipse") = Ok es /\
    StronglySorted path_le es /\ NoDup es /\
    In {| kind := lit "lib"; path := Fixtures.foo_binary;
          sourcepath := Some Fixtures.foo_source; including := None |} es.
Proof.
  assert (HE : faithful_order Fixtures.E_ok)
    by (intros l; apply Permutation_refl).
  assert (Hlibs : scan_libs Fixtures.E_ok Fixtures.w_proj (lit "/eclipse")
                  = Ok [lit "/eclipse/jre/lib/rt.jar"; Fixtures.foo_binary;
                        lit "/eclipse/plugins/org.bar_2.0.jar"])
    by (vm_compute; reflexivity).
  destruct (collect_target_platform_plugins_entries Fixtures.E_ok
              Fixtures.w_proj (lit "/eclipse") _ HE Hlibs)
    as [Hret [_ Hout]].
  destruct Hret as [es Hes].
  - intros e He. apply (planned_emitted _ _ _ _ e HE Hlibs) in He.
    vm_compute in He.
    destruct He as [<- | [<- | [<- | []]]]; split; vm_compute; reflexivity.
  - destruct (Hout es Hes) as [H1 [H2 H3]]. exists es.
    repeat split; auto. apply H3. left. exists Fixtures.foo_source.
    repeat split; vm_compute; auto.
Defined.

(** ** Independence of the order in which sets are walked *)

Lemma sorted_unique {A : Type} (R : A -> A -> Prop) (l l' : list A) :
  (forall a b, In a l -> In b l -> R a b -> R b a -> a = b) ->
  StronglySorted R l -> StronglySorted R l' -> Permutation l l' -> l = l'.
Proof.
  revert l'. induction l as [|x l IH]; intros l' Hanti Hs Hs' Hp.
  - now apply Permutation_nil in Hp.
  - destruct l' as [|y l'].
    + symmetry in Hp. now apply Permutation_nil in Hp.
    + apply StronglySorted_inv in Hs. destruct Hs as [Hs Hx].
      apply StronglySorted_inv in Hs'. destruct Hs' as [Hs' Hy].
      rewrite Forall_forall in Hx, Hy.
      assert (Hxy : x = y).
      { assert (Hin : In x (y :: l'))
          by (apply (Permutation_in _ Hp); now left).
        assert (Hin' : In y (x :: l))
          by (apply (Permutation_in _ (Permutation_sym Hp)); now left).
        destruct Hin as [-> | Hin]; auto.
        destruct Hin' as [-> | Hin']; auto.
        apply Hanti; [now left | now right | now apply Hx | now apply Hy]. }
      subst y. f_equal. apply IH; auto.
      * intros a b Ha Hb. apply Hanti; now right.
      * now apply Permutation_cons_inv in Hp.
Qed.

Lemma compute_jar_name_same_parser (env1 env2 : Env) (w : World) :
  xml_parse env1 = xml_parse env2 ->
  compute_jar_name env1 w = compute_jar_name env2 w.
Proof.
  intros H. unfold compute_jar_name, _read_xml_file. now rewrite H.
Qed.

Lemma drop_own_jar_raise (env : Env) (w : World) (e : exn)
  (libs kept : list str) :
  compute_jar_name env w = Raise e ->
  drop_own_jar env w libs = Ok kept -> libs = [] /\ kept = [].
Proof.
  intros Hj. destruct libs as [|lst rest]; simpl.
  - intros [= <-]. auto.
  - rewrite Hj. discriminate.
Qed.

Lemma scan_libs_same_members (env1 env2 : Env) (w : World)
  (target_path : str) (libs1 libs2 : list str) :
  faithful_order env1 -> faithful_order env2 ->
  xml_parse env1 = xml_parse env2 ->
  scan_libs env1 w target_path = Ok libs1 ->
  scan_libs env2 w target_path = Ok libs2 ->
  forall x, In x libs1 <-> In x libs2.
Proof.
  intros H1 H2 Hp Hl1 Hl2 x. unfold scan_libs in *.
  pose proof (compute_jar_name_same_parser env1 env2 w Hp) as Hsame.
  destruct (compute_jar_name env1 w) as [jar_name|e] eqn:Hj.
  - rewrite (drop_own_jar_Ok env1 w jar_name) in Hl1 by assumption.
    rewrite (drop_own_jar_Ok env2 w jar_name) in Hl2 by congruence.
    injection Hl1 as <-. injection Hl2 as <-.
    rewrite !filter_In, !set_order_In by assumption. tauto.
  - apply (drop_own_jar_raise env1 w e) in Hl1; [|assumption].
    apply (drop_own_jar_raise env2 w e) in Hl2; [|congruence].
    destruct Hl1 as [_ ->]. destruct Hl2 as [_ ->]. tauto.
Qed.

(** X7.  The result of [_collect_target_platform_plugins] does not
    depend on the order in which Python walks its sets, up to the order
    of entries that share a path: two runs on the same file system hold
    the same entries, and when no two entries of one run share a path
    the two lists are equal. *)
Theorem collect_target_platform_plugins_order_independent :
  forall (env1 env2 : Env) (w : World) (target_path : str)
         (es1 es2 : list classpathentry),
    faithful_order env1 -> faithful_order env2 ->
    xml_parse env1 = xml_parse env2 ->
    _collect_target_platform_plugins env1 w target_path = Ok es1 ->
    _collect_target_platform_plugins env2 w target_path = Ok es2 ->
    Permutation es1 es2 /\
    (NoDup (map path es1) -> es1 = es2).
Proof.
  intros env1 env2 w target_path es1 es2 H1 H2 Hp Hc1 Hc2.
  apply collect_Ok_inv in Hc1. destruct Hc1 as [libs1 [Hl1 [-> _]]].
  apply collect_Ok_inv in Hc2. destruct Hc2 as [libs2 [Hl2 [-> _]]].
  pose proof (scan_libs_same_members env1 env2 w target_path libs1 libs2
                H1 H2 Hp Hl1 Hl2) as Hmem.
  set (srcs1 := set_order env1 (scan_sources w target_path)).
  set (srcs2 := set_order env2 (scan_sources w target_path)).
  assert (Hsrc : forall s, In s srcs1 <-> In s srcs2)
    by (intros s; unfold srcs1, srcs2; now rewrite !set_order_In).
  assert (Hn1 : NoDup srcs1)
    by (apply set_order_NoDup; auto; apply scan_sources_NoDup).
  assert (Hn2 : NoDup srcs2)
    by (apply set_order_NoDup; auto; apply scan_sources_NoDup).
  destruct (scan_libs_inv env1 w _ _ H1 Hl1) as [Hd1 _].
  destruct (scan_libs_inv env2 w _ _ H2 Hl2) as [Hd2 _].
  pose proof (reconcile_sorted w srcs1 libs1) as Hs1.
  pose proof (reconcile_sorted w srcs2 libs2) as Hs2.
  assert (Hperm : Permutation (planned w srcs1 libs1)
                    (planned w srcs2 libs2)).
  { apply NoDup_Permutation;
      [apply (reconcile_entries w srcs1 libs1 Hn1 Hd1)
      |apply (reconcile_entries w srcs2 libs2 Hn2 Hd2)|].
    intros e. rewrite (reconcile_In w srcs1 libs1 e Hd1).
    rewrite (reconcile_In w srcs2 libs2 e Hd2).
    split; (intros [[s H] | [l H]]; [left; exists s | right; exists l]).
    - rewrite <- Hsrc. exact H.
    - destruct H as [Ha [Hb [Hc [Hd He]]]]. rewrite <- Hmem.
      repeat split; auto. intros s Hs. apply Hd. now rewrite Hsrc.
    - rewrite Hsrc. exact H.
    - destruct H as [Ha [Hb [Hc [Hd He]]]]. rewrite Hmem.
      repeat split; auto. intros s Hs. apply Hd. now rewrite <- Hsrc. }
  split; [exact Hperm|].
  intros Hpaths. apply (sorted_unique path_le); auto.
  intros a b Ha Hb Hab Hba.
  assert (Heq : path a = path b).
  { unfold path_le, str_le in *. now apply str_ltb_total. }
  clear - Ha Hb Heq Hpaths.
  induction (planned w srcs1 libs1) as [|x es IH]; [contradiction|].
  cbn [map] in Hpaths. inversion Hpaths as [|? ? Hx Hrest]; subst.
  destruct Ha as [-> | Ha]; destruct Hb as [-> | Hb]; auto.
  - exfalso. apply Hx. rewrite Heq. now apply in_map.
  - exfalso. apply Hx. rewrite <- Heq. now apply in_map.
Qed.

Lemma collect_target_platform_plugins_order_independent_witness :
  _collect_target_platform_plugins Fixtures.E_ok Fixtures.w_proj
    (lit "/eclipse") =
  Ok [lib_entry Fixtures.baz_binary (Some Fixtures.baz_source);
      lib_entry (lit "/eclipse/plugins/org.bar_2.0.jar") None;
      lib_entry Fixtures.foo_binary (Some Fixtures.foo_source)] /\
  _collect_target_platform_plugins E_rev Fixtures.w_proj (lit "/eclipse") =
  Ok [lib_entry Fixtures.baz_binary (Some Fixtures.baz_source);
      lib_entry (lit "/eclipse/plugins/org.bar_2.0.jar") None;
      lib_entry Fixtures.foo_binary (Some Fixtures.foo_source)].
Proof.
  assert (H1 : _collect_target_platform_plugins Fixtures.E_ok Fixtures.w_proj
                 (lit "/eclipse") =
               Ok [lib_entry Fixtures.baz_binary (Some Fixtures.baz_source);
                   lib_entry (lit "/eclipse/plugins/org.bar_2.0.jar") None;
                   lib_entry Fixtures.foo_binary (Some Fixtures.foo_source)])
    by (vm_compute; reflexivity).
  destruct (_collect_target_platform_plugins E_rev Fixtures.w_proj
              (lit "/eclipse")) as [es2|e] eqn:H2;
    [|vm_compute in H2; discriminate].
  destruct (collect_target_platform_plugins_order_independent
              Fixtures.E_ok E_rev Fixtures.w_proj (lit "/eclipse") _ es2
              (fun l => Permutation_refl l)
              (fun l => Permutation_sym (Permutation_rev l))
              eq_refl H1 H2) as [_ Heq].
  split; [exact H1|]. f_equal. symmetry. apply Heq.
  vm_compute. repeat constructor; simpl; intuition discriminate.
Defined.


(** ** Replacing the source marker *)

Lemma replace_from_skip (old new : str) (k : nat) (s : str) :
  replace_from old new k s = replace_from old new 0 (skipn k s).
Proof.
  revert k. induction s as [|c s IH]; intros [|k]; try reflexivity.
  cbn [replace_from skipn]. apply IH.
Qed.

Lemma replace_cons (old new : str) (c : char) (s : str) :
  replace old new (c :: s) =
  if startswith old (c :: s)
  then new ++ replace old new (skipn (length old - 1) s)
  else c :: replace old new s.
Proof.
  unfold replace. cbn [replace_from].
  destruct (startswith old (c :: s)); auto.
  now rewrite replace_from_skip.
Qed.

Lemma replace_absent (old new s : str) :
  contains old s = false -> replace old new s = s.
Proof.
  induction s as [|c s IH]; intros H; [reflexivity|].
  cbn [contains] in H. apply orb_false_iff in H. destruct H as [H1 H2].
  rewrite replace_cons, H1, IH; auto.
Qed.

Lemma forallb_skipn {A : Type} (f : A -> bool) (k : nat) (l : list A) :
  forallb f l = true -> forallb f (skipn k l) = true.
Proof.
  revert l. induction k as [|k IH]; intros [|x l] H; auto.
  cbn [skipn]. apply IH. cbn [forallb] in H.
  apply andb_true_iff in H. tauto.
Qed.

Lemma startswith_length (p s : str) :
  startswith p s = true -> length p <= length s.
Proof.
  rewrite startswith_iff. intros [t ->]. rewrite length_app. lia.
Qed.

(** Replacing a marker by a shorter text: every character of the result
    comes from the name or from the new text, the result is never
    longer, and it is shorter as soon as the marker occurs. *)
Lemma replace_shrinks (old new : str) (f : char -> bool) (s : str) :
  length new < length old ->
  (forallb f new = true -> forallb f s = true ->
   forallb f (replace old new s) = true) /\
  length (replace old new s) <= length s /\
  (contains old s = true -> length (replace old new s) < length s).
Proof.
  intros Hlen.
  assert (H : forall n s, length s <= n ->
             (forallb f new = true -> forallb f s = true ->
              forallb f (replace old new s) = true) /\
             length (replace old new s) <= length s /\
             (contains old s = true ->
              length (replace old new s) < length s)).
  { induction n as [|n IH]; intros s0 Hn.
    - destruct s0; [|simpl in Hn; lia].
      repeat split; auto.
      cbn [contains]. rewrite orb_false_r. intros Hc.
      apply startswith_length in Hc. simpl in Hc. lia.
    - destruct s0 as [|c s0].
      + repeat split; auto.
        cbn [contains]. rewrite orb_false_r. intros Hc.
        apply startswith_length in Hc. simpl in Hc. lia.
      + simpl in Hn. rewrite replace_cons.
        destruct (startswith old (c :: s0)) eqn:Hs.
        * pose proof (startswith_length _ _ Hs) as Hl. simpl in Hl.
          assert (Hk : length (skipn (length old - 1) s0) <= n)
            by (rewrite length_skipn; lia).
          destruct (IH _ Hk) as [H1 [H2 _]].
          rewrite length_skipn in H2.
          repeat split.
          -- intros Hnew Hall. rewrite forallb_app, Hnew. apply H1; auto.
             apply forallb_skipn. cbn [forallb] in Hall.
             apply andb_true_iff in Hall. tauto.
          -- rewrite length_app. simpl. lia.
          -- intros _. rewrite length_app. simpl. lia.
        * assert (Hk : length s0 <= n) by lia.
          destruct (IH _ Hk) as [H1 [H2 H3]].
          repeat split.
          -- intros Hnew Hall. cbn [forallb] in Hall |- *.
             apply andb_true_iff in Hall. destruct Hall as [-> Hall].
             now apply H1.
          -- simpl. lia.
          -- cbn [contains]. rewrite Hs. cbn [orb]. intros Hc.
             apply H3 in Hc. simpl. lia. }
  now apply (H (length s)).
Qed.

(** ** The derived sibling *)

Lemma parent_joinpath (d n : str) :
  plain_dir d -> forallb not_slash n = true -> parent (joinpath d n) = d.
Proof.
  intros Hd Hslash.
  destruct (joinpath_parts d n Hd Hslash) as [d' [Hj [Hd' Hp]]].
  destruct (dirpart_basename_of d' n Hslash Hd') as [Hdir _].
  unfold parent. now rewrite Hj, Hdir.
Qed.

(** X8.  For a file [n] in a directory [d], the binary sibling derived
    from [d/n] is the file in the same directory whose name is [n] with
    every occurrence of the source marker replaced by an underscore.
    When the marker occurs in [n], as it does in every name the source
    scan matches, the sibling's name is shorter and the sibling is a
    different path; when it does not occur, the sibling is [d/n]
    itself. *)
Theorem sibling_in_same_directory :
  forall (d n : str),
    plain_dir d -> plain_name n ->
    let n' := replace (lit ".source_") (lit "_") n in
    sibling (joinpath d n) = joinpath d n' /\
    parent (sibling (joinpath d n)) = d /\
    (contains (lit ".source_") n = true ->
     length n' < length n /\ sibling (joinpath d n) <> joinpath d n) /\
    (contains (lit ".source_") n = false ->
     sibling (joinpath d n) = joinpath d n).
Proof.
  intros d n Hd Hn n'. pose proof Hn as [Hslash _].
  destruct (parent_name_joinpath d n Hd Hn) as [Hp Hname].
  assert (Hsib : sibling (joinpath d n) = joinpath d n').
  { unfold sibling. now rewrite Hp, Hname. }
  destruct (replace_shrinks (lit ".source_") (lit "_") not_slash n)
    as [Hs' [_ Hshort]]; [simpl; lia|].
  split; [exact Hsib|]. split; [|split].
  - rewrite Hsib. apply parent_joinpath; auto.
  - intros Hc. specialize (Hshort Hc). split; [exact Hshort|].
    rewrite Hsib. intros Heq. apply joinpath_inj in Heq.
    fold n' in Hshort. rewrite Heq in Hshort. lia.
  - intros Hc. rewrite Hsib. unfold n'. now rewrite replace_absent.
Qed.

Lemma sibling_in_same_directory_witness :
  sibling (lit "/eclipse/plugins/org.foo.source_1.0.jar") =
  lit "/eclipse/plugins/org.foo_1.0.jar" /\
  parent (sibling (lit "/eclipse/plugins/org.foo.source_1.0.jar")) =
  lit "/eclipse/plugins".
Proof.
  destruct (sibling_in_same_directory (lit "/eclipse/plugins")
              (lit "org.foo.source_1.0.jar")) as [H1 [H2 _]].
  - split; [discriminate | intros H; discriminate H].
  - split; [reflexivity | discriminate].
  - split; [exact H1 | exact H2].
Defined.

(** ** Locating the project *)

Lemma find_first {A : Type} (f : A -> bool) (l : list A) (x : A) :
  find f l = Some x <->
  exists before after,
    l = before ++ x :: after /\ f x = true /\
    forall y, In y before -> f y = false.
Proof.
  induction l as [|a l IH]; simpl.
  - split; [discriminate|]. intros [[|b before] [after [H _]]]; discriminate.
  - destruct (f a) eqn:Ha.
    + split.
      * intros [= ->]. exists [], l. repeat split; auto. intros y [].
      * intros [[|b before] [after [H [Hx Hall]]]].
        -- now inversion H.
        -- inversion H; subst. rewrite (Hall b) in Ha by (now left).
           discriminate.
    + rewrite IH. split.
      * intros [before [after [-> [Hx Hall]]]].
        exists (a :: before), after. repeat split; auto.
        intros y [<- | Hy]; auto.
      * intros [[|b before] [after [H [Hx Hall]]]].
        -- inversion H; subst. congruence.
        -- inversion H; subst. exists before, after. repeat split; auto.
           intros y Hy. apply Hall. now right.
Qed.

Lemma parent_shorter (p : str) :
  p <> [] -> parent p <> p ->
  parent p <> [] /\ (parent p = dot \/ length (parent p) < length p).
Proof.
  intros Hne Hpp. unfold parent in *.
  pose proof (take_drop_while not_slash (rev p)) as Hsplit.
  apply (f_equal (@rev char)) in Hsplit.
  rewrite rev_involutive, rev_app_distr in Hsplit.
  fold (dirpart p) in Hsplit. fold (basename p) in Hsplit.
  destruct (dirpart p) as [|c r] eqn:Hd.
  - split; [discriminate | now left].
  - rewrite <- Hd in *. destruct (forallb (N.eqb slash) (dirpart p)) eqn:Hall.
    + split; [rewrite Hd; discriminate|]. right.
      destruct (basename p) as [|b bs].
      * rewrite app_nil_r in Hsplit. congruence.
      * rewrite Hsplit at 2. rewrite length_app. simpl. lia.
    + assert (Hlen : length (removelast (dirpart p)) < length (dirpart p)).
      { rewrite Hd. destruct (exists_last (l := c :: r)) as [q [x Hq]];
          [discriminate|]. rewrite Hq, removelast_last, length_app.
        simpl. lia. }
      split.
      * rewrite Hd in Hall |- *. destruct r as [|c' r].
        -- exfalso. clear - Hd Hall.
           assert (Hc : c = slash).
           { unfold dirpart in Hd.
             assert (Hr : drop_while not_slash (rev p) = [c]).
             { rewrite <- (rev_involutive (drop_while _ _)), Hd.
               reflexivity. }
             clear Hd. induction (rev p) as [|x l IH]; [discriminate|].
             simpl in Hr. destruct (not_slash x) eqn:Hx; auto.
             inversion Hr; subst. unfold not_slash in Hx.
             apply negb_false_iff in Hx. now apply N.eqb_eq in Hx. }
           subst c. discriminate.
        -- discriminate.
      * right. rewrite Hsplit at 2. rewrite length_app. lia.
Qed.

Lemma parents_fuel_bound (k : nat) (p q : str) :
  p <> [] -> In q (parents_fuel k p) ->
  q <> [] /\ (length q < length p \/ (q = dot /\ p <> dot)).
Proof.
  revert p. induction k as [|k IH]; intros p Hne Hin; [contradiction|].
  cbn [parents_fuel] in Hin.
  destruct (str_eqb (parent p) p) eqn:Heq; [contradiction|].
  apply str_eqb_neq in Heq.
  destruct (parent_shorter p Hne Heq) as [Hpne Hlen].
  destruct Hin as [<- | Hin].
  - split; auto. destruct Hlen as [Hdot | Hlt]; auto.
    right. split; auto. congruence.
  - destruct (IH _ Hpne Hin) as [Hq Hb]. split; auto.
    destruct Hlen as [Hdot | Hlt].
    + rewrite Hdot in Hin. destruct k; contradiction.
    + destruct Hb as [Hb | [-> Hb]]; [left; lia|].
      destruct (Nat.eq_dec (length p) 1) as [H1 | H1].
      * exfalso. destruct (parent p) as [|x [|y t]]; simpl in Hlt;
          try lia. congruence.
      * destruct p as [|a [|b t]]; simpl in *; try congruence; try lia.
Qed.

Lemma Path_nonempty (s : str) : Path s <> [].
Proof.
  unfold Path. destruct (root_of s ++ join [slash] _); discriminate.
Qed.

Lemma find_rev_seq {A : Type} (f : A -> bool) (g : nat -> A) (n : nat) :
  (forall x,
      find f (map g (rev (seq 0 n))) = Some x <->
      exists k, k < n /\ x = g k /\ f (g k) = true /\
                forall j, k < j < n -> f (g j) = false) /\
  (find f (map g (rev (seq 0 n))) = None <->
   forall k, k < n -> f (g k) = false).
Proof.
  induction n as [|n [IHs IHn]].
  - cbn. split.
    + intros x. split; [discriminate|]. intros [k [Hk _]]. lia.
    + split; auto. intros _ k Hk. lia.
  - rewrite seq_S, rev_app_distr. cbn [rev app map find Nat.add].
    destruct (f (g n)) eqn:Hn.
    + split.
      * intros x. split.
        -- intros [= <-]. exists n. repeat split; auto; try lia.
        -- intros [k [Hk [-> [Hfk Hall]]]].
           destruct (Nat.eq_dec k n) as [-> | Hne]; auto.
           rewrite (Hall n) in Hn by lia. discriminate.
      * split; [discriminate|]. intros H. rewrite (H n) in Hn by lia.
        discriminate.
    + split.
      * intros x. rewrite IHs. split.
        -- intros [k [Hk [-> [Hfk Hall]]]]. exists k.
           repeat split; auto; try lia. intros j Hj.
           destruct (Nat.eq_dec j n) as [-> | Hne]; auto.
           apply Hall. lia.
        -- intros [k [Hk [-> [Hfk Hall]]]].
           assert (k <> n) by (intros ->; congruence).
           exists k. repeat split; auto; try lia.
           intros j Hj. apply Hall. lia.
      * rewrite IHn. split.
        -- intros H k Hk. destruct (Nat.eq_dec k n) as [-> | Hne]; auto.
           apply H. lia.
        -- intros H k Hk. apply H. lia.
Qed.

Lemma component_head (c : str) :
  component c -> exists x t, c = x :: t /\ N.eqb x slash = false.
Proof.
  intros [Hne [Hfree _]]. destruct c as [|x t]; [congruence|].
  exists x, t. split; auto. unfold slash_free in Hfree.
  cbn [forallb] in Hfree. apply andb_true_iff in Hfree.
  destruct Hfree as [Hx _]. unfold not_slash in Hx.
  now apply negb_true_iff in Hx.
Qed.

Lemma slashed_head (l : list str) :
  l <> [] -> Forall component l ->
  exists x t, slashed l = x :: t /\ N.eqb x slash = false.
Proof.
  destruct l as [|c l]; [congruence|]. intros _ Hall.
  inversion Hall as [|? ? Hc _]; subst.
  destruct (component_head c Hc) as [x [t [-> Hx]]].
  destruct l; cbn [slashed app]; eauto.
Qed.

Lemma dir_of_snoc (l : list str) (c : str) :
  Forall component l ->
  exists d,
    dir_of (l ++ [c]) = d ++ c /\ endswith [slash] d = true /\
    (if forallb (N.eqb slash) d then d else removelast d) = dir_of l.
Proof.
  intros Hl. unfold dir_of. destruct l as [|c1 l].
  - exists [slash]. repeat split; reflexivity.
  - exists ((slash :: slashed (c1 :: l)) ++ [slash]).
    rewrite slashed_snoc by discriminate.
    split.
    { rewrite <- (app_assoc (slash :: slashed (c1 :: l)) [slash] c).
      reflexivity. }
    split; [apply endswith_app_slash|].
    destruct (slashed_head (c1 :: l)) as [x [t [Hs Hx]]];
      [discriminate | assumption|].
    rewrite Hs. cbn [app forallb]. rewrite (N.eqb_sym slash x), Hx.
    change (N.eqb slash slash) with true. cbn [andb]. change (slash :: x :: t ++ [slash])
      with ((slash :: x :: t) ++ [slash]).
    apply removelast_last.
Qed.

Lemma parent_dir_of (l : list str) (c : str) :
  Forall component l -> component c ->
  parent (dir_of (l ++ [c])) = dir_of l.
Proof.
  intros Hl [_ [Hfree _]].
  destruct (dir_of_snoc l c Hl) as [d [Hd [He Hp]]].
  destruct (dirpart_basename_of d c Hfree (or_intror He)) as [Hdir _].
  unfold parent. rewrite Hd, Hdir.
  apply endswith_slash_inv in He. destruct He as [q Hq].
  destruct d as [|a d]; [destruct q; discriminate|]. exact Hp.
Qed.

Lemma length_dir_of_snoc (l : list str) (c : str) :
  Forall component l -> component c ->
  length (dir_of l) < length (dir_of (l ++ [c])).
Proof.
  intros Hl [Hne _]. unfold dir_of. destruct l as [|c1 l].
  - destruct c; [congruence|]. cbn. lia.
  - rewrite slashed_snoc by discriminate. cbn [length].
    rewrite length_app. cbn [length]. lia.
Qed.

Lemma parents_fuel_dir_of (l : list str) (fuel : nat) :
  Forall component l -> length l < fuel ->
  parents_fuel fuel (dir_of l) =
  map (fun k => dir_of (firstn k l)) (rev (seq 0 (length l))).
Proof.
  revert fuel. induction l as [|c l IH] using rev_ind; intros fuel Hl Hf.
  - destruct fuel; [lia|]. reflexivity.
  - apply Forall_app in Hl. destruct Hl as [Hl Hc].
    inversion Hc as [|? ? Hc' _]; subst.
    rewrite length_app in *. cbn [length] in *.
    destruct fuel as [|fuel]; [lia|]. cbn [parents_fuel].
    rewrite (parent_dir_of l c Hl Hc').
    destruct (str_eqb (dir_of l) (dir_of (l ++ [c]))) eqn:Heq.
    { apply str_eqb_eq in Heq.
      pose proof (length_dir_of_snoc l c Hl Hc') as Hlt.
      rewrite <- Heq in Hlt. lia. }
    rewrite (IH fuel Hl) by lia.
    replace (length l + 1) with (S (length l)) by lia.
    rewrite seq_S, rev_app_distr. cbn [rev app map Nat.add].
    rewrite firstn_app, firstn_all, Nat.sub_diag. cbn [firstn].
    rewrite app_nil_r. f_equal.
    apply map_ext_in. intros k Hk. apply in_rev in Hk.
    apply in_seq in Hk. rewrite firstn_app.
    replace (k - length l) with 0 by lia. cbn [firstn].
    now rewrite app_nil_r.
Qed.

Lemma length_slashed (l : list str) :
  Forall component l -> length l <= length (slashed l).
Proof.
  induction l as [|c l IH]; [cbn; lia|]. intros Hall.
  inversion Hall as [|? ? [Hne _] Hl]; subst. specialize (IH Hl).
  destruct c as [|x c]; [congruence|].
  destruct l as [|c' l]; [cbn; lia|].
  change (slashed ((x :: c) :: c' :: l))
    with ((x :: c) ++ slash :: slashed (c' :: l)).
  rewrite length_app. cbn [length] in *. lia.
Qed.

Lemma parents_dir_of (l : list str) :
  Forall component l ->
  parents (dir_of l) =
  map (fun k => dir_of (firstn k l)) (rev (seq 0 (length l))).
Proof.
  intros Hl. unfold parents. apply parents_fuel_dir_of; auto.
  pose proof (length_slashed l Hl). unfold dir_of. cbn [length]. lia.
Qed.

Lemma join_slashed (l : list str) : join [slash] l = slashed l.
Proof.
  induction l as [|c l IH]; [reflexivity|].
  destruct l as [|c' l]; [reflexivity|].
  change (join [slash] (c :: c' :: l))
    with (c ++ [slash] ++ join [slash] (c' :: l)).
  now rewrite IH.
Qed.

Lemma root_of_single (x : char) (t : str) :
  N.eqb x slash = false -> root_of (slash :: x :: t) = [slash].
Proof.
  intros Hx. unfold root_of, slash in *.
  destruct x as [|p]; [reflexivity|].
  repeat (destruct p as [p|p|]; try reflexivity; try discriminate Hx).
Qed.

Lemma split_slash_dir_of (l : list str) :
  l <> [] -> Forall component l -> split_slash (dir_of l) = [] :: l.
Proof.
  intros Hne Hl.
  assert (Hd : dir_of l = slashed ([] :: l)).
  { unfold dir_of. destruct l; [congruence | reflexivity]. }
  rewrite Hd. apply split_slash_slashed; [discriminate|].
  constructor; [reflexivity|].
  eapply Forall_impl; [|exact Hl]. intros c [_ [Hc _]]. exact Hc.
Qed.

Lemma no_dotdot_component (l : list str) :
  Forall component l -> existsb (str_eqb dotdot) l = false.
Proof.
  induction l as [|c l IH]; [reflexivity|]. intros Hl.
  inversion Hl as [|? ? [_ [_ [_ Hdd]]] Hl']; subst.
  cbn [existsb]. rewrite (IH Hl'), orb_false_r.
  apply str_eqb_neq. intros H. apply Hdd. symmetry. exact H.
Qed.

Lemma has_dotdot_dir_of (l : list str) :
  Forall component l -> has_dotdot (dir_of l) = false.
Proof.
  intros Hl. unfold has_dotdot. destruct l as [|c l]; [reflexivity|].
  rewrite split_slash_dir_of by (discriminate || assumption).
  cbn [existsb]. change (str_eqb dotdot []) with false. cbn [orb].
  now apply (no_dotdot_component (c :: l)).
Qed.

Lemma keep_components (l : list str) :
  Forall component l ->
  filter (fun c => negb (str_eqb c [] || str_eqb c dot)) l = l.
Proof.
  induction l as [|c l IH]; [reflexivity|]. intros Hl.
  inversion Hl as [|? ? [Hne [_ [Hdot _]]] Hl']; subst.
  cbn [filter]. rewrite (IH Hl').
  apply str_eqb_neq in Hne. apply str_eqb_neq in Hdot.
  change (lit ".") with dot in Hdot. now rewrite Hne, Hdot.
Qed.

Lemma Path_dir_of (l : list str) :
  Forall component l -> Path (dir_of l) = dir_of l.
Proof.
  intros Hl. destruct l as [|c l]; [reflexivity|].
  unfold Path. rewrite split_slash_dir_of by (discriminate || assumption).
  assert (Hkeep : filter (fun c0 => negb (str_eqb c0 [] || str_eqb c0 dot))
                    ([] :: c :: l) = c :: l)
    by exact (keep_components (c :: l) Hl).
  rewrite Hkeep, join_slashed.
  destruct (slashed_head (c :: l)) as [x [t [Hs Hx]]];
    [discriminate | assumption|].
  unfold dir_of. rewrite Hs, (root_of_single x t Hx). reflexivity.
Qed.

Lemma endswith_dir_of (l : list str) :
  l <> [] -> Forall component l -> endswith [slash] (dir_of l) = false.
Proof.
  intros Hne Hl. destruct (exists_last Hne) as [l' [c ->]].
  apply Forall_app in Hl. destruct Hl as [_ Hc].
  inversion Hc as [|? ? [Hcne [Hfree _]] _]; subst.
  destruct (exists_last Hcne) as [c0 [y ->]].
  unfold slash_free in Hfree. rewrite forallb_app in Hfree.
  apply andb_true_iff in Hfree. destruct Hfree as [_ Hy].
  cbn [forallb] in Hy. rewrite andb_true_r in Hy.
  unfold not_slash in Hy. apply negb_true_iff in Hy.
  assert (Hq : exists q, dir_of (l' ++ [c0 ++ [y]]) = q ++ [y]).
  { unfold dir_of. destruct l' as [|c1 l'].
    - exists (slash :: c0). reflexivity.
    - rewrite slashed_snoc by discriminate.
      exists (slash :: slashed (c1 :: l') ++ slash :: c0).
      cbn [app]. rewrite <- app_assoc. reflexivity. }
  destruct Hq as [q Hq].
  transitivity (endswith [slash] (q ++ [y])); [f_equal; exact Hq|].
  unfold endswith. rewrite rev_app_distr.
  cbn [rev app startswith]. rewrite (N.eqb_sym slash y), Hy. reflexivity.
Qed.

Lemma joinpath_dir_of (l : list str) (n : str) :
  Forall component l -> joinpath (dir_of l) n = dir_of (l ++ [n]).
Proof.
  intros Hl. unfold joinpath.
  change (str_eqb (dir_of l) dot) with false. cbv iota.
  destruct l as [|c l]; [reflexivity|].
  rewrite endswith_dir_of by (discriminate || assumption).
  unfold dir_of. rewrite slashed_snoc by discriminate. reflexivity.
Qed.

Lemma is_file_dir_of (w : World) (l : list str) :
  Forall component l ->
  is_file w (dir_of l) = true <-> file_at w (dir_of l).
Proof.
  intros Hl. unfold is_file, file_at.
  rewrite stat_plain by now apply has_dotdot_dir_of.
  unfold abspath. rewrite (has_dotdot_dir_of l Hl).
  change (startswith [slash] (dir_of l)) with true. cbv iota.
  destruct (fs_lookup (dir_of l) (fs w)) as [[|text]|]; split;
    try discriminate; eauto; intros [t H]; discriminate.
Qed.

Lemma Forall_component_firstn (k : nat) (l : list str) :
  Forall component l -> Forall component (firstn k l).
Proof.
  intros Hl. apply Forall_forall. intros c Hc.
  apply (proj1 (Forall_forall _ _) Hl). revert Hc. clear.
  revert l. induction k as [|k IH]; intros [|x l]; cbn [firstn];
    try contradiction.
  intros [<- | H]; [now left | right; now apply IH].
Qed.

Lemma is_project_dir_of (w : World) (l : list str) :
  Forall component l ->
  is_file w (joinpath (dir_of l) (lit ".project"))
  && is_file w (joinpath (dir_of l) (lit "pom.xml")) = true
  <-> project_at w l.
Proof.
  intros Hl. rewrite !joinpath_dir_of by assumption.
  assert (Hc : forall n, component n -> Forall component (l ++ [n])).
  { intros n Hn. apply Forall_app. auto. }
  unfold project_at. rewrite andb_true_iff.
  rewrite !is_file_dir_of; [reflexivity| |]; apply Hc;
    repeat split; discriminate.
Qed.

(** X9.  The project directory as [build_classpath] finds it.  It is
    never the given path itself, even when that is the project
    directory: only proper ancestors are looked at.  For an absolute,
    normalised file name the result is the nearest ancestor directory
    that holds both a [.project] and a [pom.xml] file, every ancestor
    nearer to the file lacking one of them; without such an ancestor
    there is no result. *)
Theorem find_eclipse_jdtls_project_directory_nearest :
  forall (w : World),
    (forall filename d,
        find_eclipse_jdtls_project_directory w filename = Some d ->
        d <> Path filename) /\
    (forall comps,
        Forall component comps ->
        (forall d,
            find_eclipse_jdtls_project_directory w (dir_of comps) = Some d <->
            exists k,
              k < length comps /\ d = dir_of (firstn k comps) /\
              project_at w (firstn k comps) /\
              forall j, k < j < length comps ->
                        ~ project_at w (firstn j comps)) /\
        (find_eclipse_jdtls_project_directory w (dir_of comps) = None <->
         forall k, k < length comps -> ~ project_at w (firstn k comps))).
Proof.
  intros w. split.
  - intros filename d Hd. unfold find_eclipse_jdtls_project_directory in Hd.
    apply find_some in Hd. destruct Hd as [Hin _]. unfold parents in Hin.
    apply parents_fuel_bound in Hin; [|apply Path_nonempty].
    destruct Hin as [_ [Hlt | [-> Hne]]]; [|congruence].
    intros ->. lia.
  - intros comps Hc. unfold find_eclipse_jdtls_project_directory.
    rewrite (Path_dir_of comps Hc), (parents_dir_of comps Hc).
    set (f := fun parent : str =>
                is_file w (joinpath parent (lit ".project"))
                && is_file w (joinpath parent (lit "pom.xml"))).
    set (g := fun k : nat => dir_of (firstn k comps)).
    destruct (find_rev_seq f g (length comps)) as [Hsome Hnone].
    assert (Hyes : forall k, f (g k) = true <-> project_at w (firstn k comps)).
    { intros k. apply is_project_dir_of. now apply Forall_component_firstn. }
    assert (Hno : forall k, f (g k) = false <-> ~ project_at w (firstn k comps)).
    { intros k. rewrite <- Hyes. destruct (f (g k)); split; congruence. }
    split.
    + intros d. rewrite Hsome. split.
      * intros [k [Hk [-> [Hfk Hall]]]]. exists k.
        split; [exact Hk|]. split; [reflexivity|].
        split; [now apply Hyes|]. intros j Hj. apply Hno. now apply Hall.
      * intros [k [Hk [-> [Hfk Hall]]]]. exists k.
        split; [exact Hk|]. split; [reflexivity|].
        split; [now apply Hyes|]. intros j Hj. apply Hno. now apply Hall.
    + rewrite Hnone. split; intros H k Hk; apply Hno; now apply H.
Qed.

Lemma find_eclipse_jdtls_project_directory_nearest_witness :
  find_eclipse_jdtls_project_directory Fixtures.w_start
    (lit "/work/proj/src/Main.java") = Some (lit "/work/proj").
Proof.
  assert (Hc : Forall component
                 [lit "work"; lit "proj"; lit "src"; lit "Main.java"])
    by (repeat constructor; discriminate).
  apply (proj1 (proj2 (find_eclipse_jdtls_project_directory_nearest
                         Fixtures.w_start) _ Hc)
           (lit "/work/proj")).
  exists 2. split; [cbn; lia|]. split; [reflexivity|]. split.
  - split; eexists; vm_compute; reflexivity.
  - intros j Hj. cbn [length] in Hj. assert (j = 3) by lia. subst j.
    intros [[text H] _]. vm_compute in H. discriminate.
Defined.

(** Reached through [..] from a directory below the project, the
    project directory is returned as it is written, [..]. *)
Example find_project_through_dotdot :
  find_eclipse_jdtls_project_directory w_src (lit "../src/Main.java")
  = Some (lit "..") /\
  is_file w_src (lit "../pom.xml") = true /\
  is_file w_src (lit "ghost/../pom.xml") = false.
Proof. repeat split; vm_compute; reflexivity. Qed.

(** ** Reading the tool's list back *)

Lemma replace_colon_cons (c : char) (s : str) :
  replace (lit ":") nl (c :: s) =
  if N.eqb 58 c then nl ++ replace (lit ":") nl s
  else c :: replace (lit ":") nl s.
Proof.
  rewrite replace_cons.
  change (startswith (lit ":") (c :: s)) with (N.eqb 58 c && true).
  rewrite andb_true_r. reflexivity.
Qed.

Lemma replace_colon_free (p rest : str) :
  contains (lit ":") p = false ->
  replace (lit ":") nl (p ++ rest) = p ++ replace (lit ":") nl rest.
Proof.
  induction p as [|c p IH]; intros H; [reflexivity|].
  cbn [contains] in H. apply orb_false_iff in H. destruct H as [H1 H2].
  change (startswith (lit ":") (c :: p)) with (N.eqb 58 c && true) in H1.
  rewrite andb_true_r in H1.
  cbn [app]. rewrite replace_colon_cons, H1, IH; auto.
Qed.

Lemma replace_colon_join (paths : list str) :
  Forall (fun p => listable p = true) paths ->
  replace (lit ":") nl (join (lit ":") paths) = join nl paths.
Proof.
  induction paths as [|p paths IH]; intros H; [reflexivity|].
  inversion H as [|? ? Hp Hrest]; subst.
  unfold listable in Hp. apply andb_true_iff in Hp.
  destruct Hp as [_ Hp]. apply negb_true_iff in Hp.
  destruct paths as [|q paths].
  - cbn [join]. rewrite <- (app_nil_r p) at 1.
    rewrite replace_colon_free by assumption. now rewrite app_nil_r.
  - rewrite !join_cons2. rewrite replace_colon_free by assumption.
    change (lit ":" ++ join (lit ":") (q :: paths))
      with (58%N :: join (lit ":") (q :: paths)).
    rewrite replace_colon_cons. cbn [N.eqb Pos.eqb]. now rewrite IH.
Qed.

Lemma splitlines_from_last (cur l : str) :
  one_line l = true -> cur ++ l <> [] ->
  splitlines_from cur l = [cur ++ l].
Proof.
  revert cur. induction l as [|c l IH]; intros cur Hl Hne.
  - destruct cur; [exfalso; apply Hne; reflexivity|].
    now rewrite app_nil_r.
  - cbn [one_line forallb] in Hl. apply andb_true_iff in Hl.
    destruct Hl as [Hc Hl]. apply negb_true_iff in Hc.
    cbn [splitlines_from].
    assert (H13 : N.eqb c 13 = false).
    { destruct (N.eqb c 13) eqn:H; auto. apply N.eqb_eq in H. subst c.
      discriminate. }
    rewrite H13, Hc. rewrite IH; auto.
    + now rewrite <- app_assoc.
    + rewrite <- app_assoc. destruct cur; discriminate.
Qed.

Lemma splitlines_join (paths : list str) :
  Forall (fun p => one_line p = true) paths ->
  last paths [10%N] <> [] ->
  splitlines (join nl paths) = paths.
Proof.
  unfold splitlines. induction paths as [|p paths IH]; intros H Hlast;
    [reflexivity|].
  inversion H as [|? ? Hp Hrest]; subst.
  destruct paths as [|q paths].
  - cbn [join]. rewrite splitlines_from_last; auto.
  - rewrite join_cons2, splitlines_from_line by assumption.
    rewrite IH; auto.
Qed.

Lemma contains_colon (s : str) :
  contains (lit ":") s = negb (forallb no_colon s).
Proof.
  induction s as [|c s IH]; [reflexivity|].
  cbn [contains forallb].
  change (startswith (lit ":") (c :: s)) with (N.eqb 58 c && true).
  rewrite andb_true_r, IH. unfold no_colon.
  destruct (N.eqb 58 c); reflexivity.
Qed.

Lemma replace_colon_no_colon (s : str) :
  forallb no_colon (replace (lit ":") nl s) = true.
Proof.
  induction s as [|c s IH]; [reflexivity|].
  rewrite replace_colon_cons. destruct (N.eqb 58 c) eqn:Hc.
  - exact IH.
  - cbn [forallb]. unfold no_colon at 1. now rewrite Hc, IH.
Qed.

Lemma splitlines_from_forallb (g : char -> bool) (cur s : str) :
  forallb g cur = true -> forallb g s = true ->
  Forall (fun l => forallb g l = true) (splitlines_from cur s).
Proof.
  assert (H : forall n s cur,
             length s <= n -> forallb g cur = true -> forallb g s = true ->
             Forall (fun l => forallb g l = true) (splitlines_from cur s)).
  { clear. induction n as [|n IH]; intros s cur Hn Hcur Hs.
    - destruct s; [|simpl in Hn; lia]. simpl.
      destruct cur; constructor; auto.
    - destruct s as [|c s].
      + simpl. destruct cur; constructor; auto.
      + simpl in Hn. cbn [forallb] in Hs. apply andb_true_iff in Hs.
        destruct Hs as [Hc Hs]. cbn [splitlines_from].
        destruct (N.eqb c 13).
        * destruct s as [|d s'].
          -- constructor; auto.
          -- assert (Hds : forallb g (d :: s') = true) by exact Hs.
             cbn [forallb] in Hs. apply andb_true_iff in Hs.
             destruct Hs as [Hd Hs']. simpl in Hn.
             destruct (N.eqb d 10); constructor; auto; apply IH; auto;
               simpl; lia.
        * destruct (is_linebreak c).
          -- constructor; auto. apply IH; auto. lia.
          -- apply IH; auto; [lia|]. rewrite forallb_app, Hcur.
             cbn [forallb]. now rewrite Hc. }
  intros Hcur Hs. now apply (H (length s)).
Qed.

(** X10.  Reading the tool's list back is the inverse of writing it:
    when the tool writes paths that hold neither a colon nor a line
    boundary, joined by colons, and the last one is not empty, the
    entries taken from the file are exactly these paths, in ascending
    order.  Whatever the file holds, no entry taken from it contains a
    colon or a line boundary. *)
Theorem external_entries_round_trip :
  forall (paths : list str) (tmp : str),
    (Forall (fun p => listable p = true) paths ->
     last paths [10%N] <> [] ->
     classpath_3rdparty (join (lit ":") paths) = sorted paths) /\
    Forall (fun p => listable p = true) (classpath_3rdparty tmp) /\
    length (classpath_3rdparty tmp)
    = length (splitlines (replace (lit ":") nl tmp)).
Proof.
  intros paths tmp. unfold classpath_3rdparty. fold nl. split; [|split].
  - intros Hp Hlast. rewrite replace_colon_join by assumption.
    rewrite splitlines_join; auto.
    eapply Forall_impl; [|exact Hp]. intros p H. unfold listable in H.
    apply andb_true_iff in H. tauto.
  - eapply Permutation_Forall; [symmetry; apply sorted_perm|].
    pose proof (splitlines_one_line (replace (lit ":") nl tmp)) as H1.
    pose proof (splitlines_from_forallb no_colon []
                  (replace (lit ":") nl tmp) eq_refl
                  (replace_colon_no_colon tmp)) as H2.
    fold (splitlines (replace (lit ":") nl tmp)) in H2.
    rewrite Forall_forall in *. intros p Hp. unfold listable.
    rewrite (H1 p Hp), contains_colon, (H2 p Hp). reflexivity.
  - apply Permutation_length, sorted_perm.
Qed.

Lemma external_entries_round_trip_witness :
  classpath_3rdparty (join (lit ":") [lit "/m2/b.jar"; lit "/m2/a.jar"])
  = [lit "/m2/a.jar"; lit "/m2/b.jar"].
Proof.
  refine (proj1 (external_entries_round_trip
                   [lit "/m2/b.jar"; lit "/m2/a.jar"] []) _ _).
  - repeat constructor.
  - discriminate.
Defined.

(** ** The temporary file and the early exits *)

(** X11.  [build_classpath] checks the target platform first: when it
    is not a directory the run exits with status 1 and the world is as
    before, no temporary file made.  In every other run the temporary
    file is made and never removed: when no project directory is found,
    or the process cannot move into it, or the child cannot be started
    in the directory it is given, the run raises and the file is left
    behind empty; when the tool was run the file holds at the end what
    the tool left in it, whether the run then returns or raises. *)
Theorem build_classpath_temporary_file :
  forall (env : Env) (filename tpp : str) (w : World),
    (is_dir w (Path tpp) = false ->
     exists message,
       build_classpath env filename tpp w = (Raise (Exit message 1), w)) /\
    (is_dir w (Path tpp) = true ->
     find_eclipse_jdtls_project_directory (world_with_tmp env w) filename
     = None ->
     build_classpath env filename tpp w =
     (Raise (RuntimeError project_not_found), world_with_tmp env w) /\
     fs_lookup (tmp_name env w)
       (fs (snd (build_classpath env filename tpp w)))
     = Some (File [])) /\
    (forall project_dir,
        is_dir w (Path tpp) = true ->
        find_eclipse_jdtls_project_directory (world_with_tmp env w) filename
        = Some project_dir ->
        is_dir (world_with_tmp env w) project_dir = false \/
        is_dir (world_at_tool env w project_dir) project_dir = false ->
        fst (build_classpath env filename tpp w)
        = Raise (OSError project_dir) /\
        fs_lookup (tmp_name env w)
          (fs (snd (build_classpath env filename tpp w)))
        = Some (File [])) /\
    (forall project_dir res fs',
        is_dir w (Path tpp) = true ->
        find_eclipse_jdtls_project_directory (world_with_tmp env w) filename
        = Some project_dir ->
        is_dir (world_with_tmp env w) project_dir = true ->
        is_dir (world_at_tool env w project_dir) project_dir = true ->
        subprocess_run env (mvn_cmd (tmp_name env w)) project_dir
          (world_at_tool env w project_dir) = Some (res, fs') ->
        tmp_name env w
        <> abspath (abspath (cwd w) project_dir) (lit ".classpath") ->
        fs_lookup (tmp_name env w)
          (fs (snd (build_classpath env filename tpp w)))
        = fs_lookup (tmp_name env w) fs').
Proof.
  intros env filename tpp w.
  assert (Hempty : fs_lookup (tmp_name env w) (fs (world_with_tmp env w))
                   = Some (File [])).
  { unfold world_with_tmp. cbn [fs].
    now rewrite fs_lookup_write, str_eqb_refl. }
  split; [|split; [|split]].
  - apply build_classpath_no_target.
  - intros Hd Hf. rewrite build_classpath_no_project by assumption.
    split; [reflexivity|]. exact Hempty.
  - intros project_dir Hd Hf Hno.
    rewrite (build_classpath_found env filename tpp w project_dir Hd Hf).
    destruct (is_dir (world_with_tmp env w) project_dir) eqn:Hcd.
    + destruct Hno as [Hno | Hno]; [discriminate|]. rewrite Hno.
      split; [reflexivity|]. exact Hempty.
    + split; [reflexivity|]. exact Hempty.
  - intros project_dir res fs' Hd Hf Hcd Hchild Hrun Hne.
    rewrite (build_classpath_located env filename tpp w project_dir res fs')
      by assumption.
    destruct (negb (returncode res =? 0)%Z); [reflexivity|].
    destruct (stat _ (tmp_name env w)) as [[|tmp]|] eqn:Hl; try reflexivity.
    cbv zeta. destruct (forallb xml_compatible _); [|reflexivity].
    destruct (_collect_target_platform_plugins env _ (Path tpp));
      [|reflexivity].
    cbn [snd fs cwd world_after_tool]. rewrite fs_lookup_write.
    destruct (str_eqb _ (tmp_name env w)) eqn:Heq; auto.
    apply str_eqb_eq in Heq. congruence.
Qed.

Lemma build_classpath_temporary_file_witness :
  fs_lookup Fixtures.tmp
    (fs (snd (build_classpath Fixtures.E_ok (lit "/work/proj/src/Main.java")
                (lit "/eclipse") Fixtures.w_start)))
  = Some (File (lit "/m2/b.jar:/m2/a.jar")).
Proof.
  refine (eq_trans
            (proj2 (proj2 (proj2 (build_classpath_temporary_file Fixtures.E_ok
               (lit "/work/proj/src/Main.java") (lit "/eclipse")
               Fixtures.w_start)))
               (lit "/work/proj")
               {| returncode := 0; stdout := []; stderr := [] |}
               (fs_write Fixtures.tmp (lit "/m2/b.jar:/m2/a.jar")
                  (fs (world_with_tmp Fixtures.E_ok Fixtures.w_start)))
               _ _ _ _ _ _) _).
  - reflexivity.
  - vm_compute. reflexivity.
  - reflexivity.
  - reflexivity.
  - reflexivity.
  - vm_compute. discriminate.
  - vm_compute. reflexivity.
Defined.

(** ** The build descriptor and the scan *)

(** X12.  The build descriptor is read once per binary found, so a
    [pom.xml] that cannot be read stops the scan only when there is a
    binary to compare.  Without one the scan returns the empty list and
    the reconciler goes on as without binaries: it returns when every
    entry it sets out to build for the source archives is accepted by
    the XML library.  With one the error of the read comes out of the
    scan and of the reconciler. *)
Theorem scan_libs_unreadable_pom :
  forall (env : Env) (w : World) (target_path : str) (e : exn),
    faithful_order env ->
    compute_jar_name env w = Raise e ->
    ((forall x, In x (scan_jars w target_path) ->
                In x (scan_sources w target_path)) ->
     scan_libs env w target_path = Ok [] /\
     _collect_target_platform_plugins env w target_path
     = reconcile w (set_order env (scan_sources w target_path)) [] /\
     ((forall s,
          In s (scan_sources w target_path) -> is_excluded s = false ->
          is_file w (sibling s) = true -> is_file w s = true ->
          xml_compatible (sibling s) = true /\ xml_compatible s = true) ->
      exists es,
        _collect_target_platform_plugins env w target_path = Ok es)) /\
    (forall x,
        In x (scan_jars w target_path) ->
        ~ In x (scan_sources w target_path) ->
        scan_libs env w target_path = Raise e /\
        _collect_target_platform_plugins env w target_path = Raise e).
Proof.
  intros env w target_path e HE Hj.
  set (found := set_order env
                  (set_difference (set_of (scan_jars w target_path))
                     (scan_sources w target_path))).
  assert (Hfound : forall x,
             In x found <->
             In x (scan_jars w target_path) /\
             ~ In x (scan_sources w target_path)).
  { intros x. unfold found.
    rewrite set_order_In, set_difference_In, set_of_In by assumption.
    reflexivity. }
  split.
  - intros Hall.
    assert (Hnil : found = []).
    { destruct found as [|x l]; auto. exfalso.
      destruct (proj1 (Hfound x) (or_introl eq_refl)) as [H1 H2].
      exact (H2 (Hall x H1)). }
    assert (Hs : scan_libs env w target_path = Ok []).
    { unfold scan_libs. fold found. now rewrite Hnil. }
    split; [exact Hs|]. split.
    + unfold _collect_target_platform_plugins. now rewrite Hs.
    + intros Hok. eexists. apply (collect_returns env w _ [] HE Hs).
      intros e' [[s [H1 [H2 [H3 [H4 ->]]]]] | [l [[] _]]].
      destruct (Hok s H1 H2 H3 H4) as [Ha Hb].
      change (entry_ok (lib_entry (sibling s) (Some s)) = true).
      rewrite entry_ok_lib. cbn [xml_compatible_opt]. now rewrite Ha, Hb.
  - intros x H1 H2.
    assert (Hs : scan_libs env w target_path = Raise e).
    { unfold scan_libs. fold found.
      destruct found as [|y l] eqn:Hf.
      - exfalso. apply (proj2 (Hfound x) (conj H1 H2)).
      - cbn [drop_own_jar]. now rewrite Hj. }
    split; [exact Hs|].
    unfold _collect_target_platform_plugins. now rewrite Hs.
Qed.

Lemma scan_libs_unreadable_pom_witness :
  scan_libs Fixtures.E_ok Fixtures.w_start (lit "/eclipse") =
  Raise (Exit (lit "`File pom.xml` not found.") 1).
Proof.
  refine (proj1 (proj2 (scan_libs_unreadable_pom Fixtures.E_ok
                          Fixtures.w_start (lit "/eclipse")
                          (Exit (lit "`File pom.xml` not found.") 1) _ _)
                   (lit "/eclipse/plugins/org.bar_2.0.jar") _ _)).
  - intros l. apply Permutation_refl.
  - reflexivity.
  - vm_compute. do 4 right. left. reflexivity.
  - vm_compute. intuition discriminate.
Defined.

(** ** The third-party libraries of the descriptor *)

Lemma sorted_with_mem {A : Type} (ltb : A -> A -> bool) (x : A)
  (l : list A) : In x (sorted_with ltb l) <-> In x l.
Proof.
  split; apply Permutation_in;
    [apply sorted_with_perm | symmetry; apply sorted_with_perm].
Qed.

Lemma parts_ltb_asym (a b : list str) :
  parts_ltb a b = true -> parts_ltb b a = false.
Proof.
  revert b; induction a as [|x a IH]; intros [|y b]; simpl; auto;
    try discriminate.
  rewrite orb_true_iff, andb_true_iff. intros [Hlt | [Heq Hlt]].
  - rewrite (str_ltb_asym _ _ Hlt). simpl.
    destruct (str_eqb y x) eqn:Hyx; auto.
    apply str_eqb_eq in Hyx. subst. rewrite str_ltb_irrefl in Hlt.
    discriminate.
  - apply str_eqb_eq in Heq. subst.
    now rewrite str_ltb_irrefl, str_eqb_refl, (IH _ Hlt).
Qed.

(** X13.  [_third_party_lib_paths] exits with status 1 when there is no
    descriptor.  From a readable descriptor it returns the normalised
    [path] of every [lib] entry whose [path] attribute as written does
    not begin with the platform prefix, one per entry and nothing else.
    Their order is that of the interpreter's path comparison; with the
    comparison of Python 3.12 the list is in ascending order of the
    slash-separated parts. *)
Theorem third_party_lib_paths_spec :
  forall (env : Env) (w : World),
    (fs_lookup (abspath (cwd w) (lit ".classpath")) (fs w) = None ->
     _third_party_lib_paths env w =
     Raise (Exit (lit "`File .classpath` not found.") 1)) /\
    (forall classpath_root,
        _read_xml_file env w (lit ".classpath") = Ok classpath_root ->
        exists libs,
          _third_party_lib_paths env w = Ok libs /\
          (path_lt env = path_ltb -> Sorted path_order libs) /\
          Permutation libs
            (map (fun e => Path (path e)) (third_party classpath_root)) /\
          forall p,
            In p libs <->
            exists e,
              In e (classpathentries classpath_root) /\
              kind e = lit "lib" /\
              startswith (lit "/opt/capella_6.0.0") (path e) = false /\
              p = Path (path e)).
Proof.
  intros env w. split.
  - intros Hnone. unfold _third_party_lib_paths, _read_xml_file.
    rewrite stat_plain by reflexivity. now rewrite Hnone.
  - intros classpath_root Hread.
    rewrite (third_party_lib_paths_readable env w classpath_root Hread).
    eexists. split; [reflexivity|]. split; [|split].
    + intros ->. apply (sorted_with_Sorted path_ltb).
      intros a b. unfold path_ltb. apply parts_ltb_asym.
    + rewrite sorted_with_perm, map_map. reflexivity.
    + intros p. rewrite sorted_with_mem.
      rewrite map_map, in_map_iff. unfold third_party. split.
      * intros [e [<- He]]. rewrite filter_In, andb_true_iff in He.
        destruct He as [Hin [Hk Hp]]. apply str_eqb_eq in Hk.
        apply negb_true_iff in Hp. exists e. auto.
      * intros [e [Hin [Hk [Hp ->]]]]. exists e. split; auto.
        rewrite filter_In, andb_true_iff, Hk, Hp, str_eqb_refl. auto.
Qed.

Lemma third_party_lib_paths_spec_witness :
  exists libs,
    _third_party_lib_paths Fixtures.E_ok Fixtures.w_proj = Ok libs /\
    Sorted path_order libs /\
    In (lit "/y/b.jar") libs.
Proof.
  destruct (proj2 (third_party_lib_paths_spec Fixtures.E_ok Fixtures.w_proj)
              Fixtures.old_classpath_doc) as [libs [H1 [H2 [_ H3]]]].
  - reflexivity.
  - exists libs. split; [exact H1|]. split; [apply H2; reflexivity|].
    apply H3. exists (lib_entry (lit "/y/b.jar") None).
    repeat split. left. reflexivity.
Defined.

(** ** From [build_classpath] to [package] *)




